(** * Bondfire backend: the authentication routes of [server.js]

    A shallow embedding of the in-memory user table and of the handlers
    of the auth and MFA routes ([/api/auth/login], [/api/auth/register],
    [/api/auth/forgot-password], [/api/auth/reset-password],
    [/api/auth/mfa/setup], [/api/auth/mfa/verify], [/api/auth/mfa/disable])
    together with [generateToken] and [authMiddleware].

    The three npm packages the handlers call ([bcryptjs], [speakeasy],
    [jsonwebtoken]) are interfaces here: a class of operations per package,
    a class of laws where a property of the handlers rests on the package's
    contract, and in [Module Ref] one small executable instance of each, on
    which the handlers can be run. *)

From stdpp Require Import base decidable option list list_misc strings pretty gmap.
From Stdlib Require Import ZArith Ascii String DecimalString DecimalPos DecimalZ.

Local Open Scope string_scope.
Local Open Scope Z_scope.

(** ** JavaScript values read from a request body *)

Module JS.

(** A field of [req.body || {}] after destructuring: absent
    ([undefined]), [null], or a string.  The routes are called with JSON
    objects whose fields are strings; numbers, booleans, arrays and
    nested objects are outside this model. *)
Inductive value : Type :=
| undefined
| null
| str (s : string).

Global Instance value_eq_dec : EqDecision value.
Proof. solve_decision. Defined.

(** ToBoolean: [undefined], [null] and the empty string are falsy. *)
Definition truthy (v : value) : bool :=
  match v with
  | str s => negb (String.eqb s "")
  | _ => false
  end.

(** [a || b] *)
Definition or (a b : value) : value := if truthy a then a else b.

(** [String(v)] *)
Definition String (v : value) : string :=
  match v with
  | undefined => "undefined"
  | null => "null"
  | str s => s
  end.

(** [a === b] *)
Definition strict_eq (a b : value) : bool := bool_decide (a = b).

(** [c] lower-cased, for a character below U+0100: the letters [A]..[Z]
    (65..90) and the letters U+00C0..U+00DE (192..222) move up by 32;
    U+00D7 (215), the multiplication sign, is no letter and stays. *)
Definition lower_ascii (c : ascii) : ascii :=
  let n := N_of_ascii c in
  if ((65 <=? n) && (n <=? 90)
      || (192 <=? n) && (n <=? 222) && negb (n =? 215))%N
  then ascii_of_N (n + 32) else c.

(** [s.toLowerCase()], on strings of characters below U+0100. *)
Fixpoint toLowerCase (s : string) : string :=
  match s with
  | EmptyString => EmptyString
  | String.String c s' => String.String (lower_ascii c) (toLowerCase s')
  end.

(** [s.startsWith(p)] *)
Definition startsWith (s p : string) : bool := String.prefix p s.

(** [s.slice(n)] for [0 <= n] *)
Fixpoint slice (s : string) (n : nat) {struct n} : string :=
  match n, s with
  | O, _ => s
  | S n', String.String _ s' => slice s' n'
  | S _, EmptyString => EmptyString
  end.

End JS.

(** ** The npm packages

    Each package is an interface.  What Node draws at random or reads from
    the clock inside a call is an argument here: [salt] for the salt
    [bcryptjs] generates, [entropy] for the bytes of
    [speakeasy.generateSecret], [now] (seconds since the epoch) for
    [Date.now()]. *)

(** [bcryptjs], on strings. *)
Class Bcrypt := {
  (** [bcrypt.hashSync(s, rounds)], with the salt it generates *)
  hashSync : string → nat → string → string;
  (** [bcrypt.compareSync(s, hash)] *)
  compareSync : string → string → bool
}.

(** The contract of [bcryptjs]: a password verifies against its own hash. *)
Class BcryptLaws `{Bcrypt} := {
  compareSync_hashSync :
    ∀ s rounds salt, compareSync s (hashSync s rounds salt) = true
}.

(** [speakeasy], with [encoding: 'base32']. *)
Class Speakeasy := {
  (** [speakeasy.totp.verify({ secret, encoding: 'base32', token, window })]
      at clock [now], on a string secret *)
  totp_verify : string → string → Z → Z → bool;
  (** [speakeasy.generateSecret({ name, length })]: the [base32] and
      [otpauth_url] fields of the result *)
  generateSecret : string → string → nat → string * string
}.

(** The claims the server signs: [{ sub, email, name }]. *)
Record Claims := mkClaims {
  sub : string;
  claim_email : string;
  claim_name : string
}.

Global Instance Claims_eq_dec : EqDecision Claims.
Proof. solve_decision. Defined.

(** What [jwt.verify] returns: the claims with the [iat] and [exp] that
    [jwt.sign] added. *)
Record Payload := mkPayload {
  claims : Claims;
  iat : Z;
  exp : Z
}.

(** The two errors [jwt.verify] throws, or the decoded payload. *)
Inductive Verified : Type :=
| Decoded (p : Payload)
| TokenExpiredError
| JsonWebTokenError.

(** [jsonwebtoken], with the default HS256 algorithm. *)
Class Jsonwebtoken := {
  (** [jwt.sign(claims, secret, { expiresIn })] at clock [now], [expiresIn]
      in seconds *)
  jwt_sign : Claims → string → Z → Z → string;
  (** [jwt.verify(token, secret)] at clock [now] *)
  jwt_verify : string → string → Z → Verified
}.

(** The contract of [jsonwebtoken]: a token is not the empty string; it
    verifies under the secret it was signed with until [exp = iat +
    expiresIn] and is expired from then on ([clockTimestamp >= exp]); and,
    the signature being taken as unforgeable, it does not verify under
    another secret. *)
Class JsonwebtokenLaws `{Jsonwebtoken} := {
  jwt_sign_nonempty :
    ∀ c secret ttl now, jwt_sign c secret ttl now ≠ "";
  jwt_verify_sign :
    ∀ c secret ttl now now', now' < now + ttl →
      jwt_verify (jwt_sign c secret ttl now) secret now'
      = Decoded (mkPayload c now (now + ttl));
  jwt_verify_expired :
    ∀ c secret ttl now now', now + ttl ≤ now' →
      jwt_verify (jwt_sign c secret ttl now) secret now' = TokenExpiredError;
  jwt_verify_other_secret :
    ∀ c secret secret' ttl now now', secret ≠ secret' →
      jwt_verify (jwt_sign c secret ttl now) secret' now' = JsonWebTokenError
}.

(** ** The user table *)

(** An element of [users].  [mfaSecret], [mfaTempSecret] and [resetToken]
    hold [null] or a string. *)
Record User := mkUser {
  id : string;
  name : string;
  email : string;
  passwordHash : string;
  mfaEnabled : bool;
  mfaSecret : JS.value;
  mfaTempSecret : JS.value;
  resetToken : JS.value
}.

Global Instance User_eq_dec : EqDecision User.
Proof. solve_decision. Defined.

Definition set_passwordHash (h : string) (u : User) : User :=
  mkUser (id u) (name u) (email u) h (mfaEnabled u) (mfaSecret u)
         (mfaTempSecret u) (resetToken u).

Definition set_mfaEnabled (b : bool) (u : User) : User :=
  mkUser (id u) (name u) (email u) (passwordHash u) b (mfaSecret u)
         (mfaTempSecret u) (resetToken u).

Definition set_mfaSecret (v : JS.value) (u : User) : User :=
  mkUser (id u) (name u) (email u) (passwordHash u) (mfaEnabled u) v
         (mfaTempSecret u) (resetToken u).

Definition set_mfaTempSecret (v : JS.value) (u : User) : User :=
  mkUser (id u) (name u) (email u) (passwordHash u) (mfaEnabled u)
         (mfaSecret u) v (resetToken u).

Definition set_resetToken (v : JS.value) (u : User) : User :=
  mkUser (id u) (name u) (email u) (passwordHash u) (mfaEnabled u)
         (mfaSecret u) (mfaTempSecret u) v.

(** ** Responses *)

(** The JSON bodies the routes send. *)
Inductive Json : Type :=
| Message (message : string)               (* { message } *)
| Error (error : string)                   (* { error } *)
| OkTrue                                   (* { ok: true } *)
| TokenUser (token uid uname uemail : string)
                                           (* { token, user: { id, name, email } } *)
| Secret (secret otpauthUrl : string)      (* { secret, otpauthUrl } *)
| Uncaught.                                (* Express's page for an uncaught exception *)

Record Response := json {
  status : Z;
  body : Json
}.

Global Instance Json_eq_dec : EqDecision Json.
Proof. solve_decision. Defined.
Global Instance Response_eq_dec : EqDecision Response.
Proof. solve_decision. Defined.

(** A handler either goes on with a value or has sent its response
    ([return res.status(..).json(..)]). *)
Inductive Handler (A : Type) : Type :=
| Go (a : A)
| Sent (r : Response).
Arguments Go {A} a.
Arguments Sent {A} r.

Global Instance Handler_ret : MRet Handler := λ A a, Go a.
Global Instance Handler_bind : MBind Handler := λ A B k m,
  match m with
  | Go a => k a
  | Sent r => Sent r
  end.

(** [if (c) return r;] *)
Definition return_if (c : bool) (r : Response) : Handler unit :=
  if c then Sent r else Go tt.

(** [const x = o; if (!x) return r;] for the result of [find] *)
Definition found {A} (o : option A) (r : Response) : Handler A :=
  match o with
  | Some a => Go a
  | None => Sent r
  end.

(** A call that may throw: the exception is not caught by the route, and
    Express answers 500. *)
Definition try {A} (o : option A) : Handler A :=
  found o (json 500 Uncaught).

(** ** The routes *)

Section Server.

Context `{Bcrypt} `{Speakeasy} `{Jsonwebtoken}.

(** [process.env.JWT_SECRET || 'dev-secret'] *)
Variable JWT_SECRET : string.

(** [bcrypt.compareSync] throws on an argument that is not a string. *)
Definition bcrypt_compareSync (s : JS.value) (hash : string) : option bool :=
  match s with
  | JS.str s => Some (compareSync s hash)
  | _ => None
  end.

(** [bcrypt.hashSync] throws on an argument that is not a string. *)
Definition bcrypt_hashSync (s : JS.value) (rounds : nat) (salt : string)
  : option string :=
  match s with
  | JS.str s => Some (hashSync s rounds salt)
  | _ => None
  end.

(** [speakeasy.totp.verify] throws on a missing secret. *)
Definition speakeasy_totp_verify (secret : JS.value) (token : string)
    (window now : Z) : option bool :=
  match secret with
  | JS.str s => Some (totp_verify s token window now)
  | _ => None
  end.

(** [u => u.email.toLowerCase() === String(email||'').toLowerCase()] *)
Definition email_is (e : JS.value) (u : User) : Prop :=
  JS.toLowerCase (email u)
  = JS.toLowerCase (JS.String (JS.or e (JS.str ""))).

Global Instance email_is_dec e u : Decision (email_is e u).
Proof. unfold email_is. apply _. Defined.

(** [u => u.id === sub] *)
Definition id_is (s : string) (u : User) : Prop := id u = s.

Global Instance id_is_dec s u : Decision (id_is s u).
Proof. unfold id_is. apply _. Defined.

(** [u => u.resetToken && u.resetToken === token] *)
Definition resetToken_is (token : JS.value) (u : User) : Prop :=
  JS.truthy (resetToken u) && JS.strict_eq (resetToken u) token = true.

Global Instance resetToken_is_dec token u : Decision (resetToken_is token u).
Proof. unfold resetToken_is. apply _. Defined.

(** [generateToken(user)] at clock [now]; ['1h'] is 3600 seconds. *)
Definition generateToken (now : Z) (user : User) : string :=
  jwt_sign (mkClaims (id user) (email user) (name user)) JWT_SECRET 3600 now.

(** [authMiddleware] on the [Authorization] header: [Go payload] is
    [req.user = payload; next()]. *)
Definition authMiddleware (now : Z) (authorization : JS.value)
  : Handler Payload :=
  let hdr := JS.String (JS.or authorization (JS.str "")) in
  let token :=
    if JS.startsWith hdr "Bearer " then JS.str (JS.slice hdr 7) else JS.null in
  _ ← return_if (negb (JS.truthy token)) (json 401 (Message "Missing token"));
  match jwt_verify (JS.String token) JWT_SECRET now with
  | Decoded payload => Go payload
  | TokenExpiredError | JsonWebTokenError =>
      Sent (json 401 (Message "Invalid token"))
  end.

(** What a route leaves behind: its response and the user table. *)
Definition finish (users : list User) (h : Handler (Response * list User))
  : Response * list User :=
  match h with
  | Go out => out
  | Sent r => (r, users)
  end.

(** [POST /api/auth/login] with body [{ email, password, mfa }] (the
    [req_] arguments).  The route does not write to [users]. *)
Definition login (now : Z) (req_email req_password req_mfa : JS.value)
    (users : list User) : Response :=
  fst (finish users (
    '(_, user) ← found (list_find (email_is req_email) users)
                       (json 401 (Message "Invalid email or password"));
    ok ← try (bcrypt_compareSync (JS.or req_password (JS.str ""))
                                 (passwordHash user));
    _ ← return_if (negb ok) (json 401 (Message "Invalid email or password"));
    _ ← (if mfaEnabled user then
           _ ← return_if (negb (JS.truthy req_mfa))
                         (json 401 (Message "MFA code required"));
           verified ← try (speakeasy_totp_verify (mfaSecret user)
                                                 (JS.String req_mfa) 1 now);
           return_if (negb verified) (json 401 (Message "Invalid MFA code"))
         else Go tt);
    let token := generateToken now user in
    Go (json 200 (TokenUser token (id user) (name user) (email user)),
        users))).

(** [POST /api/auth/register] with body [{ name, email, password }].
    Past the first guard the three fields are strings, on which
    [JS.String] is the identity. *)
Definition register (now : Z) (salt : string)
    (req_name req_email req_password : JS.value)
    (users : list User) : Response * list User :=
  finish users (
    _ ← return_if (negb (JS.truthy req_name) || negb (JS.truthy req_email)
                   || negb (JS.truthy req_password))
                  (json 400 (Message "Missing fields"));
    let exists_ := bool_decide (Exists (email_is req_email) users) in
    _ ← return_if exists_ (json 409 (Message "Email already registered"));
    let id := "u_" +:+ pretty (List.length users + 1)%nat in
    passwordHash ← try (bcrypt_hashSync req_password 10 salt);
    let user := mkUser id (JS.String req_name) (JS.String req_email)
                       passwordHash false JS.null JS.null JS.null in
    let users := (users ++ [user])%list in
    let token := generateToken now user in
    Go (json 201 (TokenUser token id (JS.String req_name)
                            (JS.String req_email)),
        users)).

(** [POST /api/auth/forgot-password] with body [{ email }]; [r1] and
    [r2] are the two values of [Math.random().toString(36).slice(2)].
    The token goes to the console only. *)
Definition forgot_password (r1 r2 : string) (req_email : JS.value)
    (users : list User) : Response * list User :=
  match list_find (email_is req_email) users with
  | Some (i, user) =>
      (json 200 OkTrue,
       <[i := set_resetToken (JS.str (r1 +:+ r2)) user]> users)
  | None => (json 200 OkTrue, users)
  end.

(** [POST /api/auth/reset-password] with body [{ token, newPassword }]. *)
Definition reset_password (salt : string) (req_token req_newPassword : JS.value)
    (users : list User) : Response * list User :=
  finish users (
    '(i, user) ← found (list_find (resetToken_is req_token) users)
                       (json 400 (Message "Invalid token"));
    passwordHash ← try (bcrypt_hashSync (JS.or req_newPassword (JS.str ""))
                                        10 salt);
    let user := set_passwordHash passwordHash user in
    let user := set_resetToken JS.null user in
    Go (json 200 OkTrue, <[i := user]> users)).

(** [GET /api/auth/mfa/setup] behind [authRequired]; [sub] is
    [req.user.sub]. *)
Definition mfa_setup (entropy : string) (sub : string)
    (users : list User) : Response * list User :=
  finish users (
    '(i, user) ← found (list_find (id_is sub) users)
                       (json 404 (Error "User not found"));
    let secret :=
      generateSecret entropy ("Bondfire (" +:+ email user +:+ ")") 20 in
    let user := set_mfaTempSecret (JS.str (fst secret)) user in
    Go (json 200 (Secret (fst secret) (snd secret)), <[i := user]> users)).

(** [POST /api/auth/mfa/verify] with body [{ token, secret }], behind
    [authRequired]. *)
Definition mfa_verify (now : Z) (sub : string) (req_token req_secret : JS.value)
    (users : list User) : Response * list User :=
  finish users (
    '(i, user) ← found (list_find (id_is sub) users)
                       (json 404 (Error "User not found"));
    let base32 := JS.or req_secret (mfaTempSecret user) in
    _ ← return_if (negb (JS.truthy req_token) || negb (JS.truthy base32))
                  (json 400 (Error "Missing token or secret"));
    ok ← try (speakeasy_totp_verify base32 (JS.String req_token) 1 now);
    _ ← return_if (negb ok) (json 400 (Error "Invalid code"));
    let user := set_mfaEnabled true user in
    let user := set_mfaSecret base32 user in
    let user := set_mfaTempSecret JS.null user in
    Go (json 200 OkTrue, <[i := user]> users)).

(** [POST /api/auth/mfa/disable] behind [authRequired]. *)
Definition mfa_disable (sub : string) (users : list User)
  : Response * list User :=
  finish users (
    '(i, user) ← found (list_find (id_is sub) users)
                       (json 404 (Error "User not found"));
    let user := set_mfaEnabled false user in
    let user := set_mfaSecret JS.null user in
    let user := set_mfaTempSecret JS.null user in
    Go (json 200 OkTrue, <[i := user]> users)).

(** The initial [users]: the seed account, [salt] being the salt of its
    [bcrypt.hashSync('password123', 10)]. *)
Definition users (salt : string) : list User :=
  [ mkUser "u_1" "Test User" "test@bondfire.org"
           (hashSync "password123" 10 salt) false JS.null JS.null JS.null ].

End Server.

(** ** Requests and routing *)

(** A request to one of the routes, with what the clock and the random
    sources give during the call. *)
Inductive Request : Type :=
| PostLogin (now : Z) (req_email req_password req_mfa : JS.value)
| PostRegister (now : Z) (salt : string)
               (req_name req_email req_password : JS.value)
| PostForgotPassword (r1 r2 : string) (req_email : JS.value)
| PostResetPassword (salt : string) (req_token req_newPassword : JS.value)
| GetMfaSetup (entropy : string) (sub : string)
| PostMfaVerify (now : Z) (sub : string) (req_token req_secret : JS.value)
| PostMfaDisable (sub : string).

Section Router.

Context `{Bcrypt} `{Speakeasy} `{Jsonwebtoken}.
Variable JWT_SECRET : string.

(** The routing table: the response and the user table a request
    leaves. *)
Definition route (req : Request) (users : list User)
  : Response * list User :=
  match req with
  | PostLogin now e p m => (login JWT_SECRET now e p m users, users)
  | PostRegister now salt n e p => register JWT_SECRET now salt n e p users
  | PostForgotPassword r1 r2 e => forgot_password r1 r2 e users
  | PostResetPassword salt t p => reset_password salt t p users
  | GetMfaSetup entropy sub => mfa_setup entropy sub users
  | PostMfaVerify now sub t s => mfa_verify now sub t s users
  | PostMfaDisable sub => mfa_disable sub users
  end.

(** The table after a sequence of requests. *)
Fixpoint run (reqs : list Request) (users : list User) : list User :=
  match reqs with
  | [] => users
  | req :: reqs => run reqs (snd (route req users))
  end.

End Router.

(** ** Vocabulary of the properties *)

(** The kinds of failure, as the routes send them. *)
Definition InvalidCredentials : Response :=
  json 401 (Message "Invalid email or password").
Definition MfaRequired : Response := json 401 (Message "MFA code required").
Definition InvalidMfaCode : Response := json 401 (Message "Invalid MFA code").
Definition ValidationError : Response := json 400 (Message "Missing fields").
Definition DuplicateEmail : Response :=
  json 409 (Message "Email already registered").
Definition InvalidToken : Response := json 400 (Message "Invalid token").

(** What [authMiddleware] answers when [jwt.verify] throws. *)
Definition Unauthorized : Response := json 401 (Message "Invalid token").

(** [mfaSecret] is set exactly when [mfaEnabled] is. *)
Definition mfa_consistent (u : User) : Prop :=
  mfaSecret u ≠ JS.null ↔ mfaEnabled u = true.

(** The only holder of a reset token is the user [find] returns. *)
Definition sole_holder (t : string) (i : nat) (l : list User) : Prop :=
  ∀ j v, l !! j = Some v → resetToken v = JS.str t → j = i.

(** The user [mfa_verify] writes back on success. *)
Definition enrolled (base32 : JS.value) (user : User) : User :=
  set_mfaTempSecret JS.null (set_mfaSecret base32 (set_mfaEnabled true user)).

Section Written.

Context `{Bcrypt}.

(** The user [register] appends. *)
Definition new_user (salt n e p : string) (users : list User) : User :=
  mkUser ("u_" +:+ pretty (List.length users + 1)%nat) n e
         (hashSync p 10 salt) false JS.null JS.null JS.null.

(** The user [reset_password] writes back. *)
Definition with_password (salt : string) (req_newPassword : JS.value)
    (user : User) : User :=
  set_resetToken JS.null
    (set_passwordHash
       (hashSync (JS.String (JS.or req_newPassword (JS.str ""))) 10 salt)
       user).

End Written.

(** ** Reference instances of the packages

    Small executable stand-ins with the packages' functional behaviour
    (and none of their cryptography), on which the routes evaluate. *)

Module Ref.

(** A self-delimiting code for a string: every character is preceded by
    ["+"], and ["."] closes the string. *)
Fixpoint frame (s : string) : string :=
  match s with
  | EmptyString => "."
  | String.String c s' => String.String "+" (String.String c (frame s'))
  end.

(** Reads one framed string off the front of [t]. *)
Fixpoint unframe (t : string) : option (string * string) :=
  match t with
  | EmptyString => None
  | String.String m r =>
      if Ascii.eqb m "." then Some (EmptyString, r)
      else match r with
           | EmptyString => None
           | String.String c t' =>
               match unframe t' with
               | Some (s, rest) => Some (String.String c s, rest)
               | None => None
               end
           end
  end.

Definition string_of_Z (z : Z) : string :=
  NilEmpty.string_of_int (Z.to_int z).

Definition Z_of_string (s : string) : option Z :=
  Z.of_int <$> NilEmpty.int_of_string s.

(** bcrypt: the hash is the framed salt followed by the password. *)
#[export] Instance bcrypt : Bcrypt := {|
  hashSync s rounds salt := frame salt +:+ s;
  compareSync s hash :=
    match unframe hash with
    | Some (_, s') => String.eqb s s'
    | None => false
    end
|}.

Definition checksum (s : string) : Z :=
  fold_left (λ acc c, (acc * 31 + Z.of_N (N_of_ascii c)) mod 1000000)
            (list_ascii_of_string s) 7.

(** The six-digit code of [secret] at time step [counter]. *)
Definition totp (secret : string) (counter : Z) : string :=
  let d := string_of_Z ((checksum secret + 7919 * counter) mod 1000000) in
  String.concat "" (replicate (6 - String.length d) "0") +:+ d.

(** speakeasy: a 30-second step, and [window] steps on either side of
    the current one. *)
#[export] Instance speakeasy : Speakeasy := {|
  totp_verify secret token window now :=
    bool_decide (String.length token = 6%nat)
    && existsb (λ c, String.eqb (totp secret c) token)
               (seqZ (now `div` 30 - window) (2 * window + 1));
  generateSecret entropy name length :=
    (entropy, "otpauth://totp/" +:+ name +:+ "?secret=" +:+ entropy)
|}.

Definition jwt_decode (token : string)
  : option (string * Claims * Z * Z) :=
  '(secret, t) ← unframe token;
  '(sub, t) ← unframe t;
  '(email, t) ← unframe t;
  '(name, t) ← unframe t;
  '(iat, t) ← unframe t;
  '(exp, t) ← unframe t;
  iat ← Z_of_string iat;
  exp ← Z_of_string exp;
  if String.eqb t "" then Some (secret, mkClaims sub email name, iat, exp)
  else None.

(** jsonwebtoken: the token carries the secret in place of a signature. *)
#[export] Instance jsonwebtoken : Jsonwebtoken := {|
  jwt_sign c secret ttl now :=
    frame secret +:+ frame (sub c) +:+ frame (claim_email c)
    +:+ frame (claim_name c) +:+ frame (string_of_Z now)
    +:+ frame (string_of_Z (now + ttl));
  jwt_verify token secret now :=
    match jwt_decode token with
    | None => JsonWebTokenError
    | Some (secret', c, iat, exp) =>
        if negb (String.eqb secret' secret) then JsonWebTokenError
        else if exp <=? now then TokenExpiredError
        else Decoded (mkPayload c iat exp)
    end
|}.

(** The routes on the reference packages, with the development secret. *)
Definition JWT_SECRET : string := "dev-secret".

(** The seed table. *)
Definition seed : list User := users "c2VlZA".

(** The seed user after [GET /api/auth/mfa/setup]. *)
Definition pending : list User :=
  snd (mfa_setup "JBSWY3DPEHPK3PXP" "u_1" seed).

(** The seed user after setup and a verified code: two-factor is on. *)
Definition enabled : list User :=
  snd (mfa_verify 1000 "u_1" (JS.str (totp "JBSWY3DPEHPK3PXP" 33))
                  JS.undefined pending).

(** The seed user after [POST /api/auth/forgot-password]. *)
Definition requested : list User :=
  snd (forgot_password "k3x9w2pq7m1" "z8d4v6n0s5t"
                       (JS.str "Test@Bondfire.org") seed).

(** A user with the claims of the seed user. *)
Definition seed_user : User :=
  mkUser "u_1" "Test User" "test@bondfire.org" "" false
         JS.null JS.null JS.null.

End Ref.

(** * The rest of [server.js]

    The CORS origin check, [authRequired], [GET /api/auth/me] and the
    public org pages ([slugify], [uniqueSlug] and the three
    [/public] routes).  These routes read booleans, arrays and objects
    from the body, so their fields are JSON values ([JSON.value]). *)

(** ** String methods *)

Module Text.

(** The white space of [trim] and of [\s] among the characters below
    U+0100: tab, line feed, vertical tab, form feed, carriage return
    (9..13), space (32) and the no-break space U+00A0 (160). *)
Definition is_space (c : ascii) : bool :=
  let n := N_of_ascii c in
  ((9 <=? n) && (n <=? 13) || (n =? 32) || (n =? 160))%N.

(** The line terminators among the characters below U+0100, which [.]
    does not match: line feed and carriage return. *)
Definition is_line_terminator (c : ascii) : bool :=
  let n := N_of_ascii c in
  ((n =? 10) || (n =? 13))%N.

(** [a-z0-9] *)
Definition is_slug_char (c : ascii) : bool :=
  let n := N_of_ascii c in
  ((97 <=? n) && (n <=? 122) || (48 <=? n) && (n <=? 57))%N.

Definition is_dash (c : ascii) : bool := Ascii.eqb c "-".

(** [s] without its longest prefix of characters in [p]. *)
Fixpoint strip_start (p : ascii → bool) (s : string) : string :=
  match s with
  | EmptyString => EmptyString
  | String.String c s' => if p c then strip_start p s' else s
  end.

(** [s] without its longest suffix of characters in [p]. *)
Fixpoint strip_end (p : ascii → bool) (s : string) : string :=
  match s with
  | EmptyString => EmptyString
  | String.String c s' =>
      let r := strip_end p s' in
      if p c && String.eqb r "" then EmptyString else String.String c r
  end.

(** [s.trim()] *)
Definition trim (s : string) : string :=
  strip_end is_space (strip_start is_space s).

(** [s.replace(/[^a-z0-9]+/g, '-')]: every maximal run of characters
    outside [a-z0-9] becomes one dash; [in_run] tells that the previous
    character was in such a run. *)
Fixpoint dash_runs (in_run : bool) (s : string) : string :=
  match s with
  | EmptyString => EmptyString
  | String.String c s' =>
      if is_slug_char c then String.String c (dash_runs false s')
      else if in_run then dash_runs true s'
      else String.String "-" (dash_runs true s')
  end.

(** [s.replace(/^-+|-+$/g, '')]: the dashes at the start go, then the
    dashes at the end. *)
Definition strip_dashes (s : string) : string :=
  strip_end is_dash (strip_start is_dash s).

(** [s.slice(0, n)] for [0 <= n] *)
Fixpoint take (n : nat) (s : string) {struct n} : string :=
  match n, s with
  | S n', String.String c s' => String.String c (take n' s')
  | _, _ => EmptyString
  end.

(** [s.split(',')] *)
Fixpoint split_comma (s : string) : list string :=
  match s with
  | EmptyString => [EmptyString]
  | String.String c s' =>
      if Ascii.eqb c "," then EmptyString :: split_comma s'
      else match split_comma s' with
           | piece :: pieces => String.String c piece :: pieces
           | [] => [String.String c EmptyString]
           end
  end.

(** The characters of a string. *)
Fixpoint chars (s : string) : list ascii :=
  match s with
  | EmptyString => []
  | String.String c s' => c :: chars s'
  end.

(** The last character, if any. *)
Fixpoint last_char (s : string) : option ascii :=
  match s with
  | EmptyString => None
  | String.String c EmptyString => Some c
  | String.String _ s' => last_char s'
  end.

End Text.

(** ** JSON values *)

Module JSON.

(** A value of a parsed JSON body, or [undefined] for a field that is not
    there.  Numbers are the integers: the routes below test a number for
    truthiness only.  An object lists its own properties, each key
    once. *)
#[warnings="-register-all"]
Inductive value : Type :=
| undefined
| null
| boolean (b : bool)
| number (n : Z)
| str (s : string)
| array (items : list value)
| object (properties : list (string * value)).

(** ToBoolean *)
Definition truthy (v : value) : bool :=
  match v with
  | undefined | null => false
  | boolean b => b
  | number n => negb (n =? 0)
  | str s => negb (String.eqb s "")
  | array _ | object _ => true
  end.

(** [a || b] *)
Definition or (a b : value) : value := if truthy a then a else b.

(** [o[key]] on an association list *)
Fixpoint lookup (key : string) (properties : list (string * value)) : value :=
  match properties with
  | [] => undefined
  | (k, v) :: rest => if String.eqb k key then v else lookup key rest
  end.

(** [v.key] for a [key] that no prototype defines ([text], [url],
    [channel], ...), on a [v] that is neither [null] nor [undefined]. *)
Definition get (v : value) (key : string) : value :=
  match v with
  | object properties => lookup key properties
  | _ => undefined
  end.

(** A stored string or [undefined]. *)
Definition of_option (o : option string) : value :=
  match o with
  | Some s => str s
  | None => undefined
  end.

End JSON.

(** ** CORS *)

(** [defaultOrigins] *)
Definition defaultOrigins : list string :=
  [ "https://bondfire.netlify.app"; "http://localhost:5173" ].

(** [envOrigins], from [process.env.CORS_ORIGINS] and
    [process.env.FRONTEND_ORIGIN]; an array, even an empty one, is
    truthy, so the second operand of [||] counts only when
    [CORS_ORIGINS] is not set. *)
Definition envOrigins (CORS_ORIGINS FRONTEND_ORIGIN : option string)
  : list string :=
  match CORS_ORIGINS with
  | Some s =>
      filter (λ o, o ≠ "") (Text.trim <$> Text.split_comma s)
  | None =>
      match FRONTEND_ORIGIN with
      | Some o => if String.eqb o "" then [] else [o]
      | None => []
      end
  end.

(** [ALLOWED_ORIGINS] *)
Definition ALLOWED_ORIGINS (CORS_ORIGINS FRONTEND_ORIGIN : option string)
  : list string :=
  let env := envOrigins CORS_ORIGINS FRONTEND_ORIGIN in
  if bool_decide (List.length env = 0%nat) then defaultOrigins else env.

(** What [corsOptions.origin] passes to its callback: [cb(null, true)] or
    [cb(new Error(message), false)]. *)
Inductive OriginCheck : Type :=
| OriginAllowed
| OriginRefused (message : string).

(** [corsOptions.origin(origin, cb)]; [origin] is the [Origin] header. *)
Definition origin (allowed : list string) (origin : option string)
  : OriginCheck :=
  match origin with
  | None => OriginAllowed
  | Some o =>
      if String.eqb o "" then OriginAllowed
      else if bool_decide (o ∈ allowed) then OriginAllowed
      else OriginRefused ("CORS: Origin not allowed: " +:+ o)
  end.

(** ** The other token middleware and [GET /api/auth/me] *)

(** [h.match(/^Bearer\s+(.+)$/)]: the first group of the match, if the
    header matches.  [\s+] is greedy and gives characters back: when
    nothing follows the white space, the group is the last white-space
    character, unless that one is a line terminator. *)
Definition match_Bearer (h : string) : option string :=
  if String.prefix "Bearer" h then
    let after := JS.slice h 6 in
    let rest := Text.strip_start Text.is_space after in
    if (String.length rest =? String.length after)%nat then None
    else match rest with
         | EmptyString =>
             match Text.last_char after with
             | Some c =>
                 if (2 <=? String.length after)%nat
                    && negb (Text.is_line_terminator c)
                 then Some (String.String c EmptyString)
                 else None
             | None => None
             end
         | _ =>
             if forallb (λ c, negb (Text.is_line_terminator c)) (Text.chars rest)
             then Some rest
             else None
         end
  else None.

(** [{ id, name, email, mfaEnabled }] *)
Record Profile := mkProfile {
  profile_id : string;
  profile_name : string;
  profile_email : string;
  profile_mfaEnabled : bool
}.

Section Session.

Context `{Jsonwebtoken}.
Variable JWT_SECRET : string.

(** [authRequired] on the [Authorization] header: [Go payload] is
    [req.user = payload; next()]. *)
Definition authRequired (now : Z) (authorization : JS.value)
  : Handler Payload :=
  let h := JS.String (JS.or authorization (JS.str "")) in
  match match_Bearer h with
  | None => Sent (json 401 (Error "Unauthorized"))
  | Some token =>
      match jwt_verify token JWT_SECRET now with
      | Decoded payload => Go payload
      | TokenExpiredError | JsonWebTokenError =>
          Sent (json 401 (Error "Unauthorized"))
      end
  end.

(** [GET /api/auth/me] behind [authMiddleware]: [Go profile] is
    [res.json(profile)]. *)
Definition me (now : Z) (authorization : JS.value) (users : list User)
  : Handler Profile :=
  payload ← authMiddleware JWT_SECRET now authorization;
  '(_, user) ← found (list_find (id_is (sub (claims payload))) users)
                     (json 401 (Message "Not found"));
  Go (mkProfile (id user) (name user) (email user) (mfaEnabled user)).

End Session.

(** ** Public org pages *)

(** [slugify] on a string. *)
Definition slug_of (s : string) : string :=
  Text.take 48
    (Text.strip_dashes
       (Text.dash_runs false (Text.trim (JS.toLowerCase s)))).

(** [slugify(s)]; [None] is the TypeError of [(s || '').toLowerCase()] on
    a truthy [s] that is not a string. *)
Definition slugify (s : JSON.value) : option string :=
  match JSON.or s (JSON.str "") with
  | JSON.str t => Some (slug_of t)
  | _ => None
  end.

(** A value of [publicPages].  [save] writes all six fields;
    [generate] on an organisation without a page writes the slug
    only, and the others are [undefined] ([None]). *)
Record Page := mkPage {
  page_enabled : option bool;
  page_slug : option string;
  page_title : option string;
  page_about : option string;
  page_features : option (list JSON.value);
  page_links : option (list JSON.value)
}.

(** [{}] *)
Definition empty_page : Page := mkPage None None None None None None.

(** The two maps. *)
Record Pages := mkPages {
  publicPages : gmap string Page;
  slugToOrg : gmap string string
}.

(** The [n]-th slug [uniqueSlug] tries: [base || 'org'], then
    [base-1], [base-2], ... *)
Definition candidate (base : string) (n : nat) : string :=
  match n with
  | O => if String.eqb base "" then "org" else base
  | S _ => base +:+ "-" +:+ pretty n
  end.

(** The loop of [uniqueSlug], at most [fuel] tests. *)
Fixpoint uniqueSlug_loop (index : gmap string string) (base : string)
    (fuel n : nat) (trySlug : string) : string :=
  match fuel with
  | O => trySlug
  | S fuel =>
      if bool_decide (is_Some (index !! trySlug))
      then uniqueSlug_loop index base fuel (n + 1)
                           (base +:+ "-" +:+ pretty (n + 1)%nat)
      else trySlug
  end.

(** [uniqueSlug(base)] on the current [slugToOrg].  One more test than
    the map has keys is enough for the loop to end. *)
Definition uniqueSlug (index : gmap string string) (base : string) : string :=
  uniqueSlug_loop index base (S (size index)) 0
                  (if String.eqb base "" then "org" else base).

(** The JSON bodies of the page routes. *)
Inductive PublicJson : Type :=
| PublicSaved (public : Page)               (* { ok: true, public } *)
| PublicFound (public : Page) (orgId : string)
                                            (* { ok: true, public, orgId } *)
| PublicError (error : string)              (* { ok: false, error } *)
| PublicUncaught.                           (* Express's page for an uncaught exception *)

Record PublicResponse := public_json {
  public_status : Z;
  public_body : PublicJson
}.

(** A statement of a page route: it goes on with a value, has sent its
    response, or has thrown; what it wrote to the maps before stays. *)
Inductive Outcome (A : Type) : Type :=
| Value (a : A)
| Returned (r : PublicResponse)
| Thrown.
Arguments Value {A} a.
Arguments Returned {A} r.
Arguments Thrown {A}.

Definition PageRoute (A : Type) : Type := Pages → Outcome A * Pages.

Global Instance PageRoute_ret : MRet PageRoute := λ A a st, (Value a, st).
Global Instance PageRoute_bind : MBind PageRoute := λ A B k m st,
  match m st with
  | (Value a, st') => k a st'
  | (Returned r, st') => (Returned r, st')
  | (Thrown, st') => (Thrown, st')
  end.

(** [return res.status(..).json(..)] *)
Definition respond {A} (r : PublicResponse) : PageRoute A :=
  λ st, (Returned r, st).

(** A call that may throw. *)
Definition throws {A} (o : option A) : PageRoute A :=
  λ st, (match o with Some a => Value a | None => Thrown end, st).

(** [publicPages.get(orgId) || {}] *)
Definition publicPages_get (orgId : string) : PageRoute Page :=
  λ st, (Value (default empty_page (publicPages st !! orgId)), st).

(** [publicPages.set(orgId, page)] *)
Definition publicPages_set (orgId : string) (page : Page) : PageRoute unit :=
  λ st, (Value tt, mkPages (<[orgId := page]> (publicPages st)) (slugToOrg st)).

(** [slugToOrg.set(slug, orgId)] *)
Definition slugToOrg_set (slug orgId : string) : PageRoute unit :=
  λ st, (Value tt, mkPages (publicPages st) (<[slug := orgId]> (slugToOrg st))).

(** [if (prev.slug && slugToOrg.get(prev.slug) === orgId)
    slugToOrg.delete(prev.slug);] *)
Definition release (prev : Page) (orgId : string) : PageRoute unit :=
  λ st,
    match page_slug prev with
    | Some slug =>
        if negb (String.eqb slug "")
           && bool_decide (slugToOrg st !! slug = Some orgId)
        then (Value tt, mkPages (publicPages st) (delete slug (slugToOrg st)))
        else (Value tt, st)
    | None => (Value tt, st)
    end.

(** [uniqueSlug(base)], which reads [slugToOrg]. *)
Definition unique (base : string) : PageRoute string :=
  λ st, (Value (uniqueSlug (slugToOrg st) base), st).

(** [(v || '').trim()]; [None] is the TypeError on a truthy [v] that is
    not a string. *)
Definition trimmed (v : JSON.value) : option string :=
  match JSON.or v (JSON.str "") with
  | JSON.str s => Some (Text.trim s)
  | _ => None
  end.

(** [typeof slug === 'string' && slug.trim()] *)
Definition slug_given (slug : JSON.value) : bool :=
  match slug with
  | JSON.str s => negb (String.eqb (Text.trim s) "")
  | _ => false
  end.

(** [l => l && l.text && l.url] *)
Definition is_link (l : JSON.value) : bool :=
  JSON.truthy l && JSON.truthy (JSON.get l "text")
  && JSON.truthy (JSON.get l "url").

(** [Array.isArray(features) ? features.filter(Boolean).slice(0, 50) : []] *)
Definition clean_features (features : JSON.value) : list JSON.value :=
  match features with
  | JSON.array items => firstn 50 (List.filter JSON.truthy items)
  | _ => []
  end.

(** [Array.isArray(links) ? links.filter(l => l && l.text && l.url).slice(0, 20) : []] *)
Definition clean_links (links : JSON.value) : list JSON.value :=
  match links with
  | JSON.array items => firstn 20 (List.filter is_link items)
  | _ => []
  end.

(** [a || b] on slugs *)
Definition or_slug (a b : string) : string :=
  if String.eqb a "" then b else a.

(** The response and the maps a page route leaves; an exception that
    nothing catches is answered 500 by Express. *)
Definition finish_page (route : PageRoute PublicResponse) (st : Pages)
  : PublicResponse * Pages :=
  match route st with
  | (Value r, st') => (r, st')
  | (Returned r, st') => (r, st')
  | (Thrown, st') => (public_json 500 PublicUncaught, st')
  end.

(** [POST /api/orgs/:orgId/public/save] with body
    [{ enabled, title, about, features, links, slug }], behind
    [authRequired]. *)
Definition save (orgId : string)
    (req_enabled req_title req_about req_features req_links req_slug
       : JSON.value)
  : Pages → PublicResponse * Pages :=
  finish_page (
    prev ← publicPages_get orgId;
    newSlug ← (if slug_given req_slug then
                 base ← throws (slugify req_slug);
                 _ ← (if String.eqb base ""
                      then respond (public_json 400 (PublicError "BAD_SLUG"))
                      else mret tt);
                 _ ← release prev orgId;
                 final ← unique base;
                 _ ← slugToOrg_set final orgId;
                 mret (Some final)
               else if negb (JSON.truthy (JSON.of_option (page_slug prev))) then
                 of_title ← throws (slugify req_title);
                 let base :=
                   or_slug of_title (or_slug (slug_of orgId) "org") in
                 final ← unique base;
                 _ ← slugToOrg_set final orgId;
                 mret (Some final)
               else mret (page_slug prev));
    title ← throws (trimmed req_title);
    about ← throws (trimmed req_about);
    let cleaned :=
      mkPage (Some (JSON.truthy req_enabled)) newSlug (Some title) (Some about)
             (Some (clean_features req_features))
             (Some (clean_links req_links)) in
    _ ← publicPages_set orgId cleaned;
    mret (public_json 200 (PublicSaved cleaned))).

(** [POST /api/orgs/:orgId/public/generate] behind [authRequired]. *)
Definition generate (orgId : string) : Pages → PublicResponse * Pages :=
  finish_page (
    prev ← publicPages_get orgId;
    of_title ← throws (slugify (JSON.of_option (page_title prev)));
    let base := or_slug of_title (or_slug (slug_of orgId) "org") in
    final ← unique base;
    _ ← release prev orgId;
    _ ← slugToOrg_set final orgId;
    let saved :=
      mkPage (page_enabled prev) (Some final) (page_title prev)
             (page_about prev) (page_features prev) (page_links prev) in
    _ ← publicPages_set orgId saved;
    mret (public_json 200 (PublicSaved saved))).

(** [GET /api/public/:slug] *)
Definition public (slug : string) (st : Pages) : PublicResponse :=
  match slugToOrg st !! slug with
  | Some orgId =>
      if String.eqb orgId "" then public_json 404 (PublicError "NOT_FOUND")
      else match publicPages st !! orgId with
           | Some cfg =>
               match page_enabled cfg with
               | Some true => public_json 200 (PublicFound cfg orgId)
               | _ => public_json 404 (PublicError "NOT_PUBLIC")
               end
           | None => public_json 404 (PublicError "NOT_PUBLIC")
           end
  | None => public_json 404 (PublicError "NOT_FOUND")
  end.

(** A request to a page route. *)
Inductive PageRequest : Type :=
| PostSave (orgId : string)
           (req_enabled req_title req_about req_features req_links req_slug
              : JSON.value)
| PostGenerate (orgId : string).

Definition page_route (req : PageRequest) (st : Pages)
  : PublicResponse * Pages :=
  match req with
  | PostSave orgId e t a f l s => save orgId e t a f l s st
  | PostGenerate orgId => generate orgId st
  end.

(** The maps when the server starts. *)
Definition no_pages : Pages := mkPages ∅ ∅.

(** The slug index and the pages agree: an organisation's page has a
    non-empty slug, which the index maps to the organisation, and the
    index has no other entry. *)
Definition pages_agree (st : Pages) : Prop :=
  (∀ orgId page, publicPages st !! orgId = Some page →
     ∃ slug, page_slug page = Some slug ∧ slug ≠ ""
             ∧ slugToOrg st !! slug = Some orgId)
  ∧ (∀ slug orgId, slugToOrg st !! slug = Some orgId →
       ∃ page, publicPages st !! orgId = Some page
               ∧ page_slug page = Some slug).

(** No two dashes in a row. *)
Fixpoint no_dash_pair (s : string) : bool :=
  match s with
  | String.String a (String.String b _ as s') =>
      negb (Text.is_dash a && Text.is_dash b) && no_dash_pair s'
  | _ => true
  end.

(** [a-z0-9-] *)
Definition is_slug_or_dash (c : ascii) : bool :=
  Text.is_slug_char c || Text.is_dash c.

(** [slugToOrg] without the entry of the slug of an organisation's
    page. *)
Definition index_without (orgId : string) (st : Pages) : gmap string string :=
  match publicPages st !! orgId with
  | Some page =>
      match page_slug page with
      | Some slug => delete slug (slugToOrg st)
      | None => slugToOrg st
      end
  | None => slugToOrg st
  end.

(** The maps once [page], with slug [slug], is the page of [orgId]. *)
Definition assigned (orgId slug : string) (page : Page) (st : Pages) : Pages :=
  mkPages (<[orgId := page]> (publicPages st))
          (<[slug := orgId]> (index_without orgId st)).

(** ** Vocabulary of the properties of the user table *)

(** The user at index [i] has the id [u_(i+1)]. *)
Definition well_numbered (users : list User) : Prop :=
  ∀ i u, users !! i = Some u → id u = "u_" +:+ pretty (i + 1)%nat.

(** No two users have the same email after lower-casing. *)
Definition distinct_emails (users : list User) : Prop :=
  NoDup ((λ u, JS.toLowerCase (email u)) <$> users).

(** Two records that [login] cannot tell apart: they differ in
    [mfaTempSecret] and [resetToken] at most. *)
Definition same_login (u u' : User) : Prop :=
  id u = id u' ∧ name u = name u' ∧ email u = email u'
  ∧ passwordHash u = passwordHash u' ∧ mfaEnabled u = mfaEnabled u'
  ∧ mfaSecret u = mfaSecret u'.

Section LoginAs.

Context `{Bcrypt} `{Speakeasy} `{Jsonwebtoken}.
Variable JWT_SECRET : string.

(** What [login] answers once [find] has returned [u]. *)
Definition login_as (now : Z) (req_password req_mfa : JS.value) (u : User)
  : Response :=
  login JWT_SECRET now (JS.str (email u)) req_password req_mfa [u].

End LoginAs.

(** * [node-http/index.js], with the in-memory store

    The server without [REPLIT_DB_URL]: [dbSet] and [dbGet] work on the
    map [mem].  A handler takes the body as [JSON.parse] returns it, or
    the message of the error it throws. *)

(** [send(res, code, obj)] *)
Record Reply := send {
  code : Z;
  obj : JSON.value
}.

(** [{ ok: false, error }] *)
Definition failure (error : string) : JSON.value :=
  JSON.object [("ok", JSON.boolean false); ("error", JSON.str error)].

(** [notFound(res)] *)
Definition notFound : Reply := send 404 (failure "not_found").

(** [{ e2ee: true, payload, ts }] *)
Definition package (payload : string) (ts : Z) : JSON.value :=
  JSON.object [("e2ee", JSON.boolean true); ("payload", JSON.str payload);
               ("ts", JSON.number ts)].

(** [`e2ee:${channel}:last`], on the channel as a string *)
Definition channel_key (channel : string) : string :=
  "e2ee:" +:+ channel +:+ ":last".

Section NodeHttp.

(** [`${v}`], the string a template literal makes of a value *)
Variable ToString : JSON.value → string.

(** [JSON.stringify] *)
Variable JSON_stringify : JSON.value → string.

(** [JSON.parse]: the value, or the message of the SyntaxError *)
Variable JSON_parse : string → JSON.value + string.

(** [handleStore] once the body has arrived: [body] is
    [JSON.parse(raw || '{}')] and [ts] is [Date.now()]. *)
Definition handleStore (ts : Z) (body : JSON.value + string)
    (mem : gmap string string) : Reply * gmap string string :=
  match body with
  | inr message => (send 500 (failure message), mem)
  | inl data =>
      let data := JSON.or data (JSON.object []) in
      let channel := JSON.get data "channel" in
      let e2ee := JSON.get data "e2ee" in
      let payload := JSON.get data "payload" in
      match payload with
      | JSON.str text =>
          if negb (JSON.truthy channel) || negb (JSON.truthy e2ee)
          then (send 400 (failure
                  "expected { channel, e2ee:true, payload:string }"), mem)
          else
            let key := channel_key (ToString channel) in
            (send 200 (JSON.object [("ok", JSON.boolean true);
                                    ("ts", JSON.number ts)]),
             <[key := JSON_stringify (package text ts)]> mem)
      | _ => (send 400 (failure
                "expected { channel, e2ee:true, payload:string }"), mem)
      end
  end.

(** [handleGet]; [channel] is [url.searchParams.get('channel')]. *)
Definition handleGet (channel : option string) (mem : gmap string string)
  : Reply :=
  match channel with
  | None => send 400 (failure "missing channel")
  | Some channel =>
      if String.eqb channel "" then send 400 (failure "missing channel")
      else
        match mem !! channel_key channel with
        | None => notFound
        | Some val =>
            if String.eqb val "" then notFound
            else match JSON_parse val with
                 | inl obj => send 200 obj
                 | inr message => send 500 (failure message)
                 end
        end
  end.

(** Every value of [mem] is a package as [handleStore] writes it. *)
Definition packages_only (mem : gmap string string) : Prop :=
  ∀ key val, mem !! key = Some val →
    ∃ payload ts, val = JSON_stringify (package payload ts).

End NodeHttp.

(** * [worker.js], the Cloudflare Worker version

    The same two endpoints on a key-value namespace, [env.BOND_E2EE],
    which is a map from keys to texts here.  The key of a channel is the
    channel, trimmed. *)

Module Worker.

(** [cors(json(obj, status))] *)
Definition json (obj : JSON.value) (status : Z) : Reply := send status obj.

(** [{ e2ee, payload, ts }] *)
Definition record (e2ee : bool) (payload : JSON.value) (ts : Z)
  : JSON.value :=
  JSON.object [("e2ee", JSON.boolean e2ee); ("payload", payload);
               ("ts", JSON.number ts)].

(** [{ payload: raw, e2ee: true, ts: null }] *)
Definition unparsed (raw : string) : JSON.value :=
  JSON.object [("payload", JSON.str raw); ("e2ee", JSON.boolean true);
               ("ts", JSON.null)].

(** [safeJson(request)]; [body] is what [request.json()] returns, or the
    message of the error it throws. *)
Definition safeJson (body : JSON.value + string) : JSON.value :=
  match body with
  | inl data => data
  | inr _ => JSON.null
  end.

Section Worker.

Variable ToString : JSON.value → string.
Variable JSON_stringify : JSON.value → string.
Variable JSON_parse : string → JSON.value + string.

(** [safeParse(txt)] *)
Definition safeParse (txt : string) : JSON.value :=
  match JSON_parse txt with
  | inl v => v
  | inr _ => JSON.null
  end.

(** [handleStore(request, env)]; [ts] is [Date.now()]. *)
Definition handleStore (ts : Z) (body : JSON.value + string)
    (kv : gmap string string) : Reply * gmap string string :=
  let body := safeJson body in
  let channel :=
    Text.trim (ToString (JSON.or (JSON.get body "channel") (JSON.str ""))) in
  let payload := JSON.get body "payload" in
  let e2ee := JSON.truthy (JSON.get body "e2ee") in
  if String.eqb channel "" then (json (failure "missing_channel") 400, kv)
  else
    match payload with
    | JSON.undefined => (json (failure "missing_payload") 400, kv)
    | _ =>
        let record := record (Bool.eqb e2ee true) payload ts in
        (json (JSON.object [("ok", JSON.boolean true);
                            ("ts", JSON.number ts)]) 200,
         <[channel := JSON_stringify record]> kv)
    end.

(** [handleGet(url, env)]; [channel] is
    [url.searchParams.get("channel")]. *)
Definition handleGet (channel : option string) (kv : gmap string string)
  : Reply :=
  let channel := Text.trim (default "" channel) in
  if String.eqb channel "" then json (failure "missing_channel") 400
  else
    match kv !! channel with
    | None => json (failure "not_found") 404
    | Some raw =>
        if String.eqb raw "" then json (failure "not_found") 404
        else
          let parsed :=
            match safeParse raw with
            | JSON.null | JSON.undefined => unparsed raw
            | v => v
            end in
          json parsed 200
    end.

End Worker.

End Worker.

(** ** Reference text functions

    A string conversion, a [JSON.stringify] and a [JSON.parse] on
    [JSON.value], to run the handlers of [node-http/index.js] on.  The
    text has no white space; a string escapes the quote and the backslash
    and nothing else; and [undefined], for which [JSON.stringify] has no
    text, is written as [null]. *)

Module Wire.

Definition quote : ascii := "034"%char.
Definition backslash : ascii := "092"%char.

(** [`${v}`] *)
Fixpoint ToString (v : JSON.value) : string :=
  match v with
  | JSON.undefined => "undefined"
  | JSON.null => "null"
  | JSON.boolean b => if b then "true" else "false"
  | JSON.number n => Ref.string_of_Z n
  | JSON.str s => s
  | JSON.array items =>
      String.concat ","
        (map (λ item, match item with
                      | JSON.undefined | JSON.null => ""
                      | _ => ToString item
                      end) items)
  | JSON.object _ => "[object Object]"
  end.

(** The characters of a string literal and its closing quote, before
    [rest]. *)
Fixpoint literal_chars (s rest : string) : string :=
  match s with
  | EmptyString => String.String quote rest
  | String.String c r =>
      if Ascii.eqb c quote || Ascii.eqb c backslash
      then String.String backslash (String.String c (literal_chars r rest))
      else String.String c (literal_chars r rest)
  end.

Definition literal (s rest : string) : string :=
  String.String quote (literal_chars s rest).

(** The text of a value, before [rest]. *)
Fixpoint write (v : JSON.value) (rest : string) : string :=
  match v with
  | JSON.undefined | JSON.null => "null" +:+ rest
  | JSON.boolean b => (if b then "true" else "false") +:+ rest
  | JSON.number n => Ref.string_of_Z n +:+ rest
  | JSON.str s => literal s rest
  | JSON.array items =>
      String.String "["
        ((fix elements (l : list JSON.value) (first : bool) : string :=
            match l with
            | [] => String.String "]" rest
            | item :: l' =>
                let text := write item (elements l' false) in
                if first then text else String.String "," text
            end) items true)
  | JSON.object properties =>
      String.String "{"
        ((fix members (l : list (string * JSON.value)) (first : bool)
            : string :=
            match l with
            | [] => String.String "}" rest
            | (key, v) :: l' =>
                match v with
                | JSON.undefined => members l' first
                | _ =>
                    let text :=
                      literal key (String.String ":"
                                     (write v (members l' false))) in
                    if first then text else String.String "," text
                end
            end) properties true)
  end.

Definition JSON_stringify (v : JSON.value) : string := write v "".

(** Reads a string literal after its opening quote. *)
Fixpoint read_string (s : string) : option (string * string) :=
  match s with
  | EmptyString => None
  | String.String c r =>
      if Ascii.eqb c quote then Some (EmptyString, r)
      else if Ascii.eqb c backslash then
        match r with
        | EmptyString => None
        | String.String d r' =>
            if Ascii.eqb d quote || Ascii.eqb d backslash then
              match read_string r' with
              | Some (t, rest) => Some (String.String d t, rest)
              | None => None
              end
            else None
        end
      else
        match read_string r with
        | Some (t, rest) => Some (String.String c t, rest)
        | None => None
        end
  end.

Definition is_digit (c : ascii) : bool :=
  let n := N_of_ascii c in ((48 <=? n) && (n <=? 57))%N.

(** The digits at the front of a string, and what follows them. *)
Fixpoint digits (s : string) : string * string :=
  match s with
  | EmptyString => (EmptyString, EmptyString)
  | String.String c r =>
      if is_digit c
      then let '(d, rest) := digits r in (String.String c d, rest)
      else (EmptyString, s)
  end.

(** What follows a number in a text is not a digit. *)
Definition closes (rest : string) : Prop :=
  match rest with
  | EmptyString => True
  | String.String c _ => is_digit c = false
  end.

(** Reads an integer. *)
Definition read_number (s : string) : option (Z * string) :=
  let '(sign, r) :=
    match s with
    | String.String c r => if Ascii.eqb c "-" then ("-", r) else ("", s)
    | EmptyString => ("", s)
    end in
  let '(d, rest) := digits r in
  if String.eqb d "" then None
  else match Ref.Z_of_string (sign +:+ d) with
       | Some n => Some (n, rest)
       | None => None
       end.

(** [s] without [word] at its front. *)
Fixpoint after (word s : string) : option string :=
  match word, s with
  | EmptyString, _ => Some s
  | String.String a word', String.String b s' =>
      if Ascii.eqb a b then after word' s' else None
  | _, _ => None
  end.

(** A property before the ones that follow it in the text: a key that
    comes again keeps its place and takes the later value. *)
Definition define (key : string) (v : JSON.value)
    (later : list (string * JSON.value)) : list (string * JSON.value) :=
  let last :=
    if existsb (λ kv, String.eqb kv.1 key) later
    then JSON.lookup key later else v in
  (key, last) :: filter (λ kv, kv.1 ≠ key) later.

(** Reads a value, the elements of an array after ["["] or [","], the
    members of an object after ["{"] or [","]. *)
Fixpoint parse_value (fuel : nat) (s : string) {struct fuel}
  : option (JSON.value * string) :=
  match fuel with
  | O => None
  | S fuel =>
      match s with
      | EmptyString => None
      | String.String c r =>
          if Ascii.eqb c "[" then
            match after "]" r with
            | Some rest => Some (JSON.array [], rest)
            | None =>
                match parse_elements fuel r with
                | Some (items, rest) => Some (JSON.array items, rest)
                | None => None
                end
            end
          else if Ascii.eqb c "{" then
            match after "}" r with
            | Some rest => Some (JSON.object [], rest)
            | None =>
                match parse_members fuel r with
                | Some (properties, rest) =>
                    Some (JSON.object properties, rest)
                | None => None
                end
            end
          else if Ascii.eqb c quote then
            match read_string r with
            | Some (t, rest) => Some (JSON.str t, rest)
            | None => None
            end
          else if Ascii.eqb c "n" then
            match after "null" s with
            | Some rest => Some (JSON.null, rest)
            | None => None
            end
          else if Ascii.eqb c "t" then
            match after "true" s with
            | Some rest => Some (JSON.boolean true, rest)
            | None => None
            end
          else if Ascii.eqb c "f" then
            match after "false" s with
            | Some rest => Some (JSON.boolean false, rest)
            | None => None
            end
          else
            match read_number s with
            | Some (n, rest) => Some (JSON.number n, rest)
            | None => None
            end
      end
  end
with parse_elements (fuel : nat) (s : string) {struct fuel}
  : option (list JSON.value * string) :=
  match fuel with
  | O => None
  | S fuel =>
      match parse_value fuel s with
      | Some (v, String.String c r) =>
          if Ascii.eqb c "]" then Some ([v], r)
          else if Ascii.eqb c "," then
            match parse_elements fuel r with
            | Some (items, rest) => Some (v :: items, rest)
            | None => None
            end
          else None
      | _ => None
      end
  end
with parse_members (fuel : nat) (s : string) {struct fuel}
  : option (list (string * JSON.value) * string) :=
  match fuel with
  | O => None
  | S fuel =>
      match after (String.String quote "") s with
      | Some r =>
          match read_string r with
          | Some (key, String.String colon r) =>
              if Ascii.eqb colon ":" then
                match parse_value fuel r with
                | Some (v, String.String c r) =>
                    if Ascii.eqb c "}" then Some ([(key, v)], r)
                    else if Ascii.eqb c "," then
                      match parse_members fuel r with
                      | Some (properties, rest) =>
                          Some (define key v properties, rest)
                      | None => None
                      end
                    else None
                | _ => None
                end
              else None
          | _ => None
          end
      | None => None
      end
  end.

(** [JSON.parse]: the text is one value. *)
Definition JSON_parse (text : string) : JSON.value + string :=
  match parse_value (String.length text) text with
  | Some (v, EmptyString) => inl v
  | _ => inr "Unexpected token in JSON"
  end.

End Wire.

(** ** Sample data

    The page of an organisation and the seed user, for the worked
    requests. *)

Module Sample.

(** A link of a page. *)
Definition link : JSON.value :=
  JSON.object [("text", JSON.str "Donate");
               ("url", JSON.str "https://bondfire.netlify.app/donate")].

(** The page that the first save of [org_1] stores. *)
Definition page : Page :=
  mkPage (Some true) (Some "food-not-bombs") (Some "Food Not Bombs")
         (Some "Free meals") (Some [JSON.str "Kitchen"]) (Some [link]).

(** The maps once [org_1] has saved its page. *)
Definition saved : Pages := assigned "org_1" "food-not-bombs" page no_pages.

(** The seed user. *)
Definition user : User :=
  mkUser "u_1" "Test User" "test@bondfire.org"
         (@hashSync Ref.bcrypt "password123" 10 "c2VlZA") false
         JS.null JS.null JS.null.

(** The seed user with two-factor on. *)
Definition enrolled_user : User := enrolled (JS.str "JBSWY3DPEHPK3PXP") user.

(** An email with a letter above [z], in lower and in upper case: U+00E9
    and U+00C9. *)
Definition jose : string := "jos" +:+ String.String "233" "@x.org".
Definition JOSE : string := "JOS" +:+ String.String "201" "@X.ORG".

(** A text that is one no-break space, U+00A0. *)
Definition nbsp : string := String.String "160" "".

End Sample.

(** * Properties *)

(** ** JavaScript values *)

Lemma truthy_str s : JS.truthy (JS.str s) = true ↔ s ≠ "".
Proof.
  simpl. destruct (String.eqb_spec s ""); simpl; split; congruence.
Qed.

Lemma truthy_is_str v : JS.truthy v = true → ∃ s, v = JS.str s ∧ s ≠ "".
Proof.
  destruct v as [| |s]; simpl; try discriminate.
  intros Hs. exists s. split; [done|]. by apply truthy_str.
Qed.

Lemma falsy_or_empty v : JS.truthy v = false → JS.or v (JS.str "") = JS.str "".
Proof. unfold JS.or. by intros ->. Qed.

Lemma or_truthy v w : JS.truthy v = true → JS.or v w = v.
Proof. unfold JS.or. by intros ->. Qed.

Lemma String_or_str s : JS.String (JS.or (JS.str s) (JS.str "")) = s.
Proof.
  unfold JS.or. simpl. destruct (String.eqb_spec s ""); simpl; congruence.
Qed.

Lemma toLowerCase_empty s : JS.toLowerCase s = "" → s = "".
Proof. destruct s; simpl; [done | discriminate]. Qed.

Lemma slice_Bearer t : JS.slice ("Bearer " +:+ t) 7 = t.
Proof. reflexivity. Qed.

Lemma startsWith_Bearer t : JS.startsWith ("Bearer " +:+ t) "Bearer " = true.
Proof. unfold JS.startsWith. by destruct t. Qed.

(** ** Looking a user up *)

Section Lookup.

Context `{Bcrypt} `{Speakeasy} `{Jsonwebtoken}.

Lemma email_is_str e u :
  email_is (JS.str e) u ↔ JS.toLowerCase (email u) = JS.toLowerCase e.
Proof. unfold email_is. by rewrite String_or_str. Qed.

Lemma resetToken_is_str t u :
  resetToken_is (JS.str t) u ↔ resetToken u = JS.str t ∧ t ≠ "".
Proof.
  unfold resetToken_is, JS.strict_eq. split.
  - intros [Ht Heq%bool_decide_eq_true]%andb_true_iff.
    split; [done|]. rewrite Heq in Ht. by apply truthy_str.
  - intros [-> Ht]. apply andb_true_iff. split.
    + by apply truthy_str.
    + by apply bool_decide_eq_true.
Qed.

(** [find] on an email nobody has, in a table extended by a user who has
    it, returns the new user. *)
Lemma find_email_snoc e (l : list User) u :
  ¬ Exists (email_is e) l → email_is e u →
  list_find (email_is e) (l ++ [u])%list = Some (List.length l, u).
Proof.
  intros Hno Hu. apply list_find_Some. split_and!.
  - by rewrite lookup_app_r, Nat.sub_diag.
  - done.
  - intros j y Hj Hlt Hy. apply Hno, Exists_exists. exists y. split; [|done].
    rewrite lookup_app_l in Hj by done. by eapply list_elem_of_lookup_2.
Qed.

Lemma find_sole_holder t i u (l : list User) :
  l !! i = Some u → resetToken u = JS.str t → t ≠ "" → sole_holder t i l →
  list_find (resetToken_is (JS.str t)) l = Some (i, u).
Proof.
  intros Hi Hu Ht Hsole. apply list_find_Some. split_and!; [done| |].
  - by apply resetToken_is_str.
  - intros j y Hj Hlt [Hy _]%resetToken_is_str.
    specialize (Hsole j y Hj Hy). lia.
Qed.

Lemma find_consumed t i u (l : list User) :
  l !! i = Some u → resetToken u ≠ JS.str t → sole_holder t i l →
  list_find (resetToken_is (JS.str t)) l = None.
Proof.
  intros Hi Hu Hsole. apply list_find_None, Forall_lookup.
  intros j y Hj [Hy _]%resetToken_is_str.
  specialize (Hsole j y Hj Hy). subst j. congruence.
Qed.

Lemma sole_holder_insert t i u (l : list User) :
  sole_holder t i l → sole_holder t i (<[i := u]> l).
Proof.
  intros Hsole j v [(-> & _ & _)|[Hne Hj]]%list_lookup_insert_Some Hv;
    [done | by eapply Hsole].
Qed.

End Lookup.

(** ** The reference packages obey the contracts *)

Module RefLaws.
Import Ref.

Lemma unframe_frame s r : unframe (frame s +:+ r) = Some (s, r).
Proof.
  induction s as [|c s IH]; [done|].
  change (unframe (String.String "+" (String.String c (frame s +:+ r)))
          = Some (String.String c s, r)).
  cbn [unframe]. change (Ascii.eqb "+" ".") with false. cbn iota.
  by rewrite IH.
Qed.

Lemma frame_nonempty s r : frame s +:+ r ≠ "".
Proof. by destruct s. Qed.

Lemma Z_of_string_of_Z z : Z_of_string (string_of_Z z) = Some z.
Proof.
  unfold Z_of_string, string_of_Z. rewrite NilEmpty.isi. simpl.
  by rewrite DecimalZ.of_to.
Qed.

#[export] Instance bcrypt_laws : BcryptLaws.
Proof.
  split. intros s rounds salt. cbn [compareSync hashSync bcrypt].
  rewrite unframe_frame. apply String.eqb_refl.
Qed.

Lemma jwt_decode_sign c secret ttl now :
  jwt_decode (jwt_sign c secret ttl now)
  = Some (secret, c, now, now + ttl).
Proof.
  destruct c as [s e n]. unfold jwt_decode. cbn [jwt_sign jsonwebtoken].
  cbn [sub claim_email claim_name].
  replace (frame (string_of_Z (now + ttl)))
    with (frame (string_of_Z (now + ttl)) +:+ "").
  2:{ generalize (frame (string_of_Z (now + ttl))).
      intros x. induction x as [|a x IH]; [done|].
      change (String.String a (x +:+ "") = String.String a x).
      by rewrite IH. }
  repeat (rewrite unframe_frame; cbn [mbind option_bind]).
  rewrite !Z_of_string_of_Z. by cbn [mbind option_bind].
Qed.

#[export] Instance jsonwebtoken_laws : JsonwebtokenLaws.
Proof.
  split.
  - intros c secret ttl now. cbn [jwt_sign jsonwebtoken].
    apply frame_nonempty.
  - intros c secret ttl now now' Hlt. cbn [jwt_verify jsonwebtoken].
    rewrite jwt_decode_sign, String.eqb_refl. simpl.
    by rewrite (proj2 (Z.leb_gt _ _)).
  - intros c secret ttl now now' Hle. cbn [jwt_verify jsonwebtoken].
    rewrite jwt_decode_sign, String.eqb_refl. simpl.
    by rewrite (proj2 (Z.leb_le _ _)).
  - intros c secret secret' ttl now now' Hne. cbn [jwt_verify jsonwebtoken].
    rewrite jwt_decode_sign.
    by rewrite (proj2 (String.eqb_neq _ _)).
Qed.

End RefLaws.

(** ** Login and registration *)

Section Accounts.

Context `{Bcrypt} `{Speakeasy} `{Jsonwebtoken}.
Variable JWT_SECRET : string.

Lemma or_empty_is_str v :
  JS.or v (JS.str "") = JS.str (JS.String (JS.or v (JS.str ""))).
Proof. by destruct v as [| |[|c s]]. Qed.

Lemma register_fresh now salt (n e p : string) (users : list User) :
  n ≠ "" → e ≠ "" → p ≠ "" → ¬ Exists (email_is (JS.str e)) users →
  register JWT_SECRET now salt (JS.str n) (JS.str e) (JS.str p) users
  = (json 201 (TokenUser
                 (generateToken JWT_SECRET now (new_user salt n e p users))
                 (id (new_user salt n e p users)) n e),
     (users ++ [new_user salt n e p users])%list).
Proof.
  intros Hn He Hp Hfresh. unfold register.
  rewrite !(proj2 (truthy_str _)) by done.
  rewrite (bool_decide_eq_false_2 _ Hfresh).
  reflexivity.
Qed.

Lemma register_outcome now salt n e p (users : list User) r users' :
  register JWT_SECRET now salt n e p users = (r, users') →
  status r = 201 →
  ∃ sn se sp, n = JS.str sn ∧ e = JS.str se ∧ p = JS.str sp ∧ se ≠ ""
    ∧ users' = (users ++ [new_user salt sn se sp users])%list.
Proof.
  unfold register. intros Hreg Hst.
  destruct (JS.truthy n) eqn:Hn;
    [|simpl in Hreg; injection Hreg as <- <-; discriminate].
  destruct (JS.truthy e) eqn:He;
    [|simpl in Hreg; injection Hreg as <- <-; discriminate].
  destruct (JS.truthy p) eqn:Hp;
    [|simpl in Hreg; injection Hreg as <- <-; discriminate].
  destruct (bool_decide (Exists (email_is e) users));
    [simpl in Hreg; injection Hreg as <- <-; discriminate|].
  apply truthy_is_str in Hn as (sn & -> & _).
  apply truthy_is_str in He as (se & -> & Hse).
  apply truthy_is_str in Hp as (sp & -> & _).
  simpl in Hreg. injection Hreg as <- <-. by exists sn, se, sp.
Qed.

(** C3: a login whose email matches no user and a login whose password
    does not verify against the hash of the user [find] returns both
    get the response [InvalidCredentials], 401 with the message
    "Invalid email or password". *)
Theorem login_invalid_credentials now req_email req_password req_mfa
    (users : list User) :
  (¬ Exists (email_is req_email) users →
   login JWT_SECRET now req_email req_password req_mfa users
   = InvalidCredentials)
  ∧ (∀ i user,
       list_find (email_is req_email) users = Some (i, user) →
       compareSync (JS.String (JS.or req_password (JS.str "")))
                   (passwordHash user) = false →
       login JWT_SECRET now req_email req_password req_mfa users
       = InvalidCredentials).
Proof.
  split.
  - intros Hno. unfold login.
    assert (list_find (email_is req_email) users = None) as ->; [|done].
    apply list_find_None, Forall_forall. intros u Hu Hmatch.
    apply Hno, Exists_exists. eauto.
  - intros i user Hfind Hcmp. unfold login. rewrite Hfind.
    rewrite or_empty_is_str. simpl. by rewrite Hcmp.
Qed.

(** C5: with non-empty name, email and password and an email that no
    user has after lower-casing, [register] answers 201 with a token and
    appends the user, and a login on the resulting table with that
    email and password answers 200 with a token. *)
Theorem register_then_login `{!BcryptLaws} now now' salt (n e p : string)
    req_mfa (users : list User) :
  n ≠ "" → e ≠ "" → p ≠ "" → ¬ Exists (email_is (JS.str e)) users →
  let user := new_user salt n e p users in
  let registered :=
    register JWT_SECRET now salt (JS.str n) (JS.str e) (JS.str p) users in
  registered
  = (json 201 (TokenUser (generateToken JWT_SECRET now user) (id user) n e),
     (users ++ [user])%list)
  ∧ login JWT_SECRET now' (JS.str e) (JS.str p) req_mfa (snd registered)
    = json 200 (TokenUser (generateToken JWT_SECRET now' user) (id user) n e).
Proof.
  intros Hn He Hp Hfresh user registered. subst registered user.
  rewrite register_fresh by done. split; [done|].
  unfold login. cbn [snd].
  rewrite (find_email_snoc (JS.str e) users _ Hfresh)
    by by apply email_is_str.
  rewrite or_truthy by by apply truthy_str.
  simpl. by rewrite compareSync_hashSync.
Qed.

End Accounts.

(** ** Two-factor enrolment *)

Section Enrolment.

Context `{Bcrypt} `{Speakeasy} `{Jsonwebtoken}.
Variable JWT_SECRET : string.

Lemma mfa_verify_cases now sub req_token req_secret (users : list User) :
  let out := mfa_verify now sub req_token req_secret users in
  (status (fst out) ≠ 200 ∧ snd out = users)
  ∨ ∃ i user s,
      list_find (id_is sub) users = Some (i, user)
      ∧ JS.truthy req_token = true
      ∧ JS.or req_secret (mfaTempSecret user) = JS.str s ∧ s ≠ ""
      ∧ totp_verify s (JS.String req_token) 1 now = true
      ∧ out = (json 200 OkTrue, <[i := enrolled (JS.str s) user]> users).
Proof.
  unfold mfa_verify.
  destruct (list_find (id_is sub) users) as [[i user]|] eqn:Hfind;
    [|by left].
  cbn [found mbind Handler_bind].
  destruct (JS.truthy req_token) eqn:Htok; [|by left].
  destruct (JS.truthy (JS.or req_secret (mfaTempSecret user))) eqn:Hb32;
    [|by left].
  apply truthy_is_str in Hb32 as (s & Hs & Hne). rewrite Hs.
  cbn [negb orb return_if mbind Handler_bind speakeasy_totp_verify try found].
  destruct (totp_verify s (JS.String req_token) 1 now) eqn:Hok; [|by left].
  right. exists i, user, s. by rewrite Hs.
Qed.

(** C1, amended: in an [mfa_verify] call with a non-empty [secret] in
    the body, the answer is [{ ok: true }] only if the submitted code
    is non-empty and verifies against that secret (whatever the pending
    secret is); the table is unchanged otherwise; and on
    [{ ok: true }] the user's [mfaSecret] is the supplied secret,
    [mfaEnabled] is true and [mfaTempSecret] is null. *)
Theorem mfa_verify_supplied_secret now sub req_token (secret : string)
    (users : list User) :
  secret ≠ "" →
  let out := mfa_verify now sub req_token (JS.str secret) users in
  (fst out = json 200 OkTrue →
     JS.truthy req_token = true
     ∧ totp_verify secret (JS.String req_token) 1 now = true
     ∧ ∃ i user user',
         list_find (id_is sub) users = Some (i, user)
         ∧ snd out = <[i := user']> users
         ∧ mfaSecret user' = JS.str secret
         ∧ mfaEnabled user' = true
         ∧ mfaTempSecret user' = JS.null)
  ∧ (fst out ≠ json 200 OkTrue → snd out = users)
  ∧ (∀ i user,
       list_find (id_is sub) users = Some (i, user) →
       JS.truthy req_token = true →
       totp_verify secret (JS.String req_token) 1 now = true →
       fst out = json 200 OkTrue).
Proof.
  intros Hne out. subst out.
  pose proof (mfa_verify_cases now sub req_token (JS.str secret) users) as Hc.
  cbv zeta in Hc.
  destruct Hc
    as [[Hst Hsame]|(i & user & s & Hfind & Htok & Hs & _ & Hok & Hout)].
  - split_and!.
    + intros Hr. rewrite Hr in Hst. by destruct Hst.
    + done.
    + intros i user Hfind Htok Hok. exfalso. apply Hst.
      unfold mfa_verify. rewrite Hfind. cbn [found mbind Handler_bind].
      rewrite or_truthy by by apply truthy_str.
      rewrite Htok, (proj2 (truthy_str _) Hne).
      cbn [negb orb return_if mbind Handler_bind speakeasy_totp_verify try found].
      by rewrite Hok.
  - rewrite or_truthy in Hs by by apply truthy_str.
    injection Hs as <-. rewrite Hout. split_and!; [|done|done].
    intros _. split_and!; [done..|].
    by exists i, user, (enrolled (JS.str secret) user).
Qed.

(** C6, amended: for a user [find] returns whose password verifies,
    whose [mfaEnabled] is true and whose [mfaSecret] is [secret]: a
    login with an absent, null or empty [mfa] fails with [MfaRequired];
    with a non-empty [mfa] that [speakeasy.totp.verify] rejects for
    [secret] at window 1 it fails with [InvalidMfaCode]; with a
    non-empty [mfa] that it accepts the login answers 200 with a
    token. *)
Theorem login_mfa now req_email req_password req_mfa (users : list User)
    i user secret :
  list_find (email_is req_email) users = Some (i, user) →
  compareSync (JS.String (JS.or req_password (JS.str "")))
              (passwordHash user) = true →
  mfaEnabled user = true →
  mfaSecret user = JS.str secret →
  let response := login JWT_SECRET now req_email req_password req_mfa users in
  (JS.truthy req_mfa = false → response = MfaRequired)
  ∧ (JS.truthy req_mfa = true →
     totp_verify secret (JS.String req_mfa) 1 now = false →
     response = InvalidMfaCode)
  ∧ (JS.truthy req_mfa = true →
     totp_verify secret (JS.String req_mfa) 1 now = true →
     response = json 200 (TokenUser (generateToken JWT_SECRET now user)
                                    (id user) (name user) (email user))).
Proof.
  intros Hfind Hpw Hen Hsec response. subst response. unfold login.
  rewrite Hfind, or_empty_is_str. cbn [found mbind Handler_bind].
  cbn [bcrypt_compareSync try found mbind Handler_bind].
  rewrite Hpw, Hen, Hsec.
  cbn [negb return_if mbind Handler_bind speakeasy_totp_verify try found].
  split_and!.
  - by intros ->.
  - by intros -> ->.
  - by intros -> ->.
Qed.

(** The routes keep the invariant on every record. *)
Lemma mfa_consistent_insert (users : list User) i u :
  Forall mfa_consistent users → mfa_consistent u →
  Forall mfa_consistent (<[i := u]> users).
Proof. intros Hall Hu. by apply Forall_insert. Qed.

Lemma mfa_consistent_found P `{∀ u, Decision (P u)} (users : list User) i u :
  Forall mfa_consistent users → list_find P users = Some (i, u) →
  mfa_consistent u.
Proof.
  intros Hall (Hi & _)%list_find_Some.
  by eapply (proj1 (Forall_lookup _ _) Hall).
Qed.

Lemma route_keeps (req : Request) (users : list User) :
  Forall mfa_consistent users →
  Forall mfa_consistent (snd (route JWT_SECRET req users)).
Proof.
  intros Hall.
  destruct req as [now e p m|now salt n e p|r1 r2 e|salt t p
                  |entropy uid|now uid t s|uid]; cbn [route snd].
  - done.
  - unfold register.
    destruct (negb (JS.truthy n) || negb (JS.truthy e)
              || negb (JS.truthy p)); [done|].
    destruct (bool_decide _); [done|].
    destruct p as [| |pw]; [done..|].
    cbn. apply Forall_app. split; [done|].
    apply Forall_singleton. by split.
  - unfold forgot_password.
    destruct (list_find _ users) as [[i u]|] eqn:Hfind; [|done].
    apply mfa_consistent_insert; [done|].
    by apply (mfa_consistent_found _ _ _ _ Hall Hfind).
  - unfold reset_password.
    destruct (list_find _ users) as [[i u]|] eqn:Hfind; [|done].
    rewrite or_empty_is_str. cbn.
    apply mfa_consistent_insert; [done|].
    by apply (mfa_consistent_found _ _ _ _ Hall Hfind).
  - unfold mfa_setup.
    destruct (list_find _ users) as [[i u]|] eqn:Hfind; [|done].
    cbn. apply mfa_consistent_insert; [done|].
    by apply (mfa_consistent_found _ _ _ _ Hall Hfind).
  - pose proof (mfa_verify_cases now uid t s users) as Hc.
    cbv zeta in Hc.
    destruct Hc as [[_ ->]|(i & u & s' & _ & _ & _ & _ & _ & ->)]; [done|].
    cbn [snd]. apply mfa_consistent_insert; [done|]. by split.
  - unfold mfa_disable.
    destruct (list_find _ users) as [[i u]|] eqn:Hfind; [|done].
    cbn. apply mfa_consistent_insert; [done|]. by split.
Qed.

Lemma users_mfa_consistent salt : Forall mfa_consistent (users salt).
Proof. apply Forall_singleton. by split. Qed.

Lemma run_keeps (reqs : list Request) (users : list User) :
  Forall mfa_consistent users →
  Forall mfa_consistent (run JWT_SECRET reqs users).
Proof.
  revert users. induction reqs as [|req reqs IH]; intros users Hall; [done|].
  cbn [run]. by apply IH, route_keeps.
Qed.

(** C7: every route keeps, on every record of the table, [mfaSecret]
    non-null exactly when [mfaEnabled] is true; so every table that
    requests lead to from the seed table has the property. *)
Theorem route_mfa_consistent (req : Request) (table : list User)
    (salt : string) (reqs : list Request) :
  (Forall mfa_consistent table →
   Forall mfa_consistent (snd (route JWT_SECRET req table)))
  ∧ Forall mfa_consistent (run JWT_SECRET reqs (users salt)).
Proof.
  split.
  - apply route_keeps.
  - apply run_keeps, users_mfa_consistent.
Qed.

End Enrolment.

(** ** Registered emails stay *)

Section Duplicates.

Context `{Bcrypt} `{Speakeasy} `{Jsonwebtoken}.
Variable JWT_SECRET : string.

Lemma emails_insert P `{∀ u, Decision (P u)} (users : list User) i u u' :
  list_find P users = Some (i, u) → email u' = email u →
  email <$> <[i := u']> users = email <$> users.
Proof.
  intros (Hi & _)%list_find_Some Heq.
  rewrite list_fmap_insert, Heq. apply list_insert_id.
  by rewrite list_lookup_fmap, Hi.
Qed.

(** No route removes a user or changes an email: the emails of the table
    a request leaves start with the emails it found. *)
Lemma route_emails (req : Request) (users : list User) :
  (email <$> users) `prefix_of` (email <$> snd (route JWT_SECRET req users)).
Proof.
  destruct req as [now e p m|now salt n e p|r1 r2 e|salt t p
                  |entropy uid|now uid t s|uid]; cbn [route snd].
  - done.
  - unfold register.
    destruct (negb (JS.truthy n) || negb (JS.truthy e)
              || negb (JS.truthy p)); [done|].
    destruct (bool_decide _); [done|].
    destruct p as [| |pw]; [done..|].
    cbn. rewrite fmap_app. by apply prefix_app_r.
  - unfold forgot_password.
    destruct (list_find _ users) as [[i u]|] eqn:Hfind; [|done].
    cbn [snd]. by erewrite emails_insert.
  - unfold reset_password.
    destruct (list_find _ users) as [[i u]|] eqn:Hfind; [|done].
    rewrite or_empty_is_str. cbn. by erewrite emails_insert.
  - unfold mfa_setup.
    destruct (list_find _ users) as [[i u]|] eqn:Hfind; [|done].
    cbn. by erewrite emails_insert.
  - pose proof (mfa_verify_cases now uid t s users) as Hc.
    cbv zeta in Hc.
    destruct Hc as [[_ ->]|(i & u & s' & Hfind & _ & _ & _ & _ & ->)]; [done|].
    cbn [snd]. by erewrite emails_insert.
  - unfold mfa_disable.
    destruct (list_find _ users) as [[i u]|] eqn:Hfind; [|done].
    cbn. by erewrite emails_insert.
Qed.

Lemma run_emails (reqs : list Request) (users : list User) :
  (email <$> users) `prefix_of` (email <$> run JWT_SECRET reqs users).
Proof.
  revert users. induction reqs as [|req reqs IH]; intros users; [done|].
  cbn [run]. etrans; [apply route_emails | apply IH].
Qed.

Lemma email_is_stays e (users users' : list User) :
  (email <$> users) `prefix_of` (email <$> users') →
  Exists (email_is e) users → Exists (email_is e) users'.
Proof.
  intros [tail Htail] (u & Hu & He)%Exists_exists.
  assert (email u ∈ email <$> users') as Hin.
  { rewrite Htail. apply elem_of_app. left. by apply list_elem_of_fmap_2. }
  apply list_elem_of_fmap in Hin as (u' & Heq & Hu').
  apply Exists_exists. exists u'. split; [done|].
  unfold email_is in *. by rewrite <- Heq.
Qed.

(** C4, amended: when a [register] call has answered 201, a later call
    (any requests in between) whose email is equal to the first one's
    after lower-casing adds no user; it fails with [DuplicateEmail] when
    its name and password are non-empty, and with [ValidationError]
    otherwise. *)
Theorem register_duplicate now1 salt1 now2 salt2 n1 p1 n2 p2
    (e1 e2 : string) (users : list User) r1 users1 (between : list Request) :
  register JWT_SECRET now1 salt1 n1 (JS.str e1) p1 users = (r1, users1) →
  status r1 = 201 →
  JS.toLowerCase e1 = JS.toLowerCase e2 →
  let table := run JWT_SECRET between users1 in
  register JWT_SECRET now2 salt2 n2 (JS.str e2) p2 table
  = (if JS.truthy n2 && JS.truthy p2 then DuplicateEmail
     else ValidationError,
     table).
Proof.
  intros Hreg Hst Hlow table.
  destruct (register_outcome _ _ _ _ _ _ _ _ _ Hreg Hst)
    as (sn & se & sp & -> & [= <-] & -> & He1 & ->).
  assert (JS.truthy (JS.str e2) = true) as He2.
  { apply truthy_str. intros ->. apply He1, toLowerCase_empty.
    by rewrite Hlow. }
  unfold register. rewrite He2.
  destruct (JS.truthy n2); [|done]. destruct (JS.truthy p2); [|done].
  rewrite bool_decide_eq_true_2; [done|].
  apply (email_is_stays _ _ _ (run_emails between _)).
  apply Exists_exists. exists (new_user salt1 sn e1 sp users). split.
  - apply elem_of_app. right. by apply list_elem_of_singleton.
  - by apply email_is_str.
Qed.

End Duplicates.

(** ** Password reset *)

Section Reset.

Context `{Bcrypt} `{Speakeasy} `{Jsonwebtoken}.
Variable JWT_SECRET : string.

Lemma reset_password_found salt t req_newPassword (users : list User) i user :
  list_find (resetToken_is (JS.str t)) users = Some (i, user) →
  reset_password salt (JS.str t) req_newPassword users
  = (json 200 OkTrue, <[i := with_password salt req_newPassword user]> users).
Proof.
  intros Hfind. unfold reset_password. rewrite Hfind.
  by rewrite or_empty_is_str.
Qed.

(** A token that no user holds, once [forgot_password] has stored it, is
    held by the user it was stored on only. *)
Lemma forgot_password_sole_holder r1 r2 req_email (users : list User) i user :
  list_find (email_is req_email) users = Some (i, user) →
  Forall (λ u, resetToken u ≠ JS.str (r1 +:+ r2)) users →
  let users' := snd (forgot_password r1 r2 req_email users) in
  users' !! i = Some (set_resetToken (JS.str (r1 +:+ r2)) user)
  ∧ sole_holder (r1 +:+ r2) i users'.
Proof.
  intros Hfind Hfresh. unfold forgot_password. rewrite Hfind. cbn [snd].
  apply list_find_Some in Hfind as (Hi & _ & _). split.
  - apply list_lookup_insert_eq. by eapply lookup_lt_Some.
  - intros j v [(-> & _ & _)|[Hne Hj]]%list_lookup_insert_Some Hv; [done|].
    destruct (proj1 (Forall_lookup _ _) Hfresh j v Hj Hv).
Qed.

(** C2: for a user who holds the non-empty reset token [t], and is the
    only one to hold it, [reset_password] with [t] answers
    [{ ok: true }], stores the hash of the new password on that user and
    sets the user's [resetToken] to null; a second call with [t] on the
    resulting table fails with [InvalidToken] and leaves the table as
    it is. *)
Theorem reset_password_once salt salt' t req_newPassword req_newPassword'
    (users : list User) i user :
  users !! i = Some user →
  resetToken user = JS.str t →
  t ≠ "" →
  sole_holder t i users →
  let users' := <[i := with_password salt req_newPassword user]> users in
  reset_password salt (JS.str t) req_newPassword users
  = (json 200 OkTrue, users')
  ∧ passwordHash (with_password salt req_newPassword user)
    = hashSync (JS.String (JS.or req_newPassword (JS.str ""))) 10 salt
  ∧ resetToken (with_password salt req_newPassword user) = JS.null
  ∧ reset_password salt' (JS.str t) req_newPassword' users'
    = (InvalidToken, users').
Proof.
  intros Hi Htok Hne Hsole users'. subst users'. split_and!; [|done..|].
  - by apply reset_password_found, find_sole_holder.
  - unfold reset_password.
    rewrite (find_consumed t i (with_password salt req_newPassword user));
      [done| |done|by apply sole_holder_insert].
    apply list_lookup_insert_eq. by eapply lookup_lt_Some.
Qed.

(** C10: for a user who is the only holder of the non-empty reset token
    [t], [reset_password] with an absent, null or empty [newPassword]
    answers [{ ok: true }] and stores the hash of the empty string on
    that user, whereas [register] with such a password fails with
    [ValidationError] and adds no user. *)
Theorem reset_password_empty salt t req_newPassword (users : list User)
    i user :
  users !! i = Some user →
  resetToken user = JS.str t →
  t ≠ "" →
  sole_holder t i users →
  JS.truthy req_newPassword = false →
  reset_password salt (JS.str t) req_newPassword users
  = (json 200 OkTrue,
     <[i := set_resetToken JS.null
              (set_passwordHash (hashSync "" 10 salt) user)]> users)
  ∧ ∀ now salt' req_name req_email (table : list User),
      register JWT_SECRET now salt' req_name req_email req_newPassword table
      = (ValidationError, table).
Proof.
  intros Hi Htok Hne Hsole Hfalsy. split.
  - rewrite (reset_password_found salt t req_newPassword users i user)
      by by apply find_sole_holder.
    unfold with_password. by rewrite falsy_or_empty.
  - intros now salt' req_name req_email table. unfold register.
    rewrite Hfalsy. cbn [negb]. by rewrite !orb_true_r.
Qed.

End Reset.

(** ** Session tokens *)

Section Tokens.

Context `{Bcrypt} `{Speakeasy} `{Jsonwebtoken} `{!JsonwebtokenLaws}.
Variable JWT_SECRET : string.

(** The header [Bearer <token>] reaches [jwt.verify] as [token]. *)
Lemma authMiddleware_Bearer now token :
  token ≠ "" →
  authMiddleware JWT_SECRET now (JS.str ("Bearer " +:+ token))
  = match jwt_verify token JWT_SECRET now with
    | Decoded payload => Go payload
    | _ => Sent Unauthorized
    end.
Proof.
  intros Hne. unfold authMiddleware.
  rewrite String_or_str, startsWith_Bearer, slice_Bearer.
  rewrite (proj2 (truthy_str token) Hne).
  cbn [negb return_if mbind Handler_bind JS.String].
  by destruct (jwt_verify token JWT_SECRET now).
Qed.

(** C8: the token [generateToken] issues for a user, presented to
    [authMiddleware] with the same secret before it expires (at once in
    particular), is accepted, and the payload carries the user's id,
    email and name as [sub], [email] and [name]. *)
Theorem token_round_trip now now' (user : User) :
  now' < now + 3600 →
  authMiddleware JWT_SECRET now'
    (JS.str ("Bearer " +:+ generateToken JWT_SECRET now user))
  = Go (mkPayload (mkClaims (id user) (email user) (name user))
                  now (now + 3600)).
Proof.
  intros Hlt. rewrite authMiddleware_Bearer by apply jwt_sign_nonempty.
  unfold generateToken. by rewrite jwt_verify_sign.
Qed.

(** C9, amended: [authMiddleware] rejects a token of its own secret
    whose expiry has passed (one of [generateToken], 3600 seconds after
    issue, or one signed with any [expiresIn], a negative one included)
    and a token signed with another secret, and it answers both with the
    same response, 401 with the message "Invalid token"; so it does
    whichever of its two errors [jwt.verify] throws. *)
Theorem authMiddleware_rejects c secret ttl now now' (user : User) token :
  (now + 3600 ≤ now' →
   authMiddleware JWT_SECRET now'
     (JS.str ("Bearer " +:+ generateToken JWT_SECRET now user))
   = Sent Unauthorized)
  ∧ (now + ttl ≤ now' →
     authMiddleware JWT_SECRET now'
       (JS.str ("Bearer " +:+ jwt_sign c JWT_SECRET ttl now))
     = Sent Unauthorized)
  ∧ (secret ≠ JWT_SECRET →
     authMiddleware JWT_SECRET now'
       (JS.str ("Bearer " +:+ jwt_sign c secret ttl now))
     = Sent Unauthorized)
  ∧ (token ≠ "" →
     jwt_verify token JWT_SECRET now' = TokenExpiredError
     ∨ jwt_verify token JWT_SECRET now' = JsonWebTokenError →
     authMiddleware JWT_SECRET now' (JS.str ("Bearer " +:+ token))
     = Sent Unauthorized).
Proof.
  split_and!.
  - intros Hexp. rewrite authMiddleware_Bearer by apply jwt_sign_nonempty.
    unfold generateToken. by rewrite jwt_verify_expired.
  - intros Hexp. rewrite authMiddleware_Bearer by apply jwt_sign_nonempty.
    by rewrite jwt_verify_expired.
  - intros Hsec. rewrite authMiddleware_Bearer by apply jwt_sign_nonempty.
    by rewrite jwt_verify_other_secret.
  - intros Hne Hthrows. rewrite authMiddleware_Bearer by done.
    by destruct Hthrows as [-> | ->].
Qed.

End Tokens.


(** ** The properties on the reference packages *)

Section Worked.

Import Ref RefLaws.

(** Refutes a decidable proposition by evaluating its decision. *)
Ltac refute :=
  match goal with
  | |- ¬ ?P => apply (bool_decide_eq_false_1 P); vm_compute; reflexivity
  end.

(** [mfa_verify] with a secret other than the pending one, and a code
    that is valid for the supplied secret only, turns two-factor on with
    the supplied secret. *)
Lemma mfa_verify_other_secret_accepted :
  (∃ user, pending !! 0%nat = Some user
           ∧ id user = "u_1"
           ∧ mfaTempSecret user = JS.str "JBSWY3DPEHPK3PXP")
  ∧ totp_verify "JBSWY3DPEHPK3PXP" (totp "GEZDGNBVGY3TQOJQ" 33) 1 1000
    = false
  ∧ mfa_verify 1000 "u_1" (JS.str (totp "GEZDGNBVGY3TQOJQ" 33))
               (JS.str "GEZDGNBVGY3TQOJQ") pending
    = (json 200 OkTrue,
       [mkUser "u_1" "Test User" "test@bondfire.org"
               (hashSync "password123" 10 "c2VlZA") true
               (JS.str "GEZDGNBVGY3TQOJQ") JS.null JS.null]).
Proof.
  split_and!; [|by vm_compute..].
  eexists. by split_and!; [vm_compute; reflexivity|..].
Qed.

Lemma mfa_verify_supplied_secret_witness :
  JS.truthy (JS.str (totp "GEZDGNBVGY3TQOJQ" 33)) = true
  ∧ totp_verify "GEZDGNBVGY3TQOJQ" (totp "GEZDGNBVGY3TQOJQ" 33) 1 1000
    = true.
Proof.
  pose proof (mfa_verify_supplied_secret
                1000 "u_1" (JS.str (totp "GEZDGNBVGY3TQOJQ" 33))
                "GEZDGNBVGY3TQOJQ" pending) as Hthm.
  destruct Hthm as (Honly & _ & _); [discriminate|].
  destruct Honly as (Htok & Hok & _); [vm_compute; reflexivity|].
  exact (conj Htok Hok).
Defined.

Lemma reset_password_once_witness :
  reset_password "c2Fs" (JS.str "k3x9w2pq7m1z8d4v6n0s5t") (JS.str "n3w-pass")
                 requested
  = (json 200 OkTrue,
     [mkUser "u_1" "Test User" "test@bondfire.org"
             (hashSync "n3w-pass" 10 "c2Fs") false JS.null JS.null JS.null])
  ∧ reset_password "dDJu" (JS.str "k3x9w2pq7m1z8d4v6n0s5t") (JS.str "again")
      [mkUser "u_1" "Test User" "test@bondfire.org"
              (hashSync "n3w-pass" 10 "c2Fs") false JS.null JS.null JS.null]
    = (InvalidToken,
       [mkUser "u_1" "Test User" "test@bondfire.org"
               (hashSync "n3w-pass" 10 "c2Fs") false JS.null JS.null
               JS.null]).
Proof.
  pose proof (reset_password_once
                "c2Fs" "dDJu" "k3x9w2pq7m1z8d4v6n0s5t"
                (JS.str "n3w-pass") (JS.str "again") requested 0
                (set_resetToken (JS.str "k3x9w2pq7m1z8d4v6n0s5t")
                   (mkUser "u_1" "Test User" "test@bondfire.org"
                      (hashSync "password123" 10 "c2VlZA") false
                      JS.null JS.null JS.null))) as Hthm.
  destruct Hthm as (Hfirst & _ & _ & Hsecond).
  - reflexivity.
  - reflexivity.
  - discriminate.
  - apply (forgot_password_sole_holder
             "k3x9w2pq7m1" "z8d4v6n0s5t" (JS.str "Test@Bondfire.org") seed 0
             (mkUser "u_1" "Test User" "test@bondfire.org"
                (hashSync "password123" 10 "c2VlZA") false
                JS.null JS.null JS.null)).
    + vm_compute. reflexivity.
    + apply Forall_singleton. discriminate.
  - exact (conj Hfirst Hsecond).
Defined.

Lemma login_invalid_credentials_witness :
  login JWT_SECRET 1000 (JS.str "nobody@bondfire.org") (JS.str "password123")
        JS.undefined seed
  = InvalidCredentials
  ∧ login JWT_SECRET 1000 (JS.str "test@bondfire.org") (JS.str "password124")
          JS.undefined seed
    = InvalidCredentials.
Proof.
  split.
  - apply (login_invalid_credentials JWT_SECRET 1000
             (JS.str "nobody@bondfire.org") (JS.str "password123")
             JS.undefined seed).
    refute.
  - apply (proj2 (login_invalid_credentials JWT_SECRET 1000
                    (JS.str "test@bondfire.org") (JS.str "password124")
                    JS.undefined seed) 0%nat
                 (mkUser "u_1" "Test User" "test@bondfire.org"
                    (hashSync "password123" 10 "c2VlZA") false
                    JS.null JS.null JS.null)).
    + vm_compute. reflexivity.
    + vm_compute. reflexivity.
Defined.

(** A second registration with the first one's email in another case
    and an empty password fails with [ValidationError], not with
    [DuplicateEmail]. *)
Lemma register_duplicate_empty_password :
  let first :=
    register JWT_SECRET 1000 "c2Fs" (JS.str "Ann") (JS.str "ann@bondfire.org")
             (JS.str "hunter2") seed in
  status (fst first) = 201
  ∧ JS.toLowerCase "ann@bondfire.org" = JS.toLowerCase "Ann@Bondfire.org"
  ∧ fst (register JWT_SECRET 1001 "dDJu" (JS.str "Ann")
                  (JS.str "Ann@Bondfire.org") (JS.str "") (snd first))
    = ValidationError
  ∧ ValidationError ≠ DuplicateEmail.
Proof. by vm_compute. Qed.

Lemma register_duplicate_witness :
  let table :=
    run JWT_SECRET
        [PostForgotPassword "k3x9w2pq7m1" "z8d4v6n0s5t"
                            (JS.str Sample.JOSE)]
        (seed ++ [new_user "c2Fs" "Jos" Sample.jose "hunter2" seed]) in
  register JWT_SECRET 1001 "dDJu" (JS.str "Jos B") (JS.str Sample.JOSE)
           (JS.str "hunter3") table
  = (DuplicateEmail, table).
Proof.
  apply (register_duplicate JWT_SECRET 1000 "c2Fs" 1001 "dDJu"
           (JS.str "Jos") (JS.str "hunter2") (JS.str "Jos B")
           (JS.str "hunter3") Sample.jose Sample.JOSE seed
           (json 201 (TokenUser
                        (generateToken JWT_SECRET 1000
                           (new_user "c2Fs" "Jos" Sample.jose
                                     "hunter2" seed))
                        "u_2" "Jos" Sample.jose))).
  - vm_compute. reflexivity.
  - reflexivity.
  - vm_compute. reflexivity.
Defined.

Lemma register_then_login_witness :
  login JWT_SECRET 1005 (JS.str "ann@bondfire.org") (JS.str "hunter2")
        JS.undefined
        (snd (register JWT_SECRET 1000 "c2Fs" (JS.str "Ann")
                       (JS.str "ann@bondfire.org") (JS.str "hunter2") seed))
  = json 200 (TokenUser
                (generateToken JWT_SECRET 1005
                   (new_user "c2Fs" "Ann" "ann@bondfire.org" "hunter2" seed))
                "u_2" "Ann" "ann@bondfire.org").
Proof.
  apply (register_then_login JWT_SECRET 1000 1005 "c2Fs" "Ann"
           "ann@bondfire.org" "hunter2" JS.undefined seed).
  - discriminate.
  - discriminate.
  - discriminate.
  - refute.
Defined.

(** With two-factor on and the right password, a login whose [mfa] is
    the empty string, a code that does not verify, fails with
    [MfaRequired], not with [InvalidMfaCode]. *)
Lemma login_empty_mfa_is_required :
  (∃ user, list_find (email_is (JS.str "test@bondfire.org")) enabled
           = Some (0%nat, user)
           ∧ mfaEnabled user = true
           ∧ mfaSecret user = JS.str "JBSWY3DPEHPK3PXP"
           ∧ compareSync "password123" (passwordHash user) = true)
  ∧ totp_verify "JBSWY3DPEHPK3PXP" (JS.String (JS.str "")) 1 1000 = false
  ∧ login JWT_SECRET 1000 (JS.str "test@bondfire.org")
          (JS.str "password123") (JS.str "") enabled
    = MfaRequired
  ∧ MfaRequired ≠ InvalidMfaCode.
Proof.
  split_and!; [|by vm_compute..].
  eexists. by split_and!; [vm_compute; reflexivity|..].
Qed.

Lemma login_mfa_witness :
  login JWT_SECRET 1000 (JS.str "test@bondfire.org") (JS.str "password123")
        JS.undefined enabled
  = MfaRequired
  ∧ login JWT_SECRET 1000 (JS.str "test@bondfire.org")
          (JS.str "password123") (JS.str (totp "JBSWY3DPEHPK3PXP" 23))
          enabled
    = InvalidMfaCode
  ∧ login JWT_SECRET 1000 (JS.str "test@bondfire.org")
          (JS.str "password123") (JS.str (totp "JBSWY3DPEHPK3PXP" 34))
          enabled
    = json 200 (TokenUser
                  (generateToken JWT_SECRET 1000
                     (mkUser "u_1" "Test User" "test@bondfire.org"
                        (hashSync "password123" 10 "c2VlZA") true
                        (JS.str "JBSWY3DPEHPK3PXP") JS.null JS.null))
                  "u_1" "Test User" "test@bondfire.org").
Proof.
  pose (user := mkUser "u_1" "Test User" "test@bondfire.org"
                  (hashSync "password123" 10 "c2VlZA") true
                  (JS.str "JBSWY3DPEHPK3PXP") JS.null JS.null).
  split_and!.
  - apply (login_mfa JWT_SECRET 1000 (JS.str "test@bondfire.org")
             (JS.str "password123") JS.undefined enabled 0 user
             "JBSWY3DPEHPK3PXP"); vm_compute; reflexivity.
  - apply (login_mfa JWT_SECRET 1000 (JS.str "test@bondfire.org")
             (JS.str "password123") (JS.str (totp "JBSWY3DPEHPK3PXP" 23))
             enabled 0 user "JBSWY3DPEHPK3PXP"); vm_compute; reflexivity.
  - apply (login_mfa JWT_SECRET 1000 (JS.str "test@bondfire.org")
             (JS.str "password123") (JS.str (totp "JBSWY3DPEHPK3PXP" 34))
             enabled 0 user "JBSWY3DPEHPK3PXP"); vm_compute; reflexivity.
Defined.

Lemma route_mfa_consistent_witness :
  Forall mfa_consistent
    (snd (route JWT_SECRET
            (PostMfaVerify 1000 "u_1" (JS.str (totp "JBSWY3DPEHPK3PXP" 33))
                           JS.undefined)
            pending)).
Proof.
  apply (route_mfa_consistent JWT_SECRET
           (PostMfaVerify 1000 "u_1" (JS.str (totp "JBSWY3DPEHPK3PXP" 33))
                          JS.undefined)
           pending "c2VlZA" []).
  apply Forall_singleton. split; [intros Hnull; by destruct Hnull|discriminate].
Defined.

Lemma reset_password_empty_witness :
  reset_password "c2Fs" (JS.str "k3x9w2pq7m1z8d4v6n0s5t") JS.undefined
                 requested
  = (json 200 OkTrue,
     [mkUser "u_1" "Test User" "test@bondfire.org"
             (hashSync "" 10 "c2Fs") false JS.null JS.null JS.null])
  ∧ register JWT_SECRET 1000 "dDJu" (JS.str "Ann") (JS.str "ann@bondfire.org")
             JS.undefined requested
    = (ValidationError, requested).
Proof.
  pose proof (reset_password_empty JWT_SECRET
                "c2Fs" "k3x9w2pq7m1z8d4v6n0s5t" JS.undefined requested 0
                (set_resetToken (JS.str "k3x9w2pq7m1z8d4v6n0s5t")
                   (mkUser "u_1" "Test User" "test@bondfire.org"
                      (hashSync "password123" 10 "c2VlZA") false
                      JS.null JS.null JS.null))) as Hthm.
  destruct Hthm as (Hreset & Hregister).
  - reflexivity.
  - reflexivity.
  - discriminate.
  - intros [|j] v Hj Hv; [reflexivity | discriminate Hj].
  - reflexivity.
  - split; [exact Hreset|apply Hregister].
Defined.

Lemma token_round_trip_witness :
  authMiddleware JWT_SECRET 1000
    (JS.str ("Bearer " +:+ generateToken JWT_SECRET 1000 seed_user))
  = Go (mkPayload (mkClaims "u_1" "test@bondfire.org" "Test User")
                  1000 4600).
Proof.
  apply (token_round_trip JWT_SECRET 1000 1000 seed_user). reflexivity.
Defined.

(** An expired token and a token signed with another secret make
    [jwt.verify] throw two different errors, and [authMiddleware] answers
    both with one and the same response. *)
Lemma authMiddleware_same_response :
  jwt_verify (generateToken JWT_SECRET 1000 seed_user) JWT_SECRET 4600
  = TokenExpiredError
  ∧ jwt_verify (generateToken "another-secret" 1000 seed_user) JWT_SECRET 1000
    = JsonWebTokenError
  ∧ authMiddleware JWT_SECRET 4600
      (JS.str ("Bearer " +:+ generateToken JWT_SECRET 1000 seed_user))
    = authMiddleware JWT_SECRET 1000
        (JS.str ("Bearer " +:+ generateToken "another-secret" 1000 seed_user)).
Proof. by vm_compute. Qed.

Lemma authMiddleware_rejects_witness :
  authMiddleware JWT_SECRET 1000
    (JS.str ("Bearer " +:+
             jwt_sign (mkClaims "u_1" "test@bondfire.org" "Test User")
                      JWT_SECRET (-1) 1000))
  = Sent Unauthorized
  ∧ authMiddleware JWT_SECRET 1000
      (JS.str ("Bearer " +:+
               jwt_sign (mkClaims "u_1" "test@bondfire.org" "Test User")
                        "another-secret" (-1) 1000))
    = Sent Unauthorized.
Proof.
  pose proof (authMiddleware_rejects JWT_SECRET
                (mkClaims "u_1" "test@bondfire.org" "Test User")
                "another-secret" (-1) 1000 1000 seed_user "")
    as (_ & Hexpired & Hforged & _).
  split.
  - apply Hexpired. vm_compute. discriminate.
  - apply Hforged. discriminate.
Defined.

End Worked.

(** * Properties of the rest of [server.js] *)

(** ** Slugs *)

Section Slugs.

Implicit Types (s : string) (c : ascii) (p : ascii → bool).

Lemma chars_strip_start p s :
  ∃ dropped, Text.chars s = (dropped ++ Text.chars (Text.strip_start p s))%list
             ∧ Forall (λ c, p c = true) dropped.
Proof.
  induction s as [|c s (dropped & Heq & Hp)]; [by exists []|].
  cbn [Text.strip_start]. destruct (p c) eqn:Hc.
  - exists (c :: dropped). cbn [Text.chars]. rewrite Heq. by split; [|constructor].
  - by exists [].
Qed.

Lemma chars_strip_end p s :
  ∃ dropped, Text.chars s = (Text.chars (Text.strip_end p s) ++ dropped)%list
             ∧ Forall (λ c, p c = true) dropped.
Proof.
  induction s as [|c s (dropped & Heq & Hp)]; [by exists []|].
  cbn [Text.strip_end].
  destruct (p c) eqn:Hc; cbn [andb];
    [destruct (String.eqb_spec (Text.strip_end p s) "") as [Hr|Hr]|].
  - exists (c :: dropped). cbn [Text.chars]. rewrite Heq, Hr.
    by split; [|constructor].
  - exists dropped. cbn [Text.chars]. by rewrite Heq.
  - exists dropped. cbn [Text.chars]. by rewrite Heq.
Qed.

Lemma chars_take n s :
  Text.chars (Text.take n s) = firstn n (Text.chars s).
Proof.
  revert s. induction n as [|n IH]; intros [|c s]; cbn; [done..|].
  by rewrite IH.
Qed.

Lemma length_chars s : List.length (Text.chars s) = String.length s.
Proof. induction s as [|c s IH]; cbn; [done|by rewrite IH]. Qed.

Lemma chars_inj s t : Text.chars s = Text.chars t → s = t.
Proof.
  revert t. induction s as [|c s IH]; intros [|d t]; cbn; try done.
  intros [= -> Heq]. by rewrite (IH t).
Qed.

Lemma chars_dash_runs b s :
  Forall (λ c, is_slug_or_dash c = true) (Text.chars (Text.dash_runs b s)).
Proof.
  revert b. induction s as [|c s IH]; intros b; cbn; [constructor|].
  unfold is_slug_or_dash.
  destruct (Text.is_slug_char c) eqn:Hc.
  - cbn. constructor; [by rewrite Hc|apply IH].
  - destruct b; [apply IH|]. cbn. constructor; [done|apply IH].
Qed.

Lemma slug_char_not_dash c : Text.is_slug_char c = true → Text.is_dash c = false.
Proof.
  unfold Text.is_slug_char, Text.is_dash. intros Hc.
  destruct (Ascii.eqb_spec c "-") as [->|]; [discriminate Hc|done].
Qed.

Lemma no_dash_pair_cons c d r :
  no_dash_pair (String.String c (String.String d r))
  = negb (Text.is_dash c && Text.is_dash d) && no_dash_pair (String.String d r).
Proof. reflexivity. Qed.

Lemma no_dash_pair_tail c s : no_dash_pair (String.String c s) = true → no_dash_pair s = true.
Proof. destruct s as [|d s]; [done|]. cbn. by intros [_ ?]%andb_true_iff. Qed.

Lemma no_dash_pair_suffix (l : list ascii) s t :
  Text.chars s = (l ++ Text.chars t)%list → no_dash_pair s = true →
  no_dash_pair t = true.
Proof.
  revert s. induction l as [|c l IH]; intros s Heq Hs.
  - by rewrite <- (chars_inj s t Heq).
  - destruct s as [|d s]; [done|]. injection Heq as _ Heq.
    eapply IH; [done|]. by eapply no_dash_pair_tail.
Qed.

Lemma no_dash_pair_prefix (l : list ascii) s t :
  Text.chars s = (Text.chars t ++ l)%list → no_dash_pair s = true →
  no_dash_pair t = true.
Proof.
  revert s. induction t as [|c t IH]; intros s Heq Hs; [done|].
  destruct s as [|d s]; [done|]. injection Heq as Hd Heq. subst d.
  destruct t as [|e t]; [done|].
  destruct s as [|e' s]; [done|]. injection Heq as He Heq. subst e'.
  rewrite no_dash_pair_cons in Hs. apply andb_true_iff in Hs as [Hpair Hs].
  rewrite no_dash_pair_cons. apply andb_true_iff. split; [done|].
  eapply (IH (String.String e s)); [|done]. cbn. by rewrite Heq.
Qed.

(** What [replace(/[^a-z0-9]+/g, '-')] leaves has no two dashes in a row,
    and does not start with a dash when the text before was in a run. *)
Lemma dash_runs_tidy b s :
  no_dash_pair (Text.dash_runs b s) = true
  ∧ (b = true → ∀ r, Text.dash_runs b s ≠ String.String "-" r).
Proof.
  revert b. induction s as [|c s IH]; intros b; [done|].
  cbn [Text.dash_runs]. destruct (Text.is_slug_char c) eqn:Hc.
  - destruct (IH false) as [Hpair _]. split.
    + destruct (Text.dash_runs false s) as [|d r] eqn:Hr; [done|].
      by rewrite no_dash_pair_cons, (slug_char_not_dash c Hc), Hpair.
    + intros _ r [= -> _]. discriminate Hc.
  - destruct b; [apply IH|].
    destruct (IH true) as [Hpair Hhead]. split; [|done].
    destruct (Text.dash_runs true s) as [|d r] eqn:Hr; [done|].
    rewrite no_dash_pair_cons, Hpair, andb_true_r.
    unfold Text.is_dash at 2.
    destruct (Ascii.eqb_spec d "-") as [->|]; [|by rewrite andb_false_r].
    by destruct (Hhead eq_refl r).
Qed.

Lemma strip_start_head p s c r :
  Text.strip_start p s = String.String c r → p c = false.
Proof.
  induction s as [|d s IH]; [done|]. cbn.
  destruct (p d) eqn:Hd; [done|]. by intros [= <- _].
Qed.

Lemma strip_end_head p s c r :
  Text.strip_end p s = String.String c r → ∃ r', s = String.String c r'.
Proof.
  destruct s as [|d s]; [done|]. cbn.
  destruct (p d && _); [done|]. intros [= <- _]. eauto.
Qed.

Lemma take_head n s c r :
  Text.take n s = String.String c r → ∃ r', s = String.String c r'.
Proof. destruct n, s; cbn; try done. intros [= <- _]. eauto. Qed.

Lemma take_length_le n s : (String.length (Text.take n s) ≤ n)%nat.
Proof.
  revert s. induction n as [|n IH]; intros [|c s]; cbn; try lia.
  specialize (IH s). lia.
Qed.

(** The stages of [slug_of] after [dash_runs], on characters. *)
Lemma chars_slug_of s :
  ∃ before after,
    Text.chars (Text.dash_runs false (Text.trim (JS.toLowerCase s)))
    = (before ++ Text.chars (slug_of s) ++ after)%list.
Proof.
  unfold slug_of, Text.strip_dashes.
  set (t := Text.dash_runs false _).
  destruct (chars_strip_start Text.is_dash t) as (before & -> & _).
  set (u := Text.strip_start Text.is_dash t).
  destruct (chars_strip_end Text.is_dash u) as (after & -> & _).
  set (v := Text.strip_end Text.is_dash u).
  exists before, (skipn 48 (Text.chars v) ++ after)%list.
  rewrite chars_take. f_equal.
  by rewrite (app_assoc (firstn 48 _)), take_drop.
Qed.

(** The shape of a slug. *)
Lemma slug_of_parts s :
  (String.length (slug_of s) ≤ 48)%nat
  ∧ Forall (λ c, is_slug_or_dash c = true) (Text.chars (slug_of s))
  ∧ (∀ r, slug_of s ≠ String.String "-" r)
  ∧ no_dash_pair (slug_of s) = true.
Proof.
  split_and!.
  - apply take_length_le.
  - destruct (chars_slug_of s) as (before & after & Heq).
    pose proof (chars_dash_runs false (Text.trim (JS.toLowerCase s))) as Hall.
    rewrite Heq in Hall.
    by apply Forall_app in Hall as [_ [? _]%Forall_app].
  - intros r Hr. unfold slug_of in Hr.
    apply take_head in Hr as [r1 Hr]. unfold Text.strip_dashes in Hr.
    apply strip_end_head in Hr as [r2 Hr].
    by apply strip_start_head in Hr.
  - destruct (chars_slug_of s) as (before & after & Heq).
    destruct (dash_runs_tidy false (Text.trim (JS.toLowerCase s))) as [Hpair _].
    set (t := Text.dash_runs false _) in *.
    assert (∃ u, Text.chars u = (Text.chars (slug_of s) ++ after)%list)
      as [u Hu].
    { exists (string_of_list_ascii (Text.chars (slug_of s) ++ after)).
      generalize (Text.chars (slug_of s) ++ after)%list.
      intros l. induction l as [|c l IH]; cbn; [done|by rewrite IH]. }
    apply (no_dash_pair_prefix after u); [done|].
    apply (no_dash_pair_suffix before t); [by rewrite Hu|done].
Qed.

Lemma slug_or_dash_code c :
  is_slug_or_dash c = true →
  let n := N_of_ascii c in
  (97 ≤ n ≤ 122 ∨ 48 ≤ n ≤ 57 ∨ n = 45)%N.
Proof.
  unfold is_slug_or_dash, Text.is_slug_char, Text.is_dash. cbv zeta.
  intros [[[H1 H2]%andb_true_iff|[H1 H2]%andb_true_iff]%orb_true_iff
         |Hd%Ascii.eqb_eq]%orb_true_iff.
  - left. split; by apply N.leb_le.
  - right. left. split; by apply N.leb_le.
  - right. right. by subst c.
Qed.

Lemma lower_ascii_slug c : is_slug_or_dash c = true → JS.lower_ascii c = c.
Proof.
  intros Hc%slug_or_dash_code. cbv zeta in Hc. unfold JS.lower_ascii.
  destruct (N.leb_spec 65 (N_of_ascii c)), (N.leb_spec (N_of_ascii c) 90),
    (N.leb_spec 192 (N_of_ascii c)), (N.leb_spec (N_of_ascii c) 222);
    cbn [andb orb]; try done; lia.
Qed.

Lemma not_space_slug c : is_slug_or_dash c = true → Text.is_space c = false.
Proof.
  intros Hc%slug_or_dash_code. cbv zeta in Hc. unfold Text.is_space.
  destruct (N.leb_spec 9 (N_of_ascii c)), (N.leb_spec (N_of_ascii c) 13),
    (N.eqb_spec (N_of_ascii c) 32), (N.eqb_spec (N_of_ascii c) 160);
    cbn [andb orb]; try done; lia.
Qed.

Lemma toLowerCase_chars s :
  Text.chars (JS.toLowerCase s) = JS.lower_ascii <$> Text.chars s.
Proof. induction s as [|c s IH]; cbn; [done|by rewrite IH]. Qed.

Lemma last_char_chars s : Text.last_char s = last (Text.chars s).
Proof.
  induction s as [|c s IH]; [done|]. cbn [Text.last_char Text.chars].
  destruct s as [|d s]; [done|]. by rewrite IH.
Qed.

Lemma strip_start_id p s :
  (∀ c r, s = String.String c r → p c = false) → Text.strip_start p s = s.
Proof. destruct s as [|c s]; [done|]. intros Hp. cbn. by rewrite (Hp c s). Qed.

Lemma strip_end_id p s :
  (∀ c, Text.last_char s = Some c → p c = false) → Text.strip_end p s = s.
Proof.
  induction s as [|c s IH]; [done|]. intros Hp. cbn [Text.strip_end].
  destruct s as [|d s].
  - cbn. by rewrite (Hp c eq_refl).
  - rewrite IH by (intros e He; by apply Hp). by rewrite andb_false_r.
Qed.

Lemma last_char_strip_end p s c :
  Text.last_char (Text.strip_end p s) = Some c → p c = false.
Proof.
  induction s as [|d s IH]; [done|]. cbn [Text.strip_end].
  destruct (p d) eqn:Hd; cbn [andb].
  - destruct (String.eqb_spec (Text.strip_end p s) "") as [Hr|Hr]; [done|].
    destruct (Text.strip_end p s) as [|e r]; [done|]. apply IH.
  - destruct (Text.strip_end p s) as [|e r]; [by intros [= <-]|]. apply IH.
Qed.

Lemma take_all n s : (String.length s ≤ n)%nat → Text.take n s = s.
Proof.
  revert s. induction n as [|n IH]; intros [|c s]; cbn; try done; try lia.
  intros Hle. rewrite IH; [done|lia].
Qed.

Lemma take_short n s :
  (String.length (Text.take n s) < n)%nat → Text.take n s = s.
Proof.
  revert s. induction n as [|n IH]; intros [|c s]; cbn; try done; try lia.
  intros Hlt. rewrite IH; [done|lia].
Qed.

Lemma dash_runs_id b s :
  Forall (λ c, is_slug_or_dash c = true) (Text.chars s) →
  no_dash_pair s = true →
  (b = true → ∀ r, s ≠ String.String "-" r) →
  Text.dash_runs b s = s.
Proof.
  revert b. induction s as [|c s IH]; intros b Hall Hpair Hhead; [done|].
  cbn [Text.chars] in Hall. apply Forall_cons in Hall as [Hc Hall].
  cbn [Text.dash_runs]. destruct (Text.is_slug_char c) eqn:Hslug.
  - rewrite IH; [done|done|by eapply no_dash_pair_tail|done].
  - unfold is_slug_or_dash in Hc. rewrite Hslug in Hc. cbn in Hc.
    apply Ascii.eqb_eq in Hc as ->.
    destruct b; [by destruct (Hhead eq_refl s)|].
    rewrite IH; [done|done|by eapply no_dash_pair_tail|].
    intros _ r ->. by rewrite no_dash_pair_cons in Hpair.
Qed.

(** X1: The slug [slugify] makes of a string is at most 48 characters long,
    all of them in [a-z0-9-]; it does not start with a dash and has no two
    dashes in a row. *)
Theorem slug_of_shape s :
  (String.length (slug_of s) ≤ 48)%nat
  ∧ Forall (λ c, is_slug_or_dash c = true) (Text.chars (slug_of s))
  ∧ (∀ r, slug_of s ≠ String.String "-" r)
  ∧ no_dash_pair (slug_of s) = true.
Proof. exact (slug_of_parts s). Qed.

(** A string that has the shape of a slug is its own slug. *)
Lemma slug_of_fixed s :
  (String.length s ≤ 48)%nat →
  Forall (λ c, is_slug_or_dash c = true) (Text.chars s) →
  (∀ r, s ≠ String.String "-" r) →
  no_dash_pair s = true →
  Text.last_char s ≠ Some "-"%char →
  slug_of s = s.
Proof.
  intros Hlen Hall Hhead Hpair Hlast. unfold slug_of.
  assert (JS.toLowerCase s = s) as ->.
  { apply chars_inj. rewrite toLowerCase_chars.
    clear -Hall. induction Hall as [|c l Hc _ IH]; cbn; [done|].
    by rewrite (lower_ascii_slug c Hc), IH. }
  assert (Text.trim s = s) as ->.
  { unfold Text.trim. rewrite strip_start_id.
    - apply strip_end_id. intros c Hc. apply not_space_slug.
      rewrite last_char_chars in Hc. apply last_Some_elem_of in Hc.
      by eapply (proj1 (Forall_forall _ _) Hall).
    - intros c r ->. apply not_space_slug. by inversion Hall. }
  rewrite dash_runs_id by done.
  unfold Text.strip_dashes. rewrite strip_start_id.
  - rewrite strip_end_id; [by apply take_all|].
    intros c Hc. unfold Text.is_dash.
    destruct (Ascii.eqb_spec c "-") as [->|]; [done|done].
  - intros c r ->. unfold Text.is_dash.
    destruct (Ascii.eqb_spec c "-") as [->|]; [by destruct (Hhead r)|done].
Qed.

(** X2: A slug shorter than 48 characters does not end with a dash (one of
    48 characters can: [slice(0, 48)] comes last); and [slugify] leaves a
    slug that does not end with a dash as it is. *)
Theorem slug_of_idempotent s :
  ((String.length (slug_of s) < 48)%nat →
   Text.last_char (slug_of s) ≠ Some "-"%char)
  ∧ (Text.last_char (slug_of s) ≠ Some "-"%char →
     slug_of (slug_of s) = slug_of s).
Proof.
  split.
  - intros Hlt Hlast. unfold slug_of in Hlt, Hlast.
    rewrite (take_short _ _ Hlt) in Hlast.
    by apply last_char_strip_end in Hlast.
  - intros Hlast. destruct (slug_of_parts s) as (Hlen & Hall & Hhead & Hpair).
    by apply slug_of_fixed.
Qed.

Lemma slug_char_dash_runs b s c :
  c ∈ Text.chars s → Text.is_slug_char c = true →
  c ∈ Text.chars (Text.dash_runs b s).
Proof.
  revert b. induction s as [|d s IH]; intros b Hin Hc; [done|].
  cbn [Text.chars] in Hin. cbn [Text.dash_runs].
  apply elem_of_cons in Hin as [<-|Hin].
  - rewrite Hc. cbn. apply elem_of_cons. by left.
  - destruct (Text.is_slug_char d); [|destruct b]; cbn;
      rewrite ?elem_of_cons; auto.
Qed.

Lemma dash_runs_no_slug_char b s :
  Forall (λ c, Text.is_slug_char c = false) (Text.chars s) →
  Text.dash_runs b s = "" ∨ Text.dash_runs b s = "-".
Proof.
  revert b. induction s as [|c s IH]; intros b Hall; [by left|].
  cbn [Text.chars] in Hall. apply Forall_cons in Hall as [Hc Hall].
  cbn [Text.dash_runs]. rewrite Hc. destruct b; [by apply IH|].
  right. clear IH. induction s as [|d s IH]; [done|].
  cbn [Text.chars] in Hall. apply Forall_cons in Hall as [Hd Hall].
  cbn [Text.dash_runs]. rewrite Hd. by apply IH.
Qed.

Lemma slug_of_empty_inv s :
  slug_of s = "" →
  Forall (λ c, Text.is_slug_char (JS.lower_ascii c) = false) (Text.chars s).
Proof.
  intros Hempty. apply Forall_forall. intros c Hin.
  {
    destruct (Text.is_slug_char (JS.lower_ascii c)) eqn:Hc; [exfalso|done].
    assert (JS.lower_ascii c ∈ Text.chars (Text.trim (JS.toLowerCase s)))
      as Htrim.
    { unfold Text.trim.
      assert (JS.lower_ascii c ∈ Text.chars (JS.toLowerCase s)) as Hlow.
      { rewrite toLowerCase_chars. by apply list_elem_of_fmap_2. }
      destruct (chars_strip_start Text.is_space (JS.toLowerCase s))
        as (l1 & Heq1 & Hl1).
      rewrite Heq1 in Hlow. apply elem_of_app in Hlow as [Hlow|Hlow].
      { apply (proj1 (Forall_forall _ _) Hl1) in Hlow.
        rewrite not_space_slug in Hlow; [done|].
        unfold is_slug_or_dash. by rewrite Hc. }
      destruct (chars_strip_end Text.is_space
                  (Text.strip_start Text.is_space (JS.toLowerCase s)))
        as (l2 & Heq2 & Hl2).
      rewrite Heq2 in Hlow. apply elem_of_app in Hlow as [Hlow|Hlow]; [done|].
      apply (proj1 (Forall_forall _ _) Hl2) in Hlow.
      rewrite not_space_slug in Hlow; [done|].
      unfold is_slug_or_dash. by rewrite Hc. }
    apply (slug_char_dash_runs false) in Htrim; [|done].
    unfold slug_of, Text.strip_dashes in Hempty.
    set (t := Text.dash_runs false _) in *.
    destruct (chars_strip_start Text.is_dash t) as (l1 & Heq1 & Hl1).
    rewrite Heq1 in Htrim. apply elem_of_app in Htrim as [Htrim|Htrim].
    { apply (proj1 (Forall_forall _ _) Hl1) in Htrim.
      by rewrite (slug_char_not_dash _ Hc) in Htrim. }
    set (u := Text.strip_start Text.is_dash t) in *.
    destruct (chars_strip_end Text.is_dash u) as (l2 & Heq2 & Hl2).
    rewrite Heq2 in Htrim. apply elem_of_app in Htrim as [Htrim|Htrim].
    + destruct (Text.strip_end Text.is_dash u) as [|d r]; [by inversion Htrim|].
      discriminate Hempty.
    + apply (proj1 (Forall_forall _ _) Hl2) in Htrim.
      by rewrite (slug_char_not_dash _ Hc) in Htrim. }
Qed.

Lemma slug_of_letterless s :
  Forall (λ c, Text.is_slug_char (JS.lower_ascii c) = false) (Text.chars s) →
  slug_of s = "".
Proof.
  { intros Hall. unfold slug_of.
    assert (Forall (λ c, Text.is_slug_char c = false)
                   (Text.chars (Text.trim (JS.toLowerCase s)))) as Htrim.
    { assert (Forall (λ c, Text.is_slug_char c = false)
                     (Text.chars (JS.toLowerCase s))) as Hlow.
      { rewrite toLowerCase_chars. by apply Forall_fmap. }
      unfold Text.trim.
      destruct (chars_strip_start Text.is_space (JS.toLowerCase s))
        as (l1 & Heq1 & _).
      rewrite Heq1 in Hlow. apply Forall_app in Hlow as [_ Hlow].
      destruct (chars_strip_end Text.is_space
                  (Text.strip_start Text.is_space (JS.toLowerCase s)))
        as (l2 & Heq2 & _).
      rewrite Heq2 in Hlow. by apply Forall_app in Hlow as [Hlow _]. }
    by destruct (dash_runs_no_slug_char false _ Htrim) as [-> | ->]. }
Qed.

(** X3: [slugify] makes the empty slug exactly of the strings without a
    letter or a digit. *)
Theorem slug_of_empty s :
  slug_of s = ""
  ↔ Forall (λ c, Text.is_slug_char (JS.lower_ascii c) = false) (Text.chars s).
Proof. split; [apply slug_of_empty_inv | apply slug_of_letterless]. Qed.

End Slugs.

(** ** [uniqueSlug] *)

Section UniqueSlug.

Implicit Types (index : gmap string string) (base : string).

Lemma length_app s t :
  String.length (s +:+ t) = (String.length s + String.length t)%nat.
Proof.
  induction s as [|c s IH]; [done|].
  change (S (String.length (s +:+ t))
          = S (String.length s + String.length t)).
  by rewrite IH.
Qed.

Lemma candidate_inj base : Inj (=) (=) (candidate base).
Proof.
  assert (∀ j, candidate base 0 ≠ candidate base (S j)) as Hzero.
  { intros j. cbn [candidate]. destruct (String.eqb_spec base "") as [->|Hne].
    - discriminate.
    - intros Heq. apply (f_equal String.length) in Heq.
      rewrite !length_app in Heq. cbn in Heq. lia. }
  intros [|i] [|j] Heq; [done|by destruct (Hzero j)|by destruct (Hzero i)|].
  cbn [candidate] in Heq. apply (inj (String.append base)) in Heq.
  apply (inj (String.append "-")) in Heq. by apply (inj pretty) in Heq.
Qed.

(** More candidates than the index has keys are not all in the index. *)
Lemma candidates_taken index base n :
  (∀ j, (j < n)%nat → is_Some (index !! candidate base j)) →
  (n ≤ size index)%nat.
Proof.
  intros Htaken.
  pose proof (candidate_inj base) as Hinj.
  assert (NoDup (candidate base <$> seq 0 n)) as Hnodup.
  { apply (NoDup_fmap_2 _), NoDup_seq. }
  assert (list_to_set (C := gset string) (candidate base <$> seq 0 n)
          ⊆ dom index) as Hsub.
  { intros slug [j [-> Hj%elem_of_seq]]%elem_of_list_to_set%list_elem_of_fmap.
    apply elem_of_dom, Htaken. lia. }
  apply subseteq_size in Hsub.
  rewrite size_list_to_set, length_fmap, length_seq, size_dom in Hsub by done.
  done.
Qed.

Lemma uniqueSlug_loop_first_free index base fuel n :
  (∀ j, (j < n)%nat → is_Some (index !! candidate base j)) →
  (fuel + n = S (size index))%nat →
  ∃ m, uniqueSlug_loop index base fuel n (candidate base n) = candidate base m
       ∧ index !! candidate base m = None
       ∧ ∀ j, (j < m)%nat → is_Some (index !! candidate base j).
Proof.
  revert n. induction fuel as [|fuel IH]; intros n Htaken Hfuel.
  - apply candidates_taken in Htaken. lia.
  - cbn [uniqueSlug_loop]. case_bool_decide as Hn.
    + replace (base +:+ "-" +:+ pretty (n + 1)%nat)
        with (candidate base (n + 1)) by by rewrite Nat.add_1_r.
      apply IH; [|lia]. intros j Hj.
      destruct (decide (j = n)) as [->|]; [done|]. apply Htaken. lia.
    + exists n. split_and!; [done| |done].
      by apply eq_None_not_Some.
Qed.

Lemma uniqueSlug_candidate index base :
  ∃ n, uniqueSlug index base = candidate base n
       ∧ index !! candidate base n = None
       ∧ ∀ j, (j < n)%nat → is_Some (index !! candidate base j).
Proof.
  apply (uniqueSlug_loop_first_free index base (S (size index)) 0); lia.
Qed.

(** X4: [uniqueSlug] returns: its loop ends within one more test than the
    index has keys; what it returns is the first of [base || 'org'],
    [base-1], [base-2], ... that is not a key of the index. *)
Theorem uniqueSlug_first_free index base :
  ∃ n, (n ≤ size index)%nat
       ∧ uniqueSlug index base = candidate base n
       ∧ index !! candidate base n = None
       ∧ ∀ j, (j < n)%nat → is_Some (index !! candidate base j).
Proof.
  destruct (uniqueSlug_candidate index base) as (m & Heq & Hfree & Htaken).
  exists m. split_and!; [|done..]. by apply (candidates_taken index base).
Qed.

Lemma uniqueSlug_fresh index base : index !! uniqueSlug index base = None.
Proof.
  by destruct (uniqueSlug_candidate index base) as (n & -> & ? & _).
Qed.

Lemma uniqueSlug_nonempty index base : uniqueSlug index base ≠ "".
Proof.
  destruct (uniqueSlug_candidate index base) as (n & -> & _).
  destruct n as [|n]; cbn [candidate].
  - by destruct (String.eqb_spec base "").
  - intros Heq. apply (f_equal String.length) in Heq.
    rewrite !length_app in Heq. cbn in Heq. lia.
Qed.

Lemma uniqueSlug_free index base :
  base ≠ "" → index !! base = None → uniqueSlug index base = base.
Proof.
  intros Hne Hfree.
  destruct (uniqueSlug_candidate index base) as (n & -> & _ & Htaken).
  destruct n as [|n].
  - cbn. by destruct (String.eqb_spec base "").
  - destruct (Htaken 0%nat) as [org Horg]; [lia|]. cbn in Horg.
    destruct (String.eqb_spec base ""); [done|congruence].
Qed.

End UniqueSlug.

(** ** Public pages *)

Section PublicPages.

Implicit Types (st : Pages) (orgId slug : string) (page : Page).

Lemma slugify_of_option (o : option string) :
  slugify (JSON.of_option o) = Some (slug_of (default "" o)).
Proof. by destruct o as [[|c s]|]. Qed.

Lemma release_agree orgId st :
  pages_agree st →
  release (default empty_page (publicPages st !! orgId)) orgId st
  = (Value tt, mkPages (publicPages st) (index_without orgId st)).
Proof.
  intros [Hpage _]. unfold release, index_without.
  destruct (publicPages st !! orgId) as [page|] eqn:Hp;
    cbn [default Datatypes.id].
  - destruct (Hpage orgId page Hp) as (slug & Hslug & Hne & Hidx).
    rewrite Hslug.
    rewrite (proj2 (String.eqb_neq _ _) Hne), bool_decide_eq_true_2 by done.
    done.
  - cbn. by destruct st.
Qed.

Lemma generate_eq orgId st :
  pages_agree st →
  let prev := default empty_page (publicPages st !! orgId) in
  let base :=
    or_slug (slug_of (default "" (page_title prev)))
            (or_slug (slug_of orgId) "org") in
  let final := uniqueSlug (slugToOrg st) base in
  let saved :=
    mkPage (page_enabled prev) (Some final) (page_title prev)
           (page_about prev) (page_features prev) (page_links prev) in
  generate orgId st
  = (public_json 200 (PublicSaved saved), assigned orgId final saved st).
Proof.
  intros Hagree prev base final saved.
  unfold generate, finish_page.
  unfold mbind, PageRoute_bind, publicPages_get. fold prev.
  rewrite slugify_of_option. unfold throws, unique. fold base final.
  unfold prev at 1. by rewrite release_agree.
Qed.

(** The page [save] writes. *)
Lemma index_without_none orgId st :
  publicPages st !! orgId = None → index_without orgId st = slugToOrg st.
Proof. unfold index_without. by intros ->. Qed.

Lemma index_without_some orgId st page slug :
  publicPages st !! orgId = Some page → page_slug page = Some slug →
  index_without orgId st = delete slug (slugToOrg st).
Proof. unfold index_without. by intros -> ->. Qed.

Lemma trim_nonempty s : Text.trim s ≠ "" → s ≠ "".
Proof. by intros Hne ->. Qed.

(** [save] with a slug in the body. *)
Lemma save_slug orgId e t a f l s st :
  pages_agree st → Text.trim s ≠ "" →
  save orgId e t a f l (JSON.str s) st
  = if String.eqb (slug_of s) ""
    then (public_json 400 (PublicError "BAD_SLUG"), st)
    else
      let final := uniqueSlug (index_without orgId st) (slug_of s) in
      match trimmed t, trimmed a with
      | Some title, Some about =>
          let cleaned :=
            mkPage (Some (JSON.truthy e)) (Some final) (Some title)
                   (Some about) (Some (clean_features f))
                   (Some (clean_links l)) in
          (public_json 200 (PublicSaved cleaned),
           assigned orgId final cleaned st)
      | _, _ =>
          (public_json 500 PublicUncaught,
           mkPages (publicPages st)
                   (<[final := orgId]> (index_without orgId st)))
      end.
Proof.
  intros Hagree Htrim. unfold save, finish_page.
  unfold mbind, PageRoute_bind, publicPages_get.
  cbn [slug_given]. rewrite (proj2 (String.eqb_neq _ _) Htrim). cbn [negb].
  unfold slugify, JSON.or. cbn [JSON.truthy].
  rewrite (proj2 (String.eqb_neq _ _) (trim_nonempty s Htrim)).
  cbn [negb throws].
  destruct (String.eqb (slug_of s) ""); [by destruct st|].
  cbn [mret PageRoute_ret]. rewrite release_agree by done.
  unfold unique, slugToOrg_set. cbn [slugToOrg publicPages].
  destruct (trimmed t) as [title|]; [|done].
  cbn [throws]. by destruct (trimmed a) as [about|].
Qed.

(** [save] without a slug in the body, for an organisation that has no
    page. *)
Lemma save_first orgId e t a f l req_slug st :
  slug_given req_slug = false → publicPages st !! orgId = None →
  save orgId e t a f l req_slug st
  = match slugify t with
    | None => (public_json 500 PublicUncaught, st)
    | Some of_title =>
        let final :=
          uniqueSlug (slugToOrg st)
                     (or_slug of_title (or_slug (slug_of orgId) "org")) in
        match trimmed t, trimmed a with
        | Some title, Some about =>
            let cleaned :=
              mkPage (Some (JSON.truthy e)) (Some final) (Some title)
                     (Some about) (Some (clean_features f))
                     (Some (clean_links l)) in
            (public_json 200 (PublicSaved cleaned),
             assigned orgId final cleaned st)
        | _, _ =>
            (public_json 500 PublicUncaught,
             mkPages (publicPages st) (<[final := orgId]> (slugToOrg st)))
        end
    end.
Proof.
  intros Hgiven Hnone. unfold save, finish_page.
  unfold mbind, PageRoute_bind, publicPages_get.
  rewrite Hgiven, Hnone. cbn [default empty_page page_slug JSON.of_option
                              JSON.truthy negb].
  destruct (slugify t) as [of_title|]; cbn [throws]; [|by destruct st].
  unfold unique, slugToOrg_set, assigned. cbn [slugToOrg publicPages].
  rewrite (index_without_none orgId st Hnone).
  destruct (trimmed t) as [title|]; [|done].
  cbn [throws]. by destruct (trimmed a) as [about|].
Qed.

(** [save] without a slug in the body, for an organisation that has a
    page: the slug stays. *)
Lemma save_again orgId e t a f l req_slug st page slug :
  pages_agree st →
  slug_given req_slug = false → publicPages st !! orgId = Some page →
  page_slug page = Some slug →
  save orgId e t a f l req_slug st
  = match trimmed t, trimmed a with
    | Some title, Some about =>
        let cleaned :=
          mkPage (Some (JSON.truthy e)) (Some slug) (Some title)
                 (Some about) (Some (clean_features f))
                 (Some (clean_links l)) in
        (public_json 200 (PublicSaved cleaned),
         assigned orgId slug cleaned st)
    | _, _ => (public_json 500 PublicUncaught, st)
    end.
Proof.
  intros [Hpages _] Hgiven Hsome Hslug. unfold save, finish_page.
  unfold mbind, PageRoute_bind, publicPages_get.
  destruct (Hpages orgId page Hsome) as (slug' & Hslug' & Hne & Hidx).
  assert (slug' = slug) as -> by congruence.
  rewrite Hgiven, Hsome. cbn [default Datatypes.id]. rewrite Hslug.
  cbn [JSON.of_option JSON.truthy].
  rewrite (proj2 (String.eqb_neq _ _) Hne). cbn [negb mret PageRoute_ret].
  unfold assigned. rewrite (index_without_some orgId st page slug) by done.
  rewrite insert_delete_eq, insert_id by done.
  destruct (trimmed t) as [title|]; cbn [throws]; [|by destruct st].
  destruct (trimmed a) as [about|]; [done|by destruct st].
Qed.

(** What is left of the index without an organisation's slug: the
    entries of the other organisations. *)
Lemma index_without_lookup orgId st slug org :
  pages_agree st →
  index_without orgId st !! slug = Some org
  ↔ slugToOrg st !! slug = Some org ∧ org ≠ orgId.
Proof.
  intros [Hpages Hindex]. unfold index_without.
  destruct (publicPages st !! orgId) as [page|] eqn:Hp.
  - destruct (Hpages orgId page Hp) as (old & Hold & _ & Hidx).
    rewrite Hold, lookup_delete_Some. split.
    + intros [Hne Hslug]. split; [done|]. intros ->.
      destruct (Hindex slug orgId Hslug) as (page' & Hp' & Hslug').
      congruence.
    + intros [Hslug Hne]. split; [|done]. intros ->. congruence.
  - split; [|by intros [? _]]. intros Hslug. split; [done|]. intros ->.
    destruct (Hindex slug orgId Hslug) as (page' & Hp' & _). congruence.
Qed.

Lemma index_without_fresh orgId st slug :
  slugToOrg st !! slug = None → index_without orgId st !! slug = None.
Proof.
  intros Hfresh. unfold index_without.
  destruct (publicPages st !! orgId) as [page|]; [|done].
  destruct (page_slug page) as [old|]; [|done].
  apply lookup_delete_None. by right.
Qed.

(** Writing a page under a slug that is free in the rest of the index
    keeps the index and the pages in agreement. *)
Lemma assigned_agree orgId slug page st :
  pages_agree st → slug ≠ "" → page_slug page = Some slug →
  index_without orgId st !! slug = None →
  pages_agree (assigned orgId slug page st).
Proof.
  intros Hagree Hne Hslug Hfree. pose proof Hagree as [Hpages Hindex].
  split; cbn [assigned publicPages slugToOrg].
  - intros org page' [[-> ->]|[Horg Hp]]%lookup_insert_Some.
    + exists slug. by rewrite lookup_insert_eq.
    + destruct (Hpages org page' Hp) as (slug' & Hslug' & Hne' & Hidx).
      exists slug'. split_and!; [done..|].
      assert (index_without orgId st !! slug' = Some org) as Hkept.
      { apply index_without_lookup; auto. }
      rewrite lookup_insert_ne; [done|]. intros ->. congruence.
  - intros slug' org [[-> ->]|[Hslug' Hkept]]%lookup_insert_Some.
    + exists page. by rewrite lookup_insert_eq.
    + apply index_without_lookup in Hkept as [Hidx Horg]; [|done].
      destruct (Hindex slug' org Hidx) as (page' & Hp & Hs).
      exists page'. by rewrite lookup_insert_ne.
Qed.

(** The three ways [save] ends, for maps that agree. *)
Lemma save_cases orgId e t a f l req_slug st :
  pages_agree st →
  let out := save orgId e t a f l req_slug st in
  (∃ slug page,
      out = (public_json 200 (PublicSaved page), assigned orgId slug page st)
      ∧ page_slug page = Some slug ∧ slug ≠ ""
      ∧ index_without orgId st !! slug = None
      ∧ page_enabled page = Some (JSON.truthy e)
      ∧ page_features page = Some (clean_features f)
      ∧ page_links page = Some (clean_links l))
  ∨ out = (public_json 400 (PublicError "BAD_SLUG"), st)
  ∨ (out.1 = public_json 500 PublicUncaught
     ∧ publicPages out.2 = publicPages st).
Proof.
  intros Hagree out. subst out.
  destruct (slug_given req_slug) eqn:Hgiven.
  - destruct req_slug as [| | | |s| |]; try discriminate Hgiven.
    cbn in Hgiven. apply negb_true_iff, String.eqb_neq in Hgiven.
    rewrite save_slug by done.
    destruct (String.eqb (slug_of s) ""); [by right; left|].
    cbv zeta. destruct (trimmed t) as [title|]; [|by right; right].
    destruct (trimmed a) as [about|]; [|by right; right].
    left. eexists _, _. split_and!; [done..| | |done|done|done].
    + apply uniqueSlug_nonempty.
    + apply uniqueSlug_fresh.
  - destruct (publicPages st !! orgId) as [page|] eqn:Hp.
    + destruct (proj1 Hagree orgId page Hp) as (slug & Hslug & Hne & Hidx).
      rewrite (save_again orgId e t a f l req_slug st page slug) by done.
      destruct (trimmed t) as [title|]; [|by right; right].
      destruct (trimmed a) as [about|]; [|by right; right].
      left. eexists _, _. split_and!; [done..| |done|done|done].
      rewrite (index_without_some orgId st page slug) by done.
      apply lookup_delete_eq.
    + rewrite save_first by done.
      destruct (slugify t) as [of_title|]; [|by right; right].
      cbv zeta. destruct (trimmed t) as [title|]; [|by right; right].
      destruct (trimmed a) as [about|]; [|by right; right].
      left. eexists _, _. split_and!; [done..| | |done|done|done].
      * apply uniqueSlug_nonempty.
      * apply index_without_fresh, uniqueSlug_fresh.
Qed.

Lemma no_pages_agree : pages_agree no_pages.
Proof.
  split; intros ? ? Hlookup; cbn in Hlookup;
    by rewrite lookup_empty in Hlookup.
Qed.

(** X5: A page route that does not end in an uncaught exception keeps the
    slug index and the pages in agreement: every page has a non-empty slug
    that the index maps to its organisation, and the index has no other
    entry.  The maps agree when the server starts. *)
Theorem page_route_agree (req : PageRequest) st :
  pages_agree no_pages
  ∧ (pages_agree st →
     public_status (page_route req st).1 ≠ 500 →
     pages_agree (page_route req st).2).
Proof.
  split; [apply no_pages_agree|]. intros Hagree Hstatus.
  destruct req as [orgId e t a f l req_slug|orgId]; cbn [page_route] in *.
  - pose proof (save_cases orgId e t a f l req_slug st Hagree) as Hcases.
    cbv zeta in Hcases.
    destruct Hcases as [(slug & page & -> & Hslug & Hne & Hfree & _)
                       |[-> |[Hout _]]].
    + by apply assigned_agree.
    + done.
    + by rewrite Hout in Hstatus.
  - rewrite generate_eq by done. cbn [snd].
    apply assigned_agree; [done| |done|].
    + apply uniqueSlug_nonempty.
    + apply index_without_fresh, uniqueSlug_fresh.
Qed.

Lemma public_assigned orgId slug page st :
  orgId ≠ "" →
  public slug (assigned orgId slug page st)
  = match page_enabled page with
    | Some true => public_json 200 (PublicFound page orgId)
    | _ => public_json 404 (PublicError "NOT_PUBLIC")
    end.
Proof.
  intros Hne. unfold public, assigned. cbn [slugToOrg publicPages].
  rewrite !lookup_insert_eq. by rewrite (proj2 (String.eqb_neq _ _) Hne).
Qed.

(** X6: A page that [save] has stored is read back under its slug, by
    [GET /api/public/:slug], exactly when it was saved with a truthy
    [enabled]; otherwise the read answers NOT_PUBLIC. *)
Theorem save_then_public orgId e t a f l req_slug st page st' :
  pages_agree st → orgId ≠ "" →
  save orgId e t a f l req_slug st
  = (public_json 200 (PublicSaved page), st') →
  ∃ slug, page_slug page = Some slug
          ∧ public slug st'
            = if JSON.truthy e
              then public_json 200 (PublicFound page orgId)
              else public_json 404 (PublicError "NOT_PUBLIC").
Proof.
  intros Hagree Hne Hsave.
  pose proof (save_cases orgId e t a f l req_slug st Hagree) as Hcases.
  cbv zeta in Hcases. rewrite Hsave in Hcases.
  destruct Hcases as [(slug & page' & [= <- ->] & Hslug & _ & _ & Hen & _)
                     |[[=]|[[=] _]]].
  exists slug. split; [done|].
  rewrite public_assigned, Hen by done. by destruct (JSON.truthy e).
Qed.

(** X7: [generate] always succeeds and always moves the page: the new slug
    differs from the one the page had, which stops resolving. *)
Theorem generate_moves orgId st page old :
  pages_agree st →
  publicPages st !! orgId = Some page → page_slug page = Some old →
  ∃ new page',
    generate orgId st
    = (public_json 200 (PublicSaved page'), assigned orgId new page' st)
    ∧ page_slug page' = Some new
    ∧ new ≠ old
    ∧ public old (generate orgId st).2 = public_json 404 (PublicError "NOT_FOUND").
Proof.
  intros Hagree Hp Hold. rewrite generate_eq by done. cbv zeta.
  set (new := uniqueSlug _ _). eexists new, _.
  destruct (proj1 Hagree orgId page Hp) as (old' & Hold' & _ & Hidx).
  assert (old' = old) as -> by congruence.
  assert (new ≠ old) as Hne.
  { intros Heq. pose proof (uniqueSlug_fresh (slugToOrg st)
      (or_slug (slug_of (default "" (page_title
         (default empty_page (publicPages st !! orgId)))))
         (or_slug (slug_of orgId) "org"))) as Hfresh.
    fold new in Hfresh. congruence. }
  split_and!; [done..|].
  unfold public, assigned. cbn [snd slugToOrg].
  rewrite lookup_insert_ne by done.
  rewrite (index_without_some orgId st page old) by done.
  by rewrite lookup_delete_eq.
Qed.

(** X8: [save] with the slug the page already has, keeps it: the page's own
    entry is released before [uniqueSlug] looks for a free slug. *)
Theorem save_same_slug orgId e t a f l s st page old r st' :
  pages_agree st →
  publicPages st !! orgId = Some page → page_slug page = Some old →
  Text.trim s ≠ "" → slug_of s = old →
  save orgId e t a f l (JSON.str s) st = (r, st') →
  public_status r = 200 →
  ∃ page', r = public_json 200 (PublicSaved page')
           ∧ page_slug page' = Some old
           ∧ slugToOrg st' = slugToOrg st.
Proof.
  intros Hagree Hp Hold Htrim Hslug Hsave Hstatus.
  destruct (proj1 Hagree orgId page Hp) as (old' & Hold' & Hne & Hidx).
  assert (old' = old) as -> by congruence.
  rewrite save_slug in Hsave by done. rewrite Hslug in Hsave.
  rewrite (proj2 (String.eqb_neq _ _) Hne) in Hsave. cbv zeta in Hsave.
  rewrite uniqueSlug_free in Hsave;
    [|done|rewrite (index_without_some orgId st page old) by done;
           apply lookup_delete_eq].
  destruct (trimmed t) as [title|];
    [|injection Hsave as <- <-; discriminate Hstatus].
  destruct (trimmed a) as [about|];
    [|injection Hsave as <- <-; discriminate Hstatus].
  injection Hsave as <- <-. eexists. split_and!; [done..|].
  unfold assigned. cbn [slugToOrg].
  rewrite (index_without_some orgId st page old) by done.
  by rewrite insert_delete_eq, insert_id.
Qed.

(** X9: [save] writes the slug index before it trims the title and the text:
    when one of them is a truthy value that is not a string, the route ends
    in an uncaught exception with the index already changed and the page not
    written.  If the slug it chose is not the one the page has, the page is
    no longer found under its own slug, and the maps no longer agree. *)
Theorem save_half_done orgId e t a f l s st page old :
  pages_agree st →
  publicPages st !! orgId = Some page → page_slug page = Some old →
  Text.trim s ≠ "" → slug_of s ≠ "" →
  trimmed t = None ∨ trimmed a = None →
  uniqueSlug (index_without orgId st) (slug_of s) ≠ old →
  let out := save orgId e t a f l (JSON.str s) st in
  out.1 = public_json 500 PublicUncaught
  ∧ publicPages out.2 = publicPages st
  ∧ public old out.2 = public_json 404 (PublicError "NOT_FOUND")
  ∧ ¬ pages_agree out.2.
Proof.
  intros Hagree Hp Hold Htrim Hslug Hthrows Hmoved out. subst out.
  rewrite save_slug by done.
  rewrite (proj2 (String.eqb_neq _ _) Hslug). cbv zeta.
  set (final := uniqueSlug _ _) in *.
  assert (match trimmed t, trimmed a with
          | Some title, Some about =>
              (public_json 200
                 (PublicSaved
                    (mkPage (Some (JSON.truthy e)) (Some final) (Some title)
                            (Some about) (Some (clean_features f))
                            (Some (clean_links l)))),
               assigned orgId final
                 (mkPage (Some (JSON.truthy e)) (Some final) (Some title)
                         (Some about) (Some (clean_features f))
                         (Some (clean_links l))) st)
          | _, _ =>
              (public_json 500 PublicUncaught,
               mkPages (publicPages st)
                       (<[final := orgId]> (index_without orgId st)))
          end
          = (public_json 500 PublicUncaught,
             mkPages (publicPages st)
                     (<[final := orgId]> (index_without orgId st)))) as ->.
  { destruct Hthrows as [-> | ->]; [done|]. by destruct (trimmed t). }
  cbn [fst snd publicPages]. split_and!; [done..| |].
  - unfold public. cbn [slugToOrg].
    rewrite lookup_insert_ne by done.
    rewrite (index_without_some orgId st page old) by done.
    by rewrite lookup_delete_eq.
  - intros [_ Hindex].
    destruct (Hindex final orgId) as (page' & Hp' & Hslug').
    { cbn [slugToOrg]. apply lookup_insert_eq. }
    cbn [publicPages] in Hp'. congruence.
Qed.

(** X10: The page [save] stores has at most 50 features, all truthy, and at
    most 20 links, each with a truthy [text] and [url]. *)
Theorem save_caps orgId e t a f l req_slug st page st' :
  pages_agree st →
  save orgId e t a f l req_slug st
  = (public_json 200 (PublicSaved page), st') →
  ∃ features links,
    page_features page = Some features ∧ page_links page = Some links
    ∧ (List.length features ≤ 50)%nat
    ∧ Forall (λ v, JSON.truthy v = true) features
    ∧ (List.length links ≤ 20)%nat
    ∧ Forall (λ v, JSON.truthy (JSON.get v "text") = true
                   ∧ JSON.truthy (JSON.get v "url") = true) links.
Proof.
  intros Hagree Hsave.
  pose proof (save_cases orgId e t a f l req_slug st Hagree) as Hcases.
  cbv zeta in Hcases. rewrite Hsave in Hcases.
  destruct Hcases as [(slug & page' & [= <- _] & _ & _ & _ & _ & Hf & Hl)
                     |[[=]|[[=] _]]].
  exists (clean_features f), (clean_links l). split_and!; [done..| | | |].
  - unfold clean_features. destruct f; cbn; try lia.
    rewrite length_take. lia.
  - unfold clean_features. destruct f; try constructor.
    apply Forall_take, Forall_forall. intros v Hv.
    apply list_elem_of_In, filter_In in Hv. by destruct Hv.
  - unfold clean_links. destruct l; cbn; try lia.
    rewrite length_take. lia.
  - unfold clean_links. destruct l; try constructor.
    apply Forall_take, Forall_forall. intros v Hv.
    apply list_elem_of_In, filter_In in Hv. destruct Hv as [_ Hv].
    unfold is_link in Hv.
    by apply andb_true_iff in Hv as [[_ ?]%andb_true_iff ?].
Qed.

(** X11: A slug in the body that has a character other than white space but
    no letter and no digit is refused with BAD_SLUG, and nothing is written. *)
Theorem save_bad_slug orgId e t a f l s st :
  Text.trim s ≠ "" →
  Forall (λ c, Text.is_slug_char (JS.lower_ascii c) = false) (Text.chars s) →
  save orgId e t a f l (JSON.str s) st
  = (public_json 400 (PublicError "BAD_SLUG"), st).
Proof.
  intros Htrim Hall%slug_of_letterless. unfold save, finish_page.
  unfold mbind, PageRoute_bind, publicPages_get.
  cbn [slug_given]. rewrite (proj2 (String.eqb_neq _ _) Htrim). cbn [negb].
  unfold slugify, JSON.or. cbn [JSON.truthy].
  rewrite (proj2 (String.eqb_neq _ _) (trim_nonempty s Htrim)).
  cbn [negb throws]. rewrite Hall. by destruct st.
Qed.

(** X12: On maps that agree, [GET /api/public/:slug] shows a page under its
    own slug only, and only a page that is enabled. *)
Theorem public_own_slug slug st page orgId :
  pages_agree st →
  public slug st = public_json 200 (PublicFound page orgId) →
  publicPages st !! orgId = Some page
  ∧ page_slug page = Some slug
  ∧ page_enabled page = Some true.
Proof.
  intros [_ Hindex]. unfold public.
  destruct (slugToOrg st !! slug) as [org|] eqn:Hslug; [|done].
  destruct (String.eqb org ""); [done|].
  destruct (publicPages st !! org) as [cfg|] eqn:Hp; [|done].
  destruct (page_enabled cfg) as [[|]|] eqn:Hen; try done.
  intros [= <- <-].
  destruct (Hindex slug org Hslug) as (page' & Hp' & Hslug').
  split_and!; [done| |done]. congruence.
Qed.

End PublicPages.


(** ** CORS *)

Section Cors.

Lemma trim_trim s : Text.trim (Text.trim s) = Text.trim s.
Proof.
  unfold Text.trim at 1. rewrite strip_start_id.
  - apply strip_end_id. intros c Hc. unfold Text.trim in Hc.
    by apply last_char_strip_end in Hc.
  - intros c r Heq. unfold Text.trim in Heq.
    apply strip_end_head in Heq as [r' Heq].
    by apply strip_start_head in Heq.
Qed.

Lemma ALLOWED_ORIGINS_trimmed s FRONTEND_ORIGIN :
  Forall (λ o, Text.trim o = o) (ALLOWED_ORIGINS (Some s) FRONTEND_ORIGIN).
Proof.
  unfold ALLOWED_ORIGINS. case_bool_decide; [by repeat constructor|].
  unfold envOrigins. apply Forall_forall.
  intros o [_ [x [-> _]]%list_elem_of_fmap]%list_elem_of_filter.
  apply trim_trim.
Qed.

(** X13: [ALLOWED_ORIGINS] is never empty and holds no empty origin.  When
    [CORS_ORIGINS] is set, were it blank, [FRONTEND_ORIGIN] does not count,
    and every origin taken from it is trimmed; when what the environment
    gives is empty, the default origins are allowed. *)
Theorem ALLOWED_ORIGINS_shape (CORS_ORIGINS FRONTEND_ORIGIN : option string) :
  ALLOWED_ORIGINS CORS_ORIGINS FRONTEND_ORIGIN ≠ []
  ∧ Forall (λ o, o ≠ "") (ALLOWED_ORIGINS CORS_ORIGINS FRONTEND_ORIGIN)
  ∧ (is_Some CORS_ORIGINS →
     ALLOWED_ORIGINS CORS_ORIGINS FRONTEND_ORIGIN
     = ALLOWED_ORIGINS CORS_ORIGINS None
     ∧ Forall (λ o, Text.trim o = o)
              (ALLOWED_ORIGINS CORS_ORIGINS FRONTEND_ORIGIN))
  ∧ (envOrigins CORS_ORIGINS FRONTEND_ORIGIN = [] →
     ALLOWED_ORIGINS CORS_ORIGINS FRONTEND_ORIGIN = defaultOrigins).
Proof.
  assert (Forall (λ o, o ≠ "") (envOrigins CORS_ORIGINS FRONTEND_ORIGIN))
    as Henv.
  { unfold envOrigins. destruct CORS_ORIGINS as [s|].
    - apply Forall_forall. by intros o [? _]%list_elem_of_filter.
    - destruct FRONTEND_ORIGIN as [o|]; [|constructor].
      destruct (String.eqb_spec o ""); [constructor|].
      by apply Forall_singleton. }
  unfold ALLOWED_ORIGINS. split_and!.
  - case_bool_decide as Hlen; [done|].
    intros Heq. by rewrite Heq in Hlen.
  - case_bool_decide; [|done]. by repeat constructor.
  - intros [s ->]. split; [done|]. apply ALLOWED_ORIGINS_trimmed.
  - by intros ->.
Qed.

(** X14: The origin check on [ALLOWED_ORIGINS].  A request without an
    [Origin] header passes.  When [FRONTEND_ORIGIN] alone is set, it takes
    the place of the default origins: that origin passes and no other does.
    When [CORS_ORIGINS] is set, an origin with white space around it does
    not pass. *)
Theorem origin_env (CORS_ORIGINS FRONTEND_ORIGIN : option string) o :
  let allowed := ALLOWED_ORIGINS CORS_ORIGINS FRONTEND_ORIGIN in
  origin allowed None = OriginAllowed
  ∧ (CORS_ORIGINS = None →
     ∀ f, FRONTEND_ORIGIN = Some f → f ≠ "" →
       origin allowed (Some o) = OriginAllowed ↔ o = "" ∨ o = f)
  ∧ (is_Some CORS_ORIGINS → Text.trim o ≠ o →
     origin allowed (Some o)
     = OriginRefused ("CORS: Origin not allowed: " +:+ o)).
Proof.
  cbv zeta. split_and!; [done|..].
  - intros -> f -> Hf. unfold ALLOWED_ORIGINS, envOrigins, origin.
    destruct (String.eqb_spec f "") as [|_]; [done|]. cbn [bool_decide].
    rewrite (bool_decide_eq_false_2 (List.length [f] = 0%nat)) by done.
    destruct (String.eqb_spec o "") as [|Ho]; [by split; auto|].
    case_bool_decide as Hin.
    + apply list_elem_of_singleton in Hin. by split; auto.
    + split; [done|]. intros [? | ->]; [done|]. destruct Hin. by left.
  - intros [s ->] Htrim. unfold origin.
    destruct (String.eqb_spec o "") as [->|_]; [done|].
    rewrite bool_decide_eq_false_2; [done|]. intros Hin.
    by apply (proj1 (Forall_forall _ _) (ALLOWED_ORIGINS_trimmed s _)) in Hin.
Qed.

End Cors.

(** ** The user table over time *)

Section Table.

Context `{Bcrypt} `{Speakeasy} `{Jsonwebtoken}.
Variable JWT_SECRET : string.

Implicit Types (users : list User) (u : User).

(** What a route does to the table: it appends the user [register]
    makes, whose email nobody had, or it writes one record back without
    touching its id, name and email, or it leaves the table alone. *)
Lemma route_shape (req : Request) users :
  let users' := snd (route JWT_SECRET req users) in
  (∃ salt n e p,
      users' = (users ++ [new_user salt n e p users])%list
      ∧ ¬ Exists (email_is (JS.str e)) users)
  ∨ users' = users
  ∨ (∃ i u u',
       users !! i = Some u ∧ users' = <[i := u']> users
       ∧ id u' = id u ∧ name u' = name u ∧ email u' = email u).
Proof.
  destruct req as [now e p m|now salt n e p|r1 r2 e|salt t p
                  |entropy uid|now uid t s|uid]; cbn [route snd].
  - by right; left.
  - unfold register.
    destruct (JS.truthy n) eqn:Hn; [|by right; left].
    destruct (JS.truthy e) eqn:He; [|by right; left].
    destruct (JS.truthy p) eqn:Hp; [|by right; left].
    cbn [negb orb return_if mbind Handler_bind].
    case_bool_decide as Hex; [by right; left|].
    apply truthy_is_str in Hn as (sn & -> & _).
    apply truthy_is_str in He as (se & -> & _).
    apply truthy_is_str in Hp as (sp & -> & _).
    left. by exists salt, sn, se, sp.
  - unfold forgot_password.
    destruct (list_find _ users) as [[i u]|] eqn:Hfind; [|by right; left].
    apply list_find_Some in Hfind as (Hi & _). right; right.
    by eexists i, u, _.
  - unfold reset_password.
    destruct (list_find _ users) as [[i u]|] eqn:Hfind; [|by right; left].
    apply list_find_Some in Hfind as (Hi & _). rewrite or_empty_is_str.
    right; right. by eexists i, u, _.
  - unfold mfa_setup.
    destruct (list_find _ users) as [[i u]|] eqn:Hfind; [|by right; left].
    apply list_find_Some in Hfind as (Hi & _). right; right.
    by eexists i, u, _.
  - pose proof (mfa_verify_cases now uid t s users) as Hc. cbv zeta in Hc.
    destruct Hc as [[_ ->]|(i & u & s' & Hfind & _ & _ & _ & _ & ->)];
      [by right; left|].
    apply list_find_Some in Hfind as (Hi & _). right; right.
    by eexists i, u, _.
  - unfold mfa_disable.
    destruct (list_find _ users) as [[i u]|] eqn:Hfind; [|by right; left].
    apply list_find_Some in Hfind as (Hi & _). right; right.
    by eexists i, u, _.
Qed.

Lemma well_numbered_route (req : Request) users :
  well_numbered users → well_numbered (snd (route JWT_SECRET req users)).
Proof.
  intros Hnum. pose proof (route_shape req users) as Hshape.
  cbv zeta in Hshape.
  destruct Hshape as [(salt & n & e & p & -> & _)
                     |[-> |(i & u & u' & Hi & -> & Hid & _)]]; [|done|].
  - intros j v [Hj|[Hj Hv]]%lookup_app_Some; [by apply Hnum|].
    apply list_lookup_singleton_Some in Hv as [Hz <-].
    cbn [new_user id]. do 2 f_equal. lia.
  - intros j v [(-> & <- & _)|[Hne Hj]]%list_lookup_insert_Some.
    + rewrite Hid. by apply Hnum.
    + by apply Hnum.
Qed.

Lemma distinct_emails_route (req : Request) users :
  distinct_emails users → distinct_emails (snd (route JWT_SECRET req users)).
Proof.
  unfold distinct_emails. intros Hdistinct.
  pose proof (route_shape req users) as Hshape. cbv zeta in Hshape.
  destruct Hshape as [(salt & n & e & p & -> & Hfresh)
                     |[-> |(i & u & u' & Hi & -> & _ & _ & Hemail)]]; [|done|].
  - rewrite fmap_app. apply NoDup_app. split_and!; [done| |].
    + intros x (v & -> & Hv)%list_elem_of_fmap Hx. apply Hfresh.
      apply Exists_exists. exists v. split; [done|].
      apply email_is_str. cbn in Hx. by apply list_elem_of_singleton in Hx.
    + apply NoDup_singleton.
  - rewrite list_fmap_insert, Hemail, list_insert_id; [done|].
    by rewrite list_lookup_fmap, Hi.
Qed.

(** X15: In every table that requests lead to from the seed table, the user
    at index [i] has the id [u_(i+1)], so that no two users share an id, and
    no two users have the same email after lower-casing. *)
Theorem run_table (salt : string) (reqs : list Request) :
  let users := run JWT_SECRET reqs (users salt) in
  well_numbered users ∧ NoDup (id <$> users) ∧ distinct_emails users.
Proof.
  cbv zeta.
  assert (well_numbered (run JWT_SECRET reqs (users salt))
          ∧ distinct_emails (run JWT_SECRET reqs (users salt)))
    as [Hnum Hdistinct].
  { assert (well_numbered (users salt) ∧ distinct_emails (users salt))
      as Hseed.
    { split.
      - intros [|i] u Hu; [by injection Hu as <-|done].
      - apply NoDup_singleton. }
    revert Hseed. generalize (users salt).
    induction reqs as [|req reqs IH]; intros table [Hn Hd]; [done|].
    cbn [run]. apply IH.
    split; [by apply well_numbered_route|by apply distinct_emails_route]. }
  split_and!; [done| |done].
  apply NoDup_alt. intros i j x Hi Hj.
  apply list_lookup_fmap_Some in Hi as (u & -> & Hi).
  apply list_lookup_fmap_Some in Hj as (v & Heq & Hj).
  rewrite (Hnum i u Hi), (Hnum j v Hj) in Heq.
  apply (inj (String.append "u_")), (inj pretty) in Heq. lia.
Qed.

End Table.

(** ** How the auth routes compose *)

Section Flows.

Context `{Bcrypt} `{Speakeasy} `{Jsonwebtoken}.
Variable JWT_SECRET : string.

Implicit Types (users : list User) (u : User).

Lemma find_insert P `{∀ u, Decision (P u)} users i u u' :
  list_find P users = Some (i, u) → P u' →
  list_find P (<[i := u']> users) = Some (i, u').
Proof.
  intros (Hi & _ & Hfirst)%list_find_Some Hu'. apply list_find_Some.
  split_and!; [|done|].
  - apply list_lookup_insert_eq. by eapply lookup_lt_Some.
  - intros j v Hj Hlt. rewrite list_lookup_insert_ne in Hj by lia.
    by eapply Hfirst.
Qed.

Lemma find_id users i u :
  NoDup (id <$> users) → users !! i = Some u →
  list_find (id_is (id u)) users = Some (i, u).
Proof.
  intros Hnodup Hi. apply list_find_Some. split_and!; [done..|].
  intros j v Hj Hlt Hv. unfold id_is in Hv.
  assert (i = j); [|lia].
  apply (NoDup_lookup (id <$> users) i j (id u)); [done|..];
    rewrite list_lookup_fmap; [by rewrite Hi|by rewrite Hj, <- Hv].
Qed.

Lemma find_email users i u :
  distinct_emails users → users !! i = Some u →
  list_find (email_is (JS.str (email u))) users = Some (i, u).
Proof.
  intros Hnodup Hi. apply list_find_Some. split_and!; [done| |].
  - by apply email_is_str.
  - intros j v Hj Hlt Hv. apply (proj1 (email_is_str _ _)) in Hv.
    assert (i = j); [|lia].
    apply (NoDup_lookup _ i j (JS.toLowerCase (email u)) Hnodup);
      rewrite list_lookup_fmap; [by rewrite Hi|by rewrite Hj; cbn; rewrite Hv].
Qed.

Lemma distinct_emails_insert users i u u' :
  distinct_emails users → users !! i = Some u → email u' = email u →
  distinct_emails (<[i := u']> users).
Proof.
  unfold distinct_emails. intros Hd Hi Heq.
  rewrite list_fmap_insert, Heq, list_insert_id; [done|].
  by rewrite list_lookup_fmap, Hi.
Qed.

Lemma find_singleton u :
  list_find (email_is (JS.str (email u))) [u] = Some (0%nat, u).
Proof.
  apply list_find_Some. split_and!; [done|by apply email_is_str|].
  intros j v _ Hlt. lia.
Qed.

Lemma login_found now e p m users i u :
  list_find (email_is e) users = Some (i, u) →
  login JWT_SECRET now e p m users = login_as JWT_SECRET now p m u.
Proof.
  intros Hfind. unfold login_as, login. rewrite Hfind, find_singleton.
  cbn [found mbind Handler_bind].
  destruct (bcrypt_compareSync _ _) as [[|]|]; cbn; [|done..].
  destruct (mfaEnabled u); cbn; [|done].
  destruct (JS.truthy m); cbn; [|done].
  by destruct (speakeasy_totp_verify _ _ _ _) as [[|]|].
Qed.

Lemma login_as_same now p m u u' :
  same_login u u' →
  login_as JWT_SECRET now p m u = login_as JWT_SECRET now p m u'.
Proof.
  intros (Hid & Hname & Hemail & Hhash & Hen & Hsec).
  unfold login_as, login. rewrite !find_singleton.
  cbn [found mbind Handler_bind]. unfold generateToken.
  rewrite <- Hid, <- Hname, <- Hemail, <- Hhash, <- Hen, <- Hsec.
  destruct (bcrypt_compareSync _ _) as [[|]|]; cbn; [|done..].
  destruct (mfaEnabled u); cbn; [|done].
  destruct (JS.truthy m); cbn; [|done].
  by destruct (speakeasy_totp_verify _ _ _ _) as [[|]|].
Qed.

Lemma login_insert now e p m users i u u' :
  users !! i = Some u → same_login u u' →
  login JWT_SECRET now e p m (<[i := u']> users)
  = login JWT_SECRET now e p m users.
Proof.
  intros Hi Hsame. pose proof Hsame as (_ & _ & Hemail & _).
  destruct (list_find (email_is e) users) as [[j v]|] eqn:Hfind.
  - destruct (decide (j = i)) as [->|Hne].
    + assert (v = u) as ->.
      { apply list_find_Some in Hfind as (Hv & _). congruence. }
      rewrite (login_found now e p m _ i u'), (login_found now e p m _ i u)
        by (done || (eapply find_insert; [done|];
                     apply list_find_Some in Hfind as (_ & Hu & _);
                     unfold email_is in *; by rewrite <- Hemail)).
      symmetry. by apply login_as_same.
    + rewrite (login_found now e p m _ j v), (login_found now e p m _ j v);
        [done..|].
      apply list_find_Some in Hfind as (Hj & Hv & Hfirst).
      apply list_find_Some. split_and!; [|done|].
      * by rewrite list_lookup_insert_ne.
      * intros k w [(Heq & <- & _)|[_ Hk]]%list_lookup_insert_Some Hlt.
        -- subst k. intros Hu'. apply (Hfirst i u Hi Hlt).
           unfold email_is in *. by rewrite Hemail.
        -- by eapply Hfirst.
  - unfold login. rewrite Hfind.
    assert (list_find (email_is e) (<[i := u']> users) = None) as ->; [|done].
    apply list_find_None, Forall_lookup.
    intros k w [(Heq & <- & _)|[_ Hk]]%list_lookup_insert_Some.
    + subst k. intros Hu'. apply list_find_None in Hfind.
      apply (proj1 (Forall_lookup _ _) Hfind i u Hi).
      unfold email_is in *. by rewrite Hemail.
    + apply list_find_None in Hfind.
      by apply (proj1 (Forall_lookup _ _) Hfind k w).
Qed.

(** X16: Neither [GET /api/auth/mfa/setup] nor
    [POST /api/auth/forgot-password] changes what any login is answered: a
    new pending secret leaves the active one in force, and a reset request
    leaves the password in force. *)
Theorem login_unaffected now e p m users entropy uid r1 r2 e' :
  login JWT_SECRET now e p m (snd (mfa_setup entropy uid users))
  = login JWT_SECRET now e p m users
  ∧ login JWT_SECRET now e p m (snd (forgot_password r1 r2 e' users))
    = login JWT_SECRET now e p m users.
Proof.
  split.
  - unfold mfa_setup.
    destruct (list_find _ users) as [[i u]|] eqn:Hfind; [|done].
    apply list_find_Some in Hfind as (Hi & _). cbn.
    by apply (login_insert now e p m users i u).
  - unfold forgot_password.
    destruct (list_find _ users) as [[i u]|] eqn:Hfind; [|done].
    apply list_find_Some in Hfind as (Hi & _). cbn [snd].
    by apply (login_insert now e p m users i u).
Qed.

(** X17: [POST /api/auth/forgot-password] answers [{ ok: true }] whether or
    not a user has the email; it changes nothing when none has, and the
    [resetToken] of the first user who has it otherwise. *)
Theorem forgot_password_silent r1 r2 e users :
  fst (forgot_password r1 r2 e users) = json 200 OkTrue
  ∧ (¬ Exists (email_is e) users →
     snd (forgot_password r1 r2 e users) = users)
  ∧ (∀ i u, list_find (email_is e) users = Some (i, u) →
       snd (forgot_password r1 r2 e users)
       = <[i := set_resetToken (JS.str (r1 +:+ r2)) u]> users).
Proof.
  unfold forgot_password. split_and!.
  - by destruct (list_find _ users) as [[i u]|].
  - intros Hno.
    destruct (list_find _ users) as [[i u]|] eqn:Hfind; [|done].
    apply list_find_Some in Hfind as (Hi & Hu & _). destruct Hno.
    apply Exists_exists. exists u. split; [|done].
    by eapply list_elem_of_lookup_2.
  - by intros i u ->.
Qed.

(** X18: [POST /api/auth/reset-password] with an absent, null or empty token
    fails with [InvalidToken] on every table and changes nothing, the
    [resetToken] of the users being null (or empty) or not. *)
Theorem reset_password_no_token salt token p users :
  JS.truthy token = false →
  reset_password salt token p users = (InvalidToken, users).
Proof.
  intros Hfalsy. unfold reset_password.
  assert (list_find (resetToken_is token) users = None) as ->; [|done].
  apply list_find_None, Forall_forall. intros u _ Hu.
  unfold resetToken_is, JS.strict_eq in Hu.
  apply andb_true_iff in Hu as [Htruthy Heq%bool_decide_eq_true].
  congruence.
Qed.

Lemma forgot_password_at r1 r2 users i u e :
  distinct_emails users → users !! i = Some u → e = email u →
  forgot_password r1 r2 (JS.str e) users
  = (json 200 OkTrue, <[i := set_resetToken (JS.str (r1 +:+ r2)) u]> users).
Proof.
  intros Hd Hi ->. unfold forgot_password.
  by rewrite (find_email users i u).
Qed.

(** X19: A second reset request for a user puts the first token out of use:
    [reset_password] with the first token then fails with [InvalidToken]. *)
Theorem forgot_password_supersedes r1 r2 r1' r2' salt p users i u :
  distinct_emails users → users !! i = Some u →
  Forall (λ v, resetToken v ≠ JS.str (r1 +:+ r2)) users →
  r1 +:+ r2 ≠ r1' +:+ r2' →
  let users' :=
    snd (forgot_password r1' r2' (JS.str (email u))
           (snd (forgot_password r1 r2 (JS.str (email u)) users))) in
  users' !! i = Some (set_resetToken (JS.str (r1' +:+ r2')) u)
  ∧ reset_password salt (JS.str (r1 +:+ r2)) p users' = (InvalidToken, users').
Proof.
  intros Hd Hi Hfresh Hne users'. subst users'.
  rewrite (forgot_password_at r1 r2 users i u (email u)) by done.
  cbn [snd].
  rewrite (forgot_password_at r1' r2' _ i
             (set_resetToken (JS.str (r1 +:+ r2)) u) (email u)); [|..|done].
  2:{ by apply (distinct_emails_insert users i u). }
  2:{ apply list_lookup_insert_eq. by eapply lookup_lt_Some. }
  cbn [snd]. rewrite list_insert_insert_eq.
  change (set_resetToken (JS.str (r1' +:+ r2'))
            (set_resetToken (JS.str (r1 +:+ r2)) u))
    with (set_resetToken (JS.str (r1' +:+ r2')) u).
  split.
  - apply list_lookup_insert_eq. by eapply lookup_lt_Some.
  - unfold reset_password.
    assert (list_find (resetToken_is (JS.str (r1 +:+ r2)))
              (<[i := set_resetToken (JS.str (r1' +:+ r2')) u]> users)
            = None) as ->; [|done].
    apply list_find_None, Forall_lookup.
    intros k w [(-> & <- & _)|[_ Hk]]%list_lookup_insert_Some
           [Hw _]%resetToken_is_str.
    + cbn in Hw. congruence.
    + by apply (proj1 (Forall_lookup _ _) Hfresh k w).
Qed.

(** X20: After [reset_password] with a new password, a login with the user's
    email and that password is answered with a token, if two-factor is off.
    The two routes read the password as [password || '']: after a reset
    without a new password, a login without a password is accepted. *)
Theorem reset_then_login `{!BcryptLaws} now salt t p m users i u :
  distinct_emails users →
  users !! i = Some u → resetToken u = JS.str t → t ≠ "" →
  sole_holder t i users →
  mfaEnabled u = false →
  login JWT_SECRET now (JS.str (email u)) p m
        (snd (reset_password salt (JS.str t) p users))
  = json 200 (TokenUser (generateToken JWT_SECRET now u)
                        (id u) (name u) (email u)).
Proof.
  intros Hd Hi Htok Hne Hsole Hmfa.
  rewrite (reset_password_found salt t p users i u)
    by by apply find_sole_holder.
  cbn [snd].
  rewrite (login_found now _ p m _ i (with_password salt p u)).
  2:{ apply (find_insert _ users i u); [by apply find_email|].
      by apply email_is_str. }
  unfold login_as, login. rewrite find_singleton.
  cbn [found mbind Handler_bind]. rewrite or_empty_is_str.
  cbn [bcrypt_compareSync with_password set_resetToken set_passwordHash
       passwordHash try found mbind Handler_bind].
  rewrite compareSync_hashSync.
  cbn [negb return_if mbind Handler_bind].
  change (mfaEnabled (with_password salt p u)) with (mfaEnabled u).
  by rewrite Hmfa.
Qed.

(** X21: [POST /api/auth/mfa/disable] asks for no code; after it a login
    with the right password is answered with a token whatever [mfa] is, and
    also when two-factor was on. *)
Theorem disable_then_login now p m users i u :
  distinct_emails users → NoDup (id <$> users) →
  users !! i = Some u →
  compareSync (JS.String (JS.or p (JS.str ""))) (passwordHash u) = true →
  mfa_disable (id u) users
  = (json 200 OkTrue,
     <[i := set_mfaTempSecret JS.null
               (set_mfaSecret JS.null (set_mfaEnabled false u))]> users)
  ∧ login JWT_SECRET now (JS.str (email u)) p m (snd (mfa_disable (id u) users))
    = json 200 (TokenUser (generateToken JWT_SECRET now u)
                          (id u) (name u) (email u)).
Proof.
  intros Hd Hids Hi Hpw.
  assert (mfa_disable (id u) users
          = (json 200 OkTrue,
             <[i := set_mfaTempSecret JS.null
                      (set_mfaSecret JS.null (set_mfaEnabled false u))]>
               users)) as Hdis.
  { unfold mfa_disable. by rewrite (find_id users i u). }
  split; [done|]. rewrite Hdis. cbn [snd].
  set (u' := set_mfaTempSecret _ _).
  rewrite (login_found now _ p m _ i u').
  2:{ apply (find_insert _ users i u); [by apply find_email|].
      by apply email_is_str. }
  unfold login_as, login. rewrite find_singleton.
  cbn [found mbind Handler_bind]. rewrite or_empty_is_str.
  cbn [bcrypt_compareSync try found mbind Handler_bind].
  subst u'. cbn [passwordHash set_mfaTempSecret set_mfaSecret set_mfaEnabled
                 mfaEnabled].
  by rewrite Hpw.
Qed.

(** X22: Enrolment: after [GET /api/auth/mfa/setup],
    [POST /api/auth/mfa/verify] without a secret in the body checks the code
    against the secret that setup generated; a code that verifies turns
    two-factor on with that secret, and one that does not leaves the user
    pending. *)
Theorem setup_then_verify now entropy token secret users i u :
  NoDup (id <$> users) → users !! i = Some u →
  JS.truthy token = true → JS.truthy secret = false →
  let generated :=
    generateSecret entropy ("Bondfire (" +:+ email u +:+ ")") 20 in
  fst generated ≠ "" →
  let pending := snd (mfa_setup entropy (id u) users) in
  mfa_verify now (id u) token secret pending
  = if totp_verify (fst generated) (JS.String token) 1 now
    then (json 200 OkTrue,
          <[i := enrolled (JS.str (fst generated)) u]> users)
    else (json 400 (Error "Invalid code"), pending).
Proof.
  intros Hids Hi Htok Hsec generated Hne pending. subst pending.
  pose proof (find_id users i u Hids Hi) as Hfind.
  unfold mfa_setup. rewrite Hfind. cbn [found mbind Handler_bind finish snd].
  fold generated.
  set (u' := set_mfaTempSecret (JS.str (fst generated)) u).
  unfold mfa_verify.
  rewrite (find_insert _ users i u u' Hfind) by done.
  cbn [found mbind Handler_bind].
  unfold JS.or at 1 2 3. rewrite Hsec. subst u'. cbn [mfaTempSecret set_mfaTempSecret].
  rewrite Htok, (proj2 (truthy_str _) Hne).
  cbn [negb orb return_if mbind Handler_bind speakeasy_totp_verify try found].
  destruct (totp_verify (fst generated) (JS.String token) 1 now); cbn; [|done].
  by rewrite list_insert_insert_eq.
Qed.

End Flows.

(** ** Sessions *)

Section Sessions.

Context `{Bcrypt} `{Speakeasy} `{Jsonwebtoken} `{!JsonwebtokenLaws}.
Variable JWT_SECRET : string.

Implicit Types (users : list User) (u : User).

Lemma login_token now e p m users token uid uname uemail :
  login JWT_SECRET now e p m users
  = json 200 (TokenUser token uid uname uemail) →
  ∃ i u, users !! i = Some u
         ∧ token = generateToken JWT_SECRET now u
         ∧ uid = id u ∧ uname = name u ∧ uemail = email u.
Proof.
  unfold login.
  destruct (list_find (email_is e) users) as [[i u]|] eqn:Hfind; [|done].
  apply list_find_Some in Hfind as (Hi & _).
  cbn [found mbind Handler_bind].
  destruct (bcrypt_compareSync _ _) as [[|]|]; cbn; [|done..].
  destruct (mfaEnabled u); cbn.
  - destruct (JS.truthy m); cbn; [|done].
    destruct (speakeasy_totp_verify _ _ _ _) as [[|]|]; cbn; [|done..].
    intros [= <- <- <- <-]. by exists i, u.
  - intros [= <- <- <- <-]. by exists i, u.
Qed.

(** X23: The token of a successful login, sent as [Bearer <token>] to
    [GET /api/auth/me] within the hour, is answered with the profile of the
    user who logged in, on a table where no two users share an id. *)
Theorem login_then_me now now' e p m users token uid uname uemail :
  NoDup (id <$> users) →
  login JWT_SECRET now e p m users
  = json 200 (TokenUser token uid uname uemail) →
  now' < now + 3600 →
  ∃ u, u ∈ users ∧ id u = uid
       ∧ me JWT_SECRET now' (JS.str ("Bearer " +:+ token)) users
         = Go (mkProfile uid uname uemail (mfaEnabled u)).
Proof.
  intros Hids (i & u & Hi & -> & -> & -> & ->)%login_token Hlt.
  exists u. split_and!; [by eapply list_elem_of_lookup_2|done|].
  unfold me. rewrite authMiddleware_Bearer by apply jwt_sign_nonempty.
  unfold generateToken. rewrite jwt_verify_sign by done.
  cbn [mbind Handler_bind claims sub].
  by rewrite (find_id users i u).
Qed.

Lemma match_Bearer_token c r :
  Text.is_space c = false →
  forallb (λ c, negb (Text.is_line_terminator c))
          (Text.chars (String.String c r)) = true →
  match_Bearer ("Bearer " +:+ String.String c r) = Some (String.String c r).
Proof.
  intros Hc Hlt. unfold match_Bearer.
  change (String.prefix "Bearer" ("Bearer " +:+ String.String c r)) with true.
  cbn iota.
  change (JS.slice ("Bearer " +:+ String.String c r) 6)
    with (String.String " " (String.String c r)).
  cbn [Text.strip_start]. change (Text.is_space " ") with true. cbn iota.
  rewrite Hc.
  rewrite (proj2 (Nat.eqb_neq _ _)) by (cbn; lia).
  by rewrite Hlt.
Qed.

(** X24: The two token middlewares agree on the header [Bearer <token>] for
    a token that does not start with white space and has no line break:
    [authRequired] lets through exactly what [authMiddleware] lets through,
    with the same payload, and refuses the rest with its own 401 body,
    [{ error: 'Unauthorized' }]. *)
Theorem middlewares_agree now c r :
  Text.is_space c = false →
  forallb (λ c, negb (Text.is_line_terminator c))
          (Text.chars (String.String c r)) = true →
  let header := JS.str ("Bearer " +:+ String.String c r) in
  authRequired JWT_SECRET now header
  = match authMiddleware JWT_SECRET now header with
    | Go payload => Go payload
    | Sent _ => Sent (json 401 (Error "Unauthorized"))
    end.
Proof.
  intros Hc Hlt header. subst header.
  rewrite authMiddleware_Bearer by done.
  unfold authRequired. rewrite String_or_str, match_Bearer_token by done.
  by destruct (jwt_verify _ _ _).
Qed.

End Sessions.

(** * Properties of [node-http/index.js] *)

Section Store.

Variable ToString : JSON.value → string.
Variable JSON_stringify : JSON.value → string.
Variable JSON_parse : string → JSON.value + string.

(** A string converts to itself. *)
Hypothesis ToString_str : ∀ s, ToString (JSON.str s) = s.

(** [JSON.parse] undoes [JSON.stringify] on a package, and the text of a
    package is not empty. *)
Hypothesis parse_stringify :
  ∀ payload ts,
    JSON_parse (JSON_stringify (package payload ts)) = inl (package payload ts).
Hypothesis stringify_nonempty :
  ∀ payload ts, JSON_stringify (package payload ts) ≠ "".

Implicit Types (mem : gmap string string).

Lemma channel_key_inj : Inj (=) (=) channel_key.
Proof.
  intros c1 c2 Heq. unfold channel_key in Heq.
  apply (inj (String.append "e2ee:")) in Heq.
  revert c2 Heq. induction c1 as [|a c1 IH]; intros [|b c2] Heq.
  - done.
  - apply (f_equal String.length) in Heq.
    change (String.length (String.String b c2 +:+ ":last"))
      with (S (String.length (c2 +:+ ":last"))) in Heq.
    rewrite !length_app in Heq. cbn in Heq. lia.
  - apply (f_equal String.length) in Heq.
    change (String.length (String.String a c1 +:+ ":last"))
      with (S (String.length (c1 +:+ ":last"))) in Heq.
    rewrite !length_app in Heq. cbn in Heq. lia.
  - injection Heq as -> Heq. by rewrite (IH c2).
Qed.

(** X25: What was stored on a channel is what a read of the channel returns:
    after [handleStore] with a string channel, a truthy [e2ee] and a string
    payload, [handleGet] on that channel answers 200 with
    [{ e2ee: true, payload, ts }], whatever the channel held before. *)
Theorem store_then_get ts channel e2ee payload others mem :
  channel ≠ "" → JSON.truthy e2ee = true →
  let body :=
    JSON.object (("channel", JSON.str channel) :: ("e2ee", e2ee)
                 :: ("payload", JSON.str payload) :: others) in
  let out := handleStore ToString JSON_stringify ts (inl body) mem in
  out.1 = send 200 (JSON.object [("ok", JSON.boolean true);
                                 ("ts", JSON.number ts)])
  ∧ handleGet JSON_parse (Some channel) out.2 = send 200 (package payload ts).
Proof.
  intros Hne He2ee body out. subst out body.
  unfold handleStore. cbn [JSON.or JSON.truthy JSON.get JSON.lookup].
  cbn. destruct (String.eqb_spec channel "") as [|_]; [done|].
  rewrite He2ee. cbn [negb orb fst snd].
  split; [done|].
  rewrite ToString_str, lookup_insert_eq.
  destruct (String.eqb_spec (JSON_stringify (package payload ts)) "")
    as [Hempty|_]; [by destruct (stringify_nonempty payload ts)|].
  by rewrite parse_stringify.
Qed.

(** X26: [handleStore] writes at most the key of its own channel: a read of
    a channel other than the body's, taken as a string, is answered as
    before; and a body that is refused (400) or does not parse (500) writes
    nothing. *)
Theorem store_elsewhere ts body channel mem :
  let out := handleStore ToString JSON_stringify ts body mem in
  (code out.1 ≠ 200 → out.2 = mem)
  ∧ (∀ data, body = inl data →
       ToString (JSON.get (JSON.or data (JSON.object [])) "channel") ≠ channel →
       handleGet JSON_parse (Some channel) out.2
       = handleGet JSON_parse (Some channel) mem).
Proof.
  cbv zeta. unfold handleStore. split.
  - destruct body as [data|message]; [|done].
    destruct (JSON.get _ "payload"); try done.
    by destruct (negb _ || negb _).
  - intros data -> Hother.
    destruct (JSON.get _ "payload"); try done.
    destruct (negb _ || negb _); [done|]. cbn [snd].
    unfold handleGet. destruct (String.eqb channel ""); [done|].
    rewrite lookup_insert_ne; [done|].
    by intros Heq%channel_key_inj.
Qed.

(** X27: Only packages are stored, so that no read fails: from the empty
    store, whatever is stored, [handleGet] never answers 500. *)
Theorem get_never_fails mem ts body channel :
  packages_only JSON_stringify ∅
  ∧ (packages_only JSON_stringify mem →
     packages_only JSON_stringify
       (handleStore ToString JSON_stringify ts body mem).2
     ∧ code (handleGet JSON_parse channel mem) ≠ 500).
Proof.
  split; [by intros key val Hkey; rewrite lookup_empty in Hkey|].
  intros Hmem. split.
  - unfold handleStore. destruct body as [data|message]; [|done].
    destruct (JSON.get _ "payload") as [| | | |text| |]; try done.
    destruct (negb _ || negb _); [done|]. cbn [snd].
    intros key val [[_ <-]|[_ Hkey]]%lookup_insert_Some; [by eauto|].
    by eapply Hmem.
  - unfold handleGet. destruct channel as [channel|]; [|done].
    destruct (String.eqb channel ""); [done|].
    destruct (mem !! channel_key channel) as [val|] eqn:Hkey; [|done].
    destruct (String.eqb val ""); [done|].
    destruct (Hmem _ _ Hkey) as (payload & ts' & ->).
    by rewrite parse_stringify.
Qed.

End Store.

(** * Properties of [worker.js] *)

Section WorkerStore.

Variable ToString : JSON.value → string.
Variable JSON_stringify : JSON.value → string.
Variable JSON_parse : string → JSON.value + string.

(** A string converts to itself. *)
Hypothesis ToString_str : ∀ s, ToString (JSON.str s) = s.

Implicit Types (kv : gmap string string).

(** X28: What was stored on a channel is what a read returns, of that
    channel and of every channel with the same text between its white space:
    [handleStore] with a string channel and a payload, of whatever type,
    then [handleGet], answers [{ e2ee, payload, ts }] with [e2ee] as a
    boolean, if the text of that record parses back to it. *)
Theorem worker_store_then_get ts data channel channel' kv :
  JSON.get data "channel" = JSON.str channel →
  JSON.get data "payload" ≠ JSON.undefined →
  Text.trim channel ≠ "" → Text.trim channel' = Text.trim channel →
  let stored :=
    Worker.record (JSON.truthy (JSON.get data "e2ee"))
                  (JSON.get data "payload") ts in
  JSON_parse (JSON_stringify stored) = inl stored →
  JSON_stringify stored ≠ "" →
  let out := Worker.handleStore ToString JSON_stringify ts (inl data) kv in
  out.1 = send 200 (JSON.object [("ok", JSON.boolean true);
                                 ("ts", JSON.number ts)])
  ∧ Worker.handleGet JSON_parse (Some channel') out.2 = send 200 stored.
Proof.
  intros Hchannel Hpayload Htrim Hsame stored Hparse Hne out.
  subst out stored. unfold Worker.handleStore. cbn [Worker.safeJson].
  rewrite Hchannel. unfold JSON.or. cbn [JSON.truthy].
  destruct (String.eqb_spec channel "") as [Hempty|_];
    [by apply trim_nonempty in Htrim|].
  cbn [negb]. rewrite ToString_str.
  destruct (String.eqb_spec (Text.trim channel) "") as [|_]; [done|].
  assert (∀ b, Bool.eqb b true = b) as -> by by intros [].
  destruct (JSON.get data "payload") eqn:Hget; [done|..];
    (split; [done|]); cbn [snd]; unfold Worker.handleGet;
    change (default "" (Some channel')) with channel'; rewrite Hsame;
    (destruct (String.eqb_spec (Text.trim channel) "") as [|_]; [done|]);
    rewrite lookup_insert_eq;
    match goal with
    | |- context [String.eqb ?text ""] =>
        destruct (String.eqb_spec text "") as [|_]; [done|]
    end;
    unfold Worker.safeParse; by rewrite Hparse.
Qed.


(** X30: [handleGet] never answers 500: a stored text that does not parse,
    or that parses to [null], is answered 200 with
    [{ payload: raw, e2ee: true, ts: null }]. *)
Theorem worker_get_never_fails channel kv :
  code (Worker.handleGet JSON_parse channel kv) ≠ 500
  ∧ (∀ raw,
       Text.trim (default "" channel) ≠ "" →
       kv !! Text.trim (default "" channel) = Some raw → raw ≠ "" →
       (∀ v, JSON_parse raw = inl v → v = JSON.null) →
       Worker.handleGet JSON_parse channel kv
       = send 200 (Worker.unparsed raw)).
Proof.
  unfold Worker.handleGet. split.
  - destruct (String.eqb _ ""); [done|].
    destruct (kv !! _) as [raw|]; [|done].
    by destruct (String.eqb raw "").
  - intros raw Hchannel -> Hraw Hparse.
    destruct (String.eqb_spec (Text.trim (default "" channel)) "") as [|_];
      [done|].
    destruct (String.eqb_spec raw "") as [|_]; [done|].
    unfold Worker.safeParse.
    destruct (JSON_parse raw) as [v|message]; [|done].
    by rewrite (Hparse v).
Qed.

End WorkerStore.

(** ** The reference text functions *)

Module WireLaws.
Import Ref RefLaws Wire.

Lemma read_string_literal s rest :
  read_string (literal_chars s rest) = Some (s, rest).
Proof.
  induction s as [|c s IH]; cbn [literal_chars read_string].
  - by rewrite Ascii.eqb_refl.
  - destruct (Ascii.eqb c quote) eqn:Hquote.
    { apply Ascii.eqb_eq in Hquote as ->. cbn. by rewrite IH. }
    destruct (Ascii.eqb c backslash) eqn:Hbackslash.
    { apply Ascii.eqb_eq in Hbackslash as ->. cbn. by rewrite IH. }
    cbn [orb read_string]. by rewrite Hquote, Hbackslash, IH.
Qed.

Lemma digits_closes rest : closes rest → digits rest = ("", rest).
Proof. destruct rest as [|c r]; [done|]. cbn. by intros ->. Qed.

Lemma digits_string_of_uint d rest :
  closes rest →
  digits (NilEmpty.string_of_uint d +:+ rest)
  = (NilEmpty.string_of_uint d, rest).
Proof.
  intros Hrest.
  induction d as [|d IH|d IH|d IH|d IH|d IH|d IH|d IH|d IH|d IH|d IH];
    [by apply digits_closes|..];
    cbn [NilEmpty.string_of_uint];
    match goal with
    | |- digits (String.String ?c ?s +:+ _) = _ =>
        change (String.String c s +:+ rest)
          with (String.String c (s +:+ rest))
    end;
    cbn [digits]; by rewrite IH.
Qed.

Lemma string_of_uint_digit d :
  d ≠ Decimal.Nil →
  ∃ c r, NilEmpty.string_of_uint d = String.String c r ∧ is_digit c = true.
Proof. destruct d; [done|by eexists _, _..]. Qed.

Lemma read_number_string_of_Z n rest :
  closes rest → read_number (string_of_Z n +:+ rest) = Some (n, rest).
Proof.
  intros Hrest. pose proof (Z_of_string_of_Z n) as Hback.
  unfold string_of_Z in *. unfold read_number.
  destruct (Z.to_int n) as [d|d] eqn:Hn; cbn [NilEmpty.string_of_int] in *.
  - assert (d ≠ Decimal.Nil) as Hd.
    { destruct n; simplify_eq/=; [done|apply Unsigned.to_uint_nonnil]. }
    destruct (string_of_uint_digit d Hd) as (c & r & Hcr & Hc).
    rewrite Hcr in *.
    change (String.String c r +:+ rest) with (String.String c (r +:+ rest)).
    cbv beta iota.
    assert (Ascii.eqb c "-" = false) as ->.
    { apply Ascii.eqb_neq. intros ->. done. }
    change (String.String c (r +:+ rest)) with (String.String c r +:+ rest).
    rewrite <- Hcr, (digits_string_of_uint d rest Hrest), Hcr.
    cbn [String.eqb].
    change ("" +:+ String.String c r) with (String.String c r).
    by rewrite Hback.
  - assert (d ≠ Decimal.Nil) as Hd.
    { destruct n; simplify_eq/=. apply Unsigned.to_uint_nonnil. }
    change (String.String "-" (NilEmpty.string_of_uint d) +:+ rest)
      with (String.String "-" (NilEmpty.string_of_uint d +:+ rest)).
    cbn [Ascii.eqb Bool.eqb]. cbv beta iota.
    rewrite (digits_string_of_uint d rest Hrest).
    destruct (string_of_uint_digit d Hd) as (c & r & Hcr & Hc).
    rewrite Hcr in *. cbn [String.eqb].
    change ("-" +:+ String.String c r)
      with (String.String "-" (String.String c r)).
    by rewrite Hback.
Qed.

Lemma string_of_Z_head n :
  ∃ c r, string_of_Z n = String.String c r
         ∧ (is_digit c || Ascii.eqb c "-") = true.
Proof.
  unfold string_of_Z.
  destruct (Z.to_int n) as [d|d] eqn:Hn; cbn [NilEmpty.string_of_int].
  - assert (d ≠ Decimal.Nil) as Hd.
    { destruct n; simplify_eq/=; [done|apply Unsigned.to_uint_nonnil]. }
    destruct (string_of_uint_digit d Hd) as (c & r & -> & Hc).
    eexists _, _. by rewrite Hc.
  - by eexists _, _.
Qed.

Lemma parse_value_true fuel rest :
  parse_value (S fuel) ("true" +:+ rest) = Some (JSON.boolean true, rest).
Proof. reflexivity. Qed.

Lemma parse_value_str fuel s rest :
  parse_value (S fuel) (literal s rest) = Some (JSON.str s, rest).
Proof.
  unfold literal. cbn [parse_value].
  change (Ascii.eqb quote "[") with false.
  change (Ascii.eqb quote "{") with false.
  rewrite Ascii.eqb_refl. cbv iota. by rewrite read_string_literal.
Qed.

Lemma parse_value_number fuel n rest :
  closes rest →
  parse_value (S fuel) (string_of_Z n +:+ rest) = Some (JSON.number n, rest).
Proof.
  intros Hrest. pose proof (read_number_string_of_Z n rest Hrest) as Hread.
  destruct (string_of_Z_head n) as (c & r & Hcr & Hc). rewrite Hcr in *.
  change (String.String c r +:+ rest) with (String.String c (r +:+ rest)) in *.
  cbn [parse_value].
  destruct c as [[] [] [] [] [] [] [] []]; try discriminate Hc;
    cbn [Ascii.eqb Bool.eqb]; cbv iota; by rewrite Hread.
Qed.

Lemma parse_members_last fuel key v text rest :
  parse_value fuel text = Some (v, String.String "}" rest) →
  parse_members (S fuel) (literal key (String.String ":" text))
  = Some ([(key, v)], rest).
Proof.
  intros Hv. unfold literal. cbn [parse_members after].
  rewrite Ascii.eqb_refl. cbv iota. rewrite read_string_literal.
  cbn [Ascii.eqb Bool.eqb]. cbv iota. rewrite Hv. reflexivity.
Qed.

Lemma parse_members_more fuel key v text text' properties rest :
  parse_value fuel text = Some (v, String.String "," text') →
  parse_members fuel text' = Some (properties, rest) →
  parse_members (S fuel) (literal key (String.String ":" text))
  = Some (define key v properties, rest).
Proof.
  intros Hv Hmore. unfold literal. cbn [parse_members after].
  rewrite Ascii.eqb_refl. cbv iota. rewrite read_string_literal.
  cbn [Ascii.eqb Bool.eqb]. cbv iota. rewrite Hv.
  cbn [Ascii.eqb Bool.eqb]. cbv iota. by rewrite Hmore.
Qed.

Lemma parse_value_object fuel key text properties rest :
  parse_members fuel (literal key text) = Some (properties, rest) →
  parse_value (S fuel) (String.String "{" (literal key text))
  = Some (JSON.object properties, rest).
Proof.
  intros Hmembers. cbn [parse_value]. cbn [Ascii.eqb Bool.eqb]. cbv iota.
  unfold literal at 1. cbn [after].
  change (Ascii.eqb "}" quote) with false. cbv iota.
  by rewrite Hmembers.
Qed.

Lemma parse_package fuel payload ts rest :
  parse_value (5 + fuel) (write (package payload ts) rest)
  = Some (package payload ts, rest).
Proof.
  change (write (package payload ts) rest)
    with (String.String "{"
            (literal "e2ee" (String.String ":"
               ("true" +:+ String.String ","
                  (literal "payload" (String.String ":"
                     (literal payload (String.String ","
                        (literal "ts" (String.String ":"
                           (string_of_Z ts +:+ String.String "}" rest))))))))))).
  change (package payload ts)
    with (JSON.object
            (define "e2ee" (JSON.boolean true)
               (define "payload" (JSON.str payload)
                  [("ts", JSON.number ts)]))).
  apply parse_value_object.
  apply (parse_members_more _ _ _ _ _ _ _ (parse_value_true _ _)).
  apply (parse_members_more _ _ _ _ _ _ _ (parse_value_str _ _ _)).
  apply parse_members_last, parse_value_number. done.
Qed.

Lemma ToString_of_str s : ToString (JSON.str s) = s.
Proof. reflexivity. Qed.

Lemma parse_of_stringify payload ts :
  JSON_parse (JSON_stringify (package payload ts)) = inl (package payload ts).
Proof.
  unfold JSON_parse, JSON_stringify.
  assert (∃ fuel,
            String.length (write (package payload ts) "") = (5 + fuel)%nat)
    as [fuel ->].
  { eexists. cbn. reflexivity. }
  by rewrite parse_package.
Qed.

Lemma stringify_not_empty payload ts :
  JSON_stringify (package payload ts) ≠ "".
Proof. done. Qed.

End WireLaws.

(** * Worked requests on the rest of the code *)

Section WorkedMore.
Import Ref RefLaws Wire WireLaws Sample.

Lemma sample_save :
  save "org_1" (JSON.boolean true) (JSON.str "  Food Not Bombs ")
       (JSON.str "Free meals")
       (JSON.array [JSON.str "Kitchen"; JSON.null; JSON.str ""])
       (JSON.array [link; JSON.object [("text", JSON.str "No address")]])
       JSON.undefined no_pages
  = (public_json 200 (PublicSaved page), saved).
Proof. vm_compute. reflexivity. Qed.

Lemma saved_agree : pages_agree saved.
Proof.
  apply assigned_agree; [apply no_pages_agree|done..].
Qed.

Lemma save_then_public_witness :
  ∃ slug, page_slug page = Some slug
          ∧ public slug saved = public_json 200 (PublicFound page "org_1").
Proof.
  apply (save_then_public
           "org_1" (JSON.boolean true) (JSON.str "  Food Not Bombs ")
           (JSON.str "Free meals")
           (JSON.array [JSON.str "Kitchen"; JSON.null; JSON.str ""])
           (JSON.array [link; JSON.object [("text", JSON.str "No address")]])
           JSON.undefined no_pages page saved).
  - apply no_pages_agree.
  - discriminate.
  - apply sample_save.
Defined.

Lemma generate_moves_witness :
  ∃ new page',
    generate "org_1" saved
    = (public_json 200 (PublicSaved page'), assigned "org_1" new page' saved)
    ∧ page_slug page' = Some new
    ∧ new ≠ "food-not-bombs"
    ∧ public "food-not-bombs" (generate "org_1" saved).2
      = public_json 404 (PublicError "NOT_FOUND").
Proof.
  apply (generate_moves "org_1" saved page "food-not-bombs").
  - apply saved_agree.
  - vm_compute. reflexivity.
  - reflexivity.
Defined.

Lemma save_same_slug_witness :
  let out :=
    save "org_1" (JSON.boolean false) (JSON.str "FNB") JSON.undefined
         JSON.undefined JSON.undefined (JSON.str "Food Not Bombs!") saved in
  ∃ page', out.1 = public_json 200 (PublicSaved page')
           ∧ page_slug page' = Some "food-not-bombs"
           ∧ slugToOrg out.2 = slugToOrg saved.
Proof.
  apply (save_same_slug
           "org_1" (JSON.boolean false) (JSON.str "FNB") JSON.undefined
           JSON.undefined JSON.undefined "Food Not Bombs!" saved page
           "food-not-bombs").
  - apply saved_agree.
  - vm_compute. reflexivity.
  - reflexivity.
  - vm_compute. discriminate.
  - vm_compute. reflexivity.
  - apply surjective_pairing.
  - vm_compute. reflexivity.
Defined.

Lemma save_half_done_witness :
  let out :=
    save "org_1" (JSON.boolean true) (JSON.number 7) JSON.undefined
         JSON.undefined JSON.undefined (JSON.str "soup") saved in
  out.1 = public_json 500 PublicUncaught
  ∧ publicPages out.2 = publicPages saved
  ∧ public "food-not-bombs" out.2 = public_json 404 (PublicError "NOT_FOUND")
  ∧ ¬ pages_agree out.2.
Proof.
  apply (save_half_done
           "org_1" (JSON.boolean true) (JSON.number 7) JSON.undefined
           JSON.undefined JSON.undefined "soup" saved page "food-not-bombs").
  - apply saved_agree.
  - vm_compute. reflexivity.
  - reflexivity.
  - vm_compute. discriminate.
  - vm_compute. discriminate.
  - left. reflexivity.
  - vm_compute. discriminate.
Defined.

Lemma save_caps_witness :
  ∃ features links,
    page_features page = Some features ∧ page_links page = Some links
    ∧ (List.length features ≤ 50)%nat
    ∧ Forall (λ v, JSON.truthy v = true) features
    ∧ (List.length links ≤ 20)%nat
    ∧ Forall (λ v, JSON.truthy (JSON.get v "text") = true
                   ∧ JSON.truthy (JSON.get v "url") = true) links.
Proof.
  apply (save_caps
           "org_1" (JSON.boolean true) (JSON.str "  Food Not Bombs ")
           (JSON.str "Free meals")
           (JSON.array [JSON.str "Kitchen"; JSON.null; JSON.str ""])
           (JSON.array [link; JSON.object [("text", JSON.str "No address")]])
           JSON.undefined no_pages page saved).
  - apply no_pages_agree.
  - apply sample_save.
Defined.

Lemma save_bad_slug_witness :
  save "org_1" (JSON.boolean true) (JSON.str "Food Not Bombs")
       JSON.undefined JSON.undefined JSON.undefined (JSON.str " ?! ") saved
  = (public_json 400 (PublicError "BAD_SLUG"), saved).
Proof.
  apply (save_bad_slug
           "org_1" (JSON.boolean true) (JSON.str "Food Not Bombs")
           JSON.undefined JSON.undefined JSON.undefined " ?! " saved).
  - vm_compute. discriminate.
  - repeat constructor.
Defined.

Lemma public_own_slug_witness :
  publicPages saved !! "org_1" = Some page
  ∧ page_slug page = Some "food-not-bombs"
  ∧ page_enabled page = Some true.
Proof.
  apply (public_own_slug "food-not-bombs" saved page "org_1").
  - apply saved_agree.
  - vm_compute. reflexivity.
Defined.

Lemma slug_of_idempotent_witness :
  slug_of (slug_of "  Food Not Bombs! ") = slug_of "  Food Not Bombs! ".
Proof.
  destruct (slug_of_idempotent "  Food Not Bombs! ") as [Hshort Hfixed].
  apply Hfixed, Hshort. vm_compute. lia.
Defined.

Lemma page_route_agree_witness :
  pages_agree
    (page_route (PostSave "org_2" (JSON.boolean true)
                          (JSON.str "Food Not Bombs") JSON.undefined
                          JSON.undefined JSON.undefined JSON.undefined)
                saved).2.
Proof.
  destruct (page_route_agree
              (PostSave "org_2" (JSON.boolean true)
                        (JSON.str "Food Not Bombs") JSON.undefined
                        JSON.undefined JSON.undefined JSON.undefined)
              saved) as [_ Hstep].
  apply Hstep.
  - apply saved_agree.
  - vm_compute. discriminate.
Defined.

Lemma ALLOWED_ORIGINS_shape_witness :
  ALLOWED_ORIGINS (Some " https://bondfire.org , ,http://localhost:3000")
                  (Some "https://bondfire.app")
  = ALLOWED_ORIGINS (Some " https://bondfire.org , ,http://localhost:3000")
                    None
  ∧ ALLOWED_ORIGINS (Some " ") (Some "https://bondfire.app") = defaultOrigins.
Proof.
  split.
  - apply (ALLOWED_ORIGINS_shape
             (Some " https://bondfire.org , ,http://localhost:3000")
             (Some "https://bondfire.app")).
    by eexists.
  - apply (ALLOWED_ORIGINS_shape (Some " ") (Some "https://bondfire.app")).
    vm_compute. reflexivity.
Defined.

Lemma reset_password_no_token_witness :
  reset_password "c2Fs" JS.null (JS.str "n3w-pass") seed = (InvalidToken, seed).
Proof.
  apply (reset_password_no_token "c2Fs" JS.null (JS.str "n3w-pass") seed).
  reflexivity.
Defined.


Lemma forgot_password_supersedes_witness :
  let users' :=
    snd (forgot_password "p0o9i8u7y6t" "m5n4b3v2c1x"
           (JS.str "test@bondfire.org") requested) in
  users' !! 0%nat
  = Some (set_resetToken (JS.str "p0o9i8u7y6tm5n4b3v2c1x") user)
  ∧ reset_password "c2Fs" (JS.str "k3x9w2pq7m1z8d4v6n0s5t")
                   (JS.str "n3w-pass") users'
    = (InvalidToken, users').
Proof.
  apply (forgot_password_supersedes
           "k3x9w2pq7m1" "z8d4v6n0s5t" "p0o9i8u7y6t" "m5n4b3v2c1x" "c2Fs"
           (JS.str "n3w-pass") seed 0 user).
  - apply NoDup_singleton.
  - reflexivity.
  - apply Forall_singleton. discriminate.
  - vm_compute. discriminate.
Defined.

Lemma reset_then_login_witness :
  login JWT_SECRET 1000 (JS.str "test@bondfire.org") (JS.str "n3w-pass")
        JS.undefined
        (snd (reset_password "c2Fs" (JS.str "k3x9w2pq7m1z8d4v6n0s5t")
                             (JS.str "n3w-pass") requested))
  = json 200 (TokenUser
                (generateToken JWT_SECRET 1000
                   (set_resetToken (JS.str "k3x9w2pq7m1z8d4v6n0s5t") user))
                "u_1" "Test User" "test@bondfire.org").
Proof.
  apply (reset_then_login
           JWT_SECRET 1000 "c2Fs" "k3x9w2pq7m1z8d4v6n0s5t"
           (JS.str "n3w-pass") JS.undefined requested 0
           (set_resetToken (JS.str "k3x9w2pq7m1z8d4v6n0s5t") user)).
  - apply NoDup_singleton.
  - reflexivity.
  - reflexivity.
  - discriminate.
  - apply (forgot_password_sole_holder
             "k3x9w2pq7m1" "z8d4v6n0s5t" (JS.str "Test@Bondfire.org") seed 0
             user).
    + vm_compute. reflexivity.
    + apply Forall_singleton. discriminate.
  - reflexivity.
Defined.

Lemma disable_then_login_witness :
  mfa_disable "u_1" enabled = (json 200 OkTrue, seed)
  ∧ login JWT_SECRET 1000 (JS.str "test@bondfire.org")
          (JS.str "password123") JS.undefined
          (snd (mfa_disable "u_1" enabled))
    = json 200 (TokenUser (generateToken JWT_SECRET 1000 enrolled_user)
                          "u_1" "Test User" "test@bondfire.org").
Proof.
  apply (disable_then_login
           JWT_SECRET 1000 (JS.str "password123") JS.undefined enabled 0
           enrolled_user).
  - apply NoDup_singleton.
  - apply NoDup_singleton.
  - vm_compute. reflexivity.
  - vm_compute. reflexivity.
Defined.

Lemma setup_then_verify_witness :
  mfa_verify 1000 "u_1" (JS.str (totp "JBSWY3DPEHPK3PXP" 33)) JS.undefined
             pending
  = (json 200 OkTrue, [enrolled_user]).
Proof.
  pose proof (setup_then_verify
                1000 "JBSWY3DPEHPK3PXP"
                (JS.str (totp "JBSWY3DPEHPK3PXP" 33)) JS.undefined seed 0
                user) as Hthm.
  cbv zeta in Hthm.
  assert (totp_verify "JBSWY3DPEHPK3PXP"
            (JS.String (JS.str (totp "JBSWY3DPEHPK3PXP" 33))) 1 1000 = true)
    as Hcode by (vm_compute; reflexivity).
  change (fst (generateSecret "JBSWY3DPEHPK3PXP"
                 ("Bondfire (" +:+ email user +:+ ")") 20))
    with "JBSWY3DPEHPK3PXP" in Hthm.
  rewrite Hcode in Hthm. apply Hthm.
  - apply NoDup_singleton.
  - reflexivity.
  - vm_compute. reflexivity.
  - reflexivity.
  - discriminate.
Defined.

Lemma login_then_me_witness :
  ∃ u, u ∈ seed ∧ id u = "u_1"
       ∧ me JWT_SECRET 4599
            (JS.str ("Bearer " +:+ generateToken JWT_SECRET 1000 user)) seed
         = Go (mkProfile "u_1" "Test User" "test@bondfire.org" (mfaEnabled u)).
Proof.
  apply (login_then_me
           JWT_SECRET 1000 4599 (JS.str "Test@Bondfire.org")
           (JS.str "password123") JS.undefined seed
           (generateToken JWT_SECRET 1000 user)
           "u_1" "Test User" "test@bondfire.org").
  - apply NoDup_singleton.
  - vm_compute. reflexivity.
  - lia.
Defined.

Lemma middlewares_agree_witness :
  authRequired JWT_SECRET 1000 (JS.str "Bearer not-a-token")
  = match authMiddleware JWT_SECRET 1000 (JS.str "Bearer not-a-token") with
    | Go payload => Go payload
    | Sent _ => Sent (json 401 (Error "Unauthorized"))
    end.
Proof.
  apply (middlewares_agree JWT_SECRET 1000 "n" "ot-a-token").
  - reflexivity.
  - reflexivity.
Defined.

Lemma forgot_password_silent_witness :
  snd (forgot_password "k3x9w2pq7m1" "z8d4v6n0s5t"
                       (JS.str "nobody@bondfire.org") seed)
  = seed.
Proof.
  apply (forgot_password_silent
           "k3x9w2pq7m1" "z8d4v6n0s5t" (JS.str "nobody@bondfire.org") seed).
  apply (bool_decide_eq_false_1
           (Exists (email_is (JS.str "nobody@bondfire.org")) seed)).
  vm_compute. reflexivity.
Defined.

Lemma store_then_get_witness :
  let body :=
    JSON.object [("channel", JSON.str "general"); ("e2ee", JSON.boolean true);
                 ("payload", JSON.str "c2VhbGVk")] in
  let out := handleStore ToString JSON_stringify 1700000000000 (inl body) ∅ in
  out.1 = send 200 (JSON.object [("ok", JSON.boolean true);
                                 ("ts", JSON.number 1700000000000)])
  ∧ handleGet JSON_parse (Some "general") out.2
    = send 200 (package "c2VhbGVk" 1700000000000).
Proof.
  apply (store_then_get
           ToString JSON_stringify JSON_parse ToString_of_str
           parse_of_stringify stringify_not_empty
           1700000000000 "general" (JSON.boolean true) "c2VhbGVk" [] ∅).
  - discriminate.
  - reflexivity.
Defined.

Lemma store_elsewhere_witness :
  let body :=
    JSON.object [("channel", JSON.str "general"); ("e2ee", JSON.boolean true);
                 ("payload", JSON.str "c2VhbGVk")] in
  let out := handleStore ToString JSON_stringify 1700000000000 (inl body) ∅ in
  handleGet JSON_parse (Some "random") out.2
  = handleGet JSON_parse (Some "random") ∅.
Proof.
  apply (proj2 (store_elsewhere
                  ToString JSON_stringify JSON_parse 1700000000000
                  (inl (JSON.object [("channel", JSON.str "general");
                                     ("e2ee", JSON.boolean true);
                                     ("payload", JSON.str "c2VhbGVk")]))
                  "random" ∅) _ eq_refl).
  vm_compute. discriminate.
Defined.

Lemma get_never_fails_witness :
  let body :=
    JSON.object [("channel", JSON.str "general"); ("e2ee", JSON.boolean true);
                 ("payload", JSON.str "c2VhbGVk")] in
  packages_only JSON_stringify
    (handleStore ToString JSON_stringify 1700000000000 (inl body) ∅).2
  ∧ code (handleGet JSON_parse (Some "general") ∅) ≠ 500.
Proof.
  destruct (get_never_fails
              ToString JSON_stringify JSON_parse parse_of_stringify ∅
              1700000000000
              (inl (JSON.object [("channel", JSON.str "general");
                                 ("e2ee", JSON.boolean true);
                                 ("payload", JSON.str "c2VhbGVk")]))
              (Some "general")) as [Hempty Hstep].
  exact (Hstep Hempty).
Defined.

Lemma origin_env_witness :
  origin (ALLOWED_ORIGINS None (Some "https://bondfire.org"))
         (Some "https://bondfire.org")
  = OriginAllowed
  ∧ origin (ALLOWED_ORIGINS (Some "https://bondfire.org") None)
           (Some "https://bondfire.org ")
    = OriginRefused "CORS: Origin not allowed: https://bondfire.org ".
Proof.
  split.
  - apply (proj1 (proj2 (origin_env None (Some "https://bondfire.org")
                                    "https://bondfire.org")) eq_refl
                 "https://bondfire.org" eq_refl).
    + discriminate.
    + by right.
  - apply (origin_env (Some "https://bondfire.org") None
                      "https://bondfire.org ").
    + by eexists.
    + vm_compute. discriminate.
Defined.

Lemma worker_store_then_get_witness :
  let data :=
    JSON.object [("channel", JSON.str " general ");
                 ("payload", JSON.array [JSON.number 1; JSON.null]);
                 ("e2ee", JSON.number 1)] in
  let out :=
    Worker.handleStore ToString JSON_stringify 1700000000000 (inl data) ∅ in
  out.1 = send 200 (JSON.object [("ok", JSON.boolean true);
                                 ("ts", JSON.number 1700000000000)])
  ∧ Worker.handleGet JSON_parse (Some "general") out.2
    = send 200 (Worker.record true (JSON.array [JSON.number 1; JSON.null])
                              1700000000000).
Proof.
  apply (worker_store_then_get
           ToString JSON_stringify JSON_parse ToString_of_str 1700000000000
           (JSON.object [("channel", JSON.str " general ");
                         ("payload", JSON.array [JSON.number 1; JSON.null]);
                         ("e2ee", JSON.number 1)])
           " general " "general" ∅).
  - reflexivity.
  - discriminate.
  - vm_compute. discriminate.
  - vm_compute. reflexivity.
  - vm_compute. reflexivity.
  - vm_compute. discriminate.
Defined.


Lemma worker_get_never_fails_witness :
  Worker.handleGet JSON_parse (Some " general") {["general" := "sealed"]}
  = send 200 (Worker.unparsed "sealed").
Proof.
  apply (proj2 (worker_get_never_fails
                  JSON_parse (Some " general") {["general" := "sealed"]})
               "sealed").
  - vm_compute. discriminate.
  - vm_compute. reflexivity.
  - discriminate.
  - intros v Hv. vm_compute in Hv. discriminate Hv.
Defined.

End WorkedMore.

(** * Letters above [z] and the no-break space

    The routes on texts with the letters U+00C0..U+00DE, which
    [toLowerCase] lower-cases, and with U+00A0, which [trim] and [\s]
    take for white space. *)

Section AboveAscii.

Import Ref RefLaws Wire Sample.

Lemma toLowerCase_above_ascii :
  JS.toLowerCase JOSE = jose
  ∧ JS.toLowerCase jose = jose
  ∧ JS.lower_ascii "215" = "215"%char
  ∧ JS.lower_ascii "223" = "223"%char
  ∧ Text.trim (nbsp +:+ "a" +:+ nbsp) = "a".
Proof. by vm_compute. Qed.

(** After a registration as [jose], a registration as [JOSE] is answered
    409, a login as [JOSE] is answered with a token, and a reset request
    for [JOSE] sets the reset token of that user. *)
Lemma routes_above_ascii :
  let table :=
    snd (register JWT_SECRET 1000 "c2Fs" (JS.str "Jos") (JS.str jose)
                  (JS.str "hunter2") seed) in
  register JWT_SECRET 1001 "dDJu" (JS.str "Jos") (JS.str JOSE)
           (JS.str "hunter2") table
  = (DuplicateEmail, table)
  ∧ login JWT_SECRET 1001 (JS.str JOSE) (JS.str "hunter2") JS.undefined table
    = json 200 (TokenUser
                  (generateToken JWT_SECRET 1001
                     (new_user "c2Fs" "Jos" jose "hunter2" seed))
                  "u_2" "Jos" jose)
  ∧ snd (forgot_password "k3x9w2pq7m1" "z8d4v6n0s5t" (JS.str JOSE) table)
    = [user;
       set_resetToken (JS.str "k3x9w2pq7m1z8d4v6n0s5t")
                      (new_user "c2Fs" "Jos" jose "hunter2" seed)].
Proof. by vm_compute. Qed.

(** A slug that is one no-break space is a blank slug: [save] takes the
    slug from the title.  After [Bearer ] the no-break space is part of
    the white space for [authRequired], and of the token for
    [authMiddleware].  A channel that is one no-break space is a missing
    channel for the worker. *)
Lemma routes_nbsp :
  slug_given (JSON.str nbsp) = false
  ∧ fst (save "org_1" (JSON.boolean true) (JSON.str "Food Not Bombs")
              JSON.undefined JSON.undefined JSON.undefined (JSON.str nbsp)
              no_pages)
    = public_json 200
        (PublicSaved (mkPage (Some true) (Some "food-not-bombs")
                             (Some "Food Not Bombs") (Some "") (Some [])
                             (Some [])))
  ∧ match_Bearer ("Bearer " +:+ nbsp +:+ "abc") = Some "abc"
  ∧ JS.slice ("Bearer " +:+ nbsp +:+ "abc") 7 = nbsp +:+ "abc"
  ∧ Worker.handleStore ToString JSON_stringify 1700000000000
      (inl (JSON.object [("channel", JSON.str nbsp);
                         ("payload", JSON.str "c2VhbGVk")])) ∅
    = (Worker.json (failure "missing_channel") 400, ∅).
Proof. by vm_compute. Qed.

End AboveAscii.
